(** * Offline task list: task store, outbox and sync engine

    A shallow embedding of [src/services/taskService.ts] and
    [src/services/syncService.ts], and the properties of the
    synchronisation engine stated over it.

    Conventions of the embedding.
    - A JavaScript [Date] is the integer number of milliseconds since the
      epoch ([Z]); [toISOString] followed by [new Date(...)] is the identity
      on such values. The database compares the ISO texts: for instants in
      the years 0000 to 9999 their order is the order of the integers, and
      the properties that depend on the order of [created_at] are stated
      for such instants.
    - [x ?? d] on an optional field is [default d x]; [null] and [undefined]
      are both [None].
    - [JSON.stringify] followed by [JSON.parse] is the identity on the queued
      snapshot.
    - Every [await] is sequential, so an [async] method is a computation in
      the monad [M] below: it reads and writes the database, reads the clock
      and may throw. *)

From Stdlib Require Import List ZArith String Bool Arith Lia.
From Stdlib Require Import Sorted Permutation.
Import ListNotations.
Open Scope string_scope.
Open Scope list_scope.

(** ** Data model ([src/types], as used by the two services) *)

Module SyncStatus.
Inductive t := pending | synced | error.
End SyncStatus.

Module Operation.
Inductive t := create | update | delete.
End Operation.

(** The in-memory [Task] built by [rowToTask] and [createTask]. *)
Module Task.
Record t := mk {
  id : string;
  title : string;
  description : option string;
  completed : bool;
  is_deleted : bool;
  created_at : Z;
  updated_at : Z;
  sync_status : SyncStatus.t;
  server_id : option string }.
End Task.

(** [Partial<Task>]: every field may be absent. It is the type of the
    request body of [createTask] and [updateTask] and of the snapshot stored
    in a queue entry. *)
Module PartialTask.
Record t := mk {
  id : option string;
  title : option string;
  description : option string;
  completed : option bool;
  is_deleted : option bool;
  created_at : option Z;
  updated_at : option Z;
  sync_status : option SyncStatus.t;
  server_id : option string }.

Definition empty : t := mk None None None None None None None None None.
End PartialTask.

(** A row of table [tasks]: the columns the two services read and write. *)
Module TaskRow.
Record t := mk {
  id : string;
  title : string;
  description : option string;
  completed : bool;
  is_deleted : bool;
  created_at : Z;
  updated_at : Z;
  sync_status : SyncStatus.t;
  server_id : option string;
  last_synced_at : option Z }.
End TaskRow.

(** A row of table [sync_queue], which is also the [SyncQueueItem] sent to
    the remote service. *)
Module SyncQueueItem.
Record t := mk {
  id : string;
  task_id : string;
  operation : Operation.t;
  data : PartialTask.t;
  created_at : Z;
  retry_count : nat;
  error_message : option string }.
End SyncQueueItem.

Module SyncError.
Record t := mk {
  task_id : string;
  operation : Operation.t;
  error : string;
  timestamp : Z }.
End SyncError.

Module SyncResult.
Record t := mk {
  success : bool;
  synced_items : nat;
  failed_items : nat;
  errors : list SyncError.t }.
End SyncResult.

(** One verdict of a [BatchSyncResponse]. [status] is the string received
    from the network: ['success'], ['conflict'] or anything else. *)
Module ProcessedItem.
Record t := mk {
  client_id : string;
  status : string;
  server_id : option string;
  resolved_data : option Task.t;
  error : option string }.
End ProcessedItem.

(** What [axios.post] to [/batch] does: it throws an error carrying a
    message, or returns the response body, which is not checked: a body with
    a list of verdicts as its [processed_items], or a body in which
    [processed_items] is missing or is not iterable. *)
Inductive BatchReply :=
| PostThrows (message : string)
| PostReturns (processed_items : list ProcessedItem.t)
| PostReturnsNoVerdicts.

(** The remote service during one pass of the engine: whether [GET /health]
    answers, and the reply to the posted items and client timestamp. *)
Record Remote := mkRemote {
  health : bool;
  post_batch : list SyncQueueItem.t -> Z -> BatchReply }.

(** ** The process environment and the persistent state *)

(** Modelled from the spec: the persistence gateway ([src/db/database.ts] is
    not among the sources). The spec gives it row get, insert, update,
    delete and an ordered range query, and says nothing of keys, so whether
    the [id] column of a table is a key (an [INSERT] of an [id] already
    present throws) is left open: [tasks_id_key] and [queue_id_key]. The
    clock, the uuid generator and [process.env.SYNC_BATCH_SIZE] are the other
    inputs of the process. *)
Record Env := mkEnv {
  clock : nat -> Z;
  uuid : nat -> string;
  SYNC_BATCH_SIZE : option Z;
  tasks_id_key : bool;
  queue_id_key : bool }.

Record World := mkWorld {
  tasks : list TaskRow.t;
  sync_queue : list SyncQueueItem.t;
  clock_reads : nat;
  uuid_draws : nat }.

Definition empty_world : World := mkWorld [] [] 0 0.

Definition set_tasks (ts : list TaskRow.t) (w : World) : World :=
  mkWorld ts (sync_queue w) (clock_reads w) (uuid_draws w).

Definition set_sync_queue (q : list SyncQueueItem.t) (w : World) : World :=
  mkWorld (tasks w) q (clock_reads w) (uuid_draws w).

(** ** The monad of [async] methods: state and exceptions *)

Inductive Outcome (A : Type) :=
| Returned (a : A)
| Thrown (message : string).
Arguments Returned {A} a.
Arguments Thrown {A} message.

Definition M (A : Type) : Type := World -> Outcome A * World.

Definition ret {A} (a : A) : M A := fun w => (Returned a, w).

Definition bind {A B} (m : M A) (k : A -> M B) : M B :=
  fun w =>
    match m w with
    | (Returned a, w') => k a w'
    | (Thrown e, w') => (Thrown e, w')
    end.

Notation "x <- m ;; k" := (bind m (fun x => k))
  (at level 61, m at next level, right associativity).
Notation "m ;;; k" := (bind m (fun _ => k))
  (at level 61, right associativity).

(** [for (const x of xs) { body }] with the loop variables in [acc]. *)
Fixpoint for_of {A S} (xs : list A) (body : S -> A -> M S) (acc : S) : M S :=
  match xs with
  | [] => ret acc
  | x :: xs' => acc' <- body acc x ;; for_of xs' body acc'
  end.

(** [xs.map(f)] where [f] has effects (it reads the clock). *)
Fixpoint map_M {A B} (f : A -> M B) (xs : list A) : M (list B) :=
  match xs with
  | [] => ret []
  | x :: xs' => y <- f x ;; ys <- map_M f xs' ;; ret (y :: ys)
  end.

(** ** SQL statements on a table *)

(** [UPDATE t SET ... WHERE p]: every matching row is rewritten in place. *)
Definition update_where {R} (p : R -> bool) (f : R -> R) (rows : list R) : list R :=
  map (fun r => if p r then f r else r) rows.

(** [DELETE FROM t WHERE p]. *)
Definition delete_where {R} (p : R -> bool) (rows : list R) : list R :=
  filter (fun r => negb (p r)) rows.

(** [db.get(SELECT * FROM t WHERE p)]: the first matching row. *)
Definition select_first {R} (p : R -> bool) (rows : list R) : option R :=
  find p rows.

(** [ORDER BY created_at ASC], on instants whose ISO texts have a four-digit
    year, where the order of the texts is the order of the integers. Rows
    with equal [created_at] stay in insertion order here; the source does
    not fix their order, and the properties on the order of a batch assume
    distinct stamps. *)
Fixpoint insert_by_created_at (x : SyncQueueItem.t) (l : list SyncQueueItem.t)
  : list SyncQueueItem.t :=
  match l with
  | [] => [x]
  | y :: l' =>
      if (SyncQueueItem.created_at x <=? SyncQueueItem.created_at y)%Z
      then x :: y :: l'
      else y :: insert_by_created_at x l'
  end.

Definition order_by_created_at (l : list SyncQueueItem.t) : list SyncQueueItem.t :=
  fold_right insert_by_created_at [] l.

(** [LIMIT n]: the first [n] rows. A negative limit is no limit, as in
    SQLite; the properties on the length of a batch assume [0 <= n]. *)
Definition limit {R} (n : Z) (rows : list R) : list R :=
  if (n <? 0)%Z then rows else firstn (Z.to_nat n) rows.

Definition default {A} (d : A) (x : option A) : A :=
  match x with Some a => a | None => d end.

(** [x || d] on a string: the empty string is falsy. *)
Definition or_else (x d : string) : string :=
  if x =? "" then d else x.

(** SQL [COALESCE(x, y)]. *)
Definition COALESCE {A} (x y : option A) : option A :=
  match x with Some a => Some a | None => y end.

Section Services.

Variable env : Env.

(** [new Date()]. *)
Definition new_Date : M Z :=
fun w => (Returned (clock env (clock_reads w)),
          mkWorld (tasks w) (sync_queue w) (S (clock_reads w)) (uuid_draws w)).

(** [uuidv4()]. *)
Definition uuidv4 : M string :=
fun w => (Returned (uuid env (uuid_draws w)),
          mkWorld (tasks w) (sync_queue w) (clock_reads w) (S (uuid_draws w))).

Definition task_has_id (i : string) (r : TaskRow.t) : bool := TaskRow.id r =? i.
Definition entry_has_id (i : string) (q : SyncQueueItem.t) : bool := SyncQueueItem.id q =? i.

(** [INSERT INTO tasks ...]. *)
Definition insert_task (r : TaskRow.t) : M unit :=
fun w =>
  if tasks_id_key env && existsb (task_has_id (TaskRow.id r)) (tasks w)
  then (Thrown "SQLITE_CONSTRAINT: UNIQUE constraint failed: tasks.id", w)
  else (Returned tt, set_tasks (tasks w ++ [r]) w).

(** [INSERT INTO sync_queue ...]. *)
Definition insert_entry (q : SyncQueueItem.t) : M unit :=
fun w =>
  if queue_id_key env && existsb (entry_has_id (SyncQueueItem.id q)) (sync_queue w)
  then (Thrown "SQLITE_CONSTRAINT: UNIQUE constraint failed: sync_queue.id", w)
  else (Returned tt, set_sync_queue (sync_queue w ++ [q]) w).

(** [SELECT * FROM tasks WHERE id = ?] through [db.get]. *)
Definition get_task_row (i : string) : M (option TaskRow.t) :=
fun w => (Returned (select_first (task_has_id i) (tasks w)), w).

(** [UPDATE tasks SET ... WHERE id = ?]. *)
Definition update_tasks (i : string) (f : TaskRow.t -> TaskRow.t) : M unit :=
fun w => (Returned tt, set_tasks (update_where (task_has_id i) f (tasks w)) w).

(** [UPDATE sync_queue SET ... WHERE id = ?]. *)
Definition update_entries (i : string) (f : SyncQueueItem.t -> SyncQueueItem.t) : M unit :=
fun w => (Returned tt, set_sync_queue (update_where (entry_has_id i) f (sync_queue w)) w).

(** [DELETE FROM sync_queue WHERE id = ?]. *)
Definition delete_entries (i : string) : M unit :=
fun w => (Returned tt, set_sync_queue (delete_where (entry_has_id i) (sync_queue w)) w).

(** [SELECT * FROM sync_queue ORDER BY created_at LIMIT ?]. *)
Definition select_batch (n : Z) : M (list SyncQueueItem.t) :=
fun w => (Returned (limit n (order_by_created_at (sync_queue w))), w).

(** ** SyncService.addToSyncQueue *)

Definition addToSyncQueue (taskId : string) (operation : Operation.t)
  (data : PartialTask.t) : M unit :=
now <- new_Date ;;
insert_entry (SyncQueueItem.mk taskId taskId operation data now 0 None).

(** ** TaskService *)

Definition rowToTask (row : TaskRow.t) : Task.t :=
Task.mk (TaskRow.id row) (TaskRow.title row) (TaskRow.description row)
  (TaskRow.completed row) (TaskRow.is_deleted row)
  (TaskRow.created_at row) (TaskRow.updated_at row)
  (TaskRow.sync_status row) (TaskRow.server_id row).

(** The snapshot object literal handed to [addToSyncQueue] by the three
  mutations. *)
Definition snapshot (i : string) (ttl : string) (descr : option string)
  (done : bool) (upd cre : Z) (del : bool) (srv : option string) : PartialTask.t :=
PartialTask.mk (Some i) (Some ttl) descr (Some done) (Some del)
  (Some cre) (Some upd) None srv.

Definition createTask (taskData : PartialTask.t) : M Task.t :=
now <- new_Date ;;
new_id <- uuidv4 ;;
let task :=
  Task.mk new_id
    (default "" (PartialTask.title taskData))
    (Some (default "" (PartialTask.description taskData)))
    (default false (PartialTask.completed taskData))
    false now now SyncStatus.pending
    (PartialTask.server_id taskData) in
insert_task
  (TaskRow.mk (Task.id task) (Task.title task) (Task.description task)
     (Task.completed task) (Task.is_deleted task)
     (Task.created_at task) (Task.updated_at task)
     (Task.sync_status task) (Task.server_id task) None) ;;;
addToSyncQueue (Task.id task) Operation.create
  (snapshot (Task.id task) (Task.title task) (Task.description task)
     (Task.completed task) (Task.updated_at task) (Task.created_at task)
     (Task.is_deleted task) (Task.server_id task)) ;;;
ret task.

(** [{ ...existing, ...updates, updated_at: now, sync_status: 'pending' }],
    for a request whose keys hold values: a field [Some v] of [updates] is a
    key holding [v] and replaces the stored value, [None] is a key the
    request does not have. A key set to [undefined] or [null] is not a
    [PartialTask.t] (the spread copies it over the stored value), so the
    properties of [updateTask] are stated on what the request cannot
    change ([updated_at], [sync_status], the row's [id] and [created_at],
    the queue entry) and on the fields it gives a value to. *)
Definition spread (existing : Task.t) (updates : PartialTask.t) (now : Z) : Task.t :=
Task.mk
  (default (Task.id existing) (PartialTask.id updates))
  (default (Task.title existing) (PartialTask.title updates))
  (COALESCE (PartialTask.description updates) (Task.description existing))
  (default (Task.completed existing) (PartialTask.completed updates))
  (default (Task.is_deleted existing) (PartialTask.is_deleted updates))
  (default (Task.created_at existing) (PartialTask.created_at updates))
  now SyncStatus.pending
  (COALESCE (PartialTask.server_id updates) (Task.server_id existing)).

(** The [SET] clause of [updateTask]. *)
Definition write_update (updated : Task.t) (r : TaskRow.t) : TaskRow.t :=
TaskRow.mk (TaskRow.id r) (Task.title updated) (Task.description updated)
  (Task.completed updated) (Task.is_deleted updated)
  (TaskRow.created_at r) (Task.updated_at updated)
  (Task.sync_status updated) (Task.server_id updated)
  (TaskRow.last_synced_at r).

Definition updateTask (i : string) (updates : PartialTask.t) : M (option Task.t) :=
existingRow <- get_task_row i ;;
match existingRow with
| None => ret None
| Some row =>
    let existing := rowToTask row in
    now <- new_Date ;;
    let updated := spread existing updates now in
    update_tasks i (write_update updated) ;;;
    addToSyncQueue i Operation.update
      (snapshot (Task.id updated) (Task.title updated) (Task.description updated)
         (Task.completed updated) (Task.updated_at updated)
         (Task.created_at updated) (Task.is_deleted updated)
         (Task.server_id updated)) ;;;
    ret (Some updated)
end.

(** The [SET] clause of [deleteTask]. *)
Definition write_delete (now : Z) (r : TaskRow.t) : TaskRow.t :=
TaskRow.mk (TaskRow.id r) (TaskRow.title r) (TaskRow.description r)
  (TaskRow.completed r) true
  (TaskRow.created_at r) now SyncStatus.pending
  (TaskRow.server_id r) (TaskRow.last_synced_at r).

Definition deleteTask (i : string) : M bool :=
existingRow <- get_task_row i ;;
match existingRow with
| None => ret false
| Some row =>
    let existing := rowToTask row in
    now <- new_Date ;;
    update_tasks i (write_delete now) ;;;
    addToSyncQueue i Operation.delete
      (snapshot (Task.id existing) (Task.title existing) (Task.description existing)
         (Task.completed existing) now (Task.created_at existing) true
         (Task.server_id existing)) ;;;
    ret true
end.

Definition getTask (i : string) : M (option Task.t) :=
row <- get_task_row i ;;
match row with
| None => ret None
| Some r =>
    let t := rowToTask r in
    if Task.is_deleted t then ret None else ret (Some t)
end.


(** ** SyncService *)

Definition checkConnectivity (net : Remote) : M bool :=
ret (health net).

(** [processBatch] throws when the request fails, and otherwise returns the
    body as it came: [Some processed_items], or [None] for a body without
    an iterable [processed_items]. *)
Definition processBatch (net : Remote) (items : list SyncQueueItem.t)
: M (option (list ProcessedItem.t)) :=
client_timestamp <- new_Date ;;
match post_batch net items client_timestamp with
| PostThrows message => fun w => (Thrown message, w)
| PostReturns processed_items => ret (Some processed_items)
| PostReturnsNoVerdicts => ret None
end.

(** [try { x = await m } catch (err) { return handler(err) }] followed by
  [k x]. *)
Definition try_or_return {A B} (m : M A) (handler : string -> M B) (k : A -> M B)
: M B :=
fun w =>
  match m w with
  | (Returned a, w') => k a w'
  | (Thrown e, w') => handler e w'
  end.

Definition resolveConflict (localTask serverTask : Task.t) : Task.t :=
let localTime := Task.updated_at localTask in
let serverTime := Task.updated_at serverTask in
if (serverTime >? localTime)%Z then serverTask else localTask.

(** The [SET] clause of [updateSyncStatus]. *)
Definition write_status (status : SyncStatus.t) (now : Z) (srv : option string)
  (r : TaskRow.t) : TaskRow.t :=
TaskRow.mk (TaskRow.id r) (TaskRow.title r) (TaskRow.description r)
  (TaskRow.completed r) (TaskRow.is_deleted r)
  (TaskRow.created_at r) (TaskRow.updated_at r)
  status (COALESCE srv (TaskRow.server_id r)) (Some now).

Definition updateSyncStatus (taskId : string) (status : SyncStatus.t)
  (serverData : option PartialTask.t) : M unit :=
now <- new_Date ;;
update_tasks taskId
  (write_status status now
     match serverData with
     | Some d => PartialTask.server_id d
     | None => None
     end).

(** The [SET] clause of [handleSyncError]. *)
Definition write_retry (message : string) (q : SyncQueueItem.t) : SyncQueueItem.t :=
SyncQueueItem.mk (SyncQueueItem.id q) (SyncQueueItem.task_id q)
  (SyncQueueItem.operation q) (SyncQueueItem.data q)
  (SyncQueueItem.created_at q) (SyncQueueItem.retry_count q + 1) (Some message).

(** [error] is the [message] of the [Error] object. *)
Definition handleSyncError (item : SyncQueueItem.t) (error : string) : M unit :=
update_entries (SyncQueueItem.id item) (write_retry error) ;;;
updateSyncStatus (SyncQueueItem.task_id item) SyncStatus.error None.

(** The [SET] clause of the conflict write-back in [sync]. *)
Definition write_winner (winner : Task.t) (srv : option string) (r : TaskRow.t)
: TaskRow.t :=
TaskRow.mk (TaskRow.id r) (Task.title winner) (Task.description winner)
  (Task.completed winner) (TaskRow.is_deleted r)
  (TaskRow.created_at r) (Task.updated_at winner)
  SyncStatus.synced srv (TaskRow.last_synced_at r).

(** The [rawItems.map] of [sync]. *)
Definition item_of_row (r : SyncQueueItem.t) : SyncQueueItem.t :=
SyncQueueItem.mk (SyncQueueItem.id r) (SyncQueueItem.task_id r)
  (SyncQueueItem.operation r) (SyncQueueItem.data r)
  (SyncQueueItem.created_at r) (SyncQueueItem.retry_count r)
  (SyncQueueItem.error_message r).

(** The loop variables [synced], [failed] and [errors] of [sync]. *)
Record Tally := mkTally {
synced : nat;
failed : nat;
errors : list SyncError.t }.

Definition count_synced (t : Tally) : Tally :=
mkTally (synced t + 1) (failed t) (errors t).

Definition count_failed (item : SyncQueueItem.t) (error : string) (ts : Z)
  (t : Tally) : Tally :=
mkTally (synced t) (failed t + 1)
  (errors t ++ [SyncError.mk (SyncQueueItem.task_id item)
                  (SyncQueueItem.operation item) error ts]).

(** [processed.error || 'sync error']. *)
Definition verdict_error (processed : ProcessedItem.t) : string :=
match ProcessedItem.error processed with
| Some e => or_else e "sync error"
| None => "sync error"
end.

(** The [items.find] of the verdict loop. *)
Definition find_item (items : list SyncQueueItem.t) (processed : ProcessedItem.t)
: option SyncQueueItem.t :=
find (fun i => SyncQueueItem.id i =? ProcessedItem.client_id processed) items.

(** The body of [for (const processed of response.processed_items)]. *)
Definition reconcile (items : list SyncQueueItem.t) (acc : Tally)
  (processed : ProcessedItem.t) : M Tally :=
match find_item items processed with
| None => ret acc
| Some item =>
    if ProcessedItem.status processed =? "success" then
      updateSyncStatus (SyncQueueItem.task_id item) SyncStatus.synced
        (Some (PartialTask.mk None None None None None None None None
                 (ProcessedItem.server_id processed))) ;;;
      delete_entries (SyncQueueItem.id item) ;;;
      ret (count_synced acc)
    else if ProcessedItem.status processed =? "conflict" then
      local <- getTask (SyncQueueItem.task_id item) ;;
      match local, ProcessedItem.resolved_data processed with
      | Some l, Some resolved =>
          let winner := resolveConflict l resolved in
          update_tasks (Task.id l)
            (write_winner winner (ProcessedItem.server_id processed)) ;;;
          delete_entries (SyncQueueItem.id item) ;;;
          ret (count_synced acc)
      | _, _ =>
          handleSyncError item "Conflict unresolved" ;;;
          ts <- new_Date ;;
          ret (count_failed item "Conflict unresolved" ts acc)
      end
    else
      handleSyncError item (verdict_error processed) ;;;
      ts <- new_Date ;;
      ret (count_failed item (verdict_error processed) ts acc)
end.

(** The [catch] block of [sync]. *)
Definition batch_failed (items : list SyncQueueItem.t) (err : string)
: M SyncResult.t :=
for_of items (fun _ item => handleSyncError item err) tt ;;;
errs <- map_M
          (fun i =>
             ts <- new_Date ;;
             ret (SyncError.mk (SyncQueueItem.task_id i)
                    (SyncQueueItem.operation i) (or_else err "batch error") ts))
          items ;;
ret (SyncResult.mk false 0 (List.length items) errs).

Definition sync (net : Remote) : M SyncResult.t :=
online <- checkConnectivity net ;;
if negb online then ret (SyncResult.mk false 0 0 [])
else
  let batchSize := default 50%Z (SYNC_BATCH_SIZE env) in
  rawItems <- select_batch batchSize ;;
  if (List.length rawItems =? 0)%nat then ret (SyncResult.mk true 0 0 [])
  else
    let items := map item_of_row rawItems in
    try_or_return (processBatch net items)
      (batch_failed items)
      (fun response =>
         match response with
         | None =>
             (* [for (... of response.processed_items)] is outside the [try] *)
             fun w =>
               (Thrown "TypeError: response.processed_items is not iterable", w)
         | Some processed_items =>
             t <- for_of processed_items (reconcile items) (mkTally 0 0 []) ;;
             ret (SyncResult.mk (failed t =? 0)%nat (synced t) (failed t)
                    (errors t))
         end).

End Services.

(** ** Calls made on the two services over time *)

Inductive Call :=
| CallCreate (taskData : PartialTask.t)
| CallUpdate (id : string) (updates : PartialTask.t)
| CallDelete (id : string)
| CallSync (net : Remote).

(** The state left by one call, whether it returned or threw. *)
Definition after (env : Env) (c : Call) (w : World) : World :=
  match c with
  | CallCreate taskData => snd (createTask env taskData w)
  | CallUpdate i updates => snd (updateTask env i updates w)
  | CallDelete i => snd (deleteTask env i w)
  | CallSync net => snd (sync env net w)
  end.

Definition run (env : Env) (cs : list Call) (w : World) : World :=
  fold_left (fun w c => after env c w) cs w.

(** ** Predicates of the properties *)

(** The queue entry's own [id] is the id of the task it belongs to. *)
Definition entry_id_is_task_id (q : SyncQueueItem.t) : Prop :=
  SyncQueueItem.id q = SyncQueueItem.task_id q.

Definition queue_ids_are_task_ids (w : World) : Prop :=
  Forall entry_id_is_task_id (sync_queue w).

(** No task that [db.get] finds in [w] has an earlier [updated_at] in
    [w']. *)
Definition never_earlier (w w' : World) : Prop :=
  forall i r,
    select_first (task_has_id i) (tasks w) = Some r ->
    exists r',
      select_first (task_has_id i) (tasks w') = Some r'
      /\ (TaskRow.updated_at r <= TaskRow.updated_at r')%Z.

(** The task row a call rewrites with the reading of the clock. *)
Definition rewritten_by (c : Call) : option string :=
  match c with
  | CallUpdate i _ => Some i
  | CallDelete i => Some i
  | CallCreate _ => None
  | CallSync _ => None
  end.

(** The clock, when the call reads it, is not behind the [updated_at] stored
    for the task the call rewrites. *)
Definition clock_not_behind (env : Env) (c : Call) (w : World) : Prop :=
  forall i r,
    rewritten_by c = Some i ->
    select_first (task_has_id i) (tasks w) = Some r ->
    (TaskRow.updated_at r <= clock env (clock_reads w))%Z.

(** [getTask] finds no local task: there is no row, or the row is
    soft-deleted. *)
Definition no_local_task (i : string) (w : World) : Prop :=
  select_first (task_has_id i) (tasks w) = None
  \/ exists r,
       select_first (task_has_id i) (tasks w) = Some r
       /\ TaskRow.is_deleted r = true.

(** What a failed item does to a queue entry [q], giving [q']: an entry with
    id [i] has its retry counter one higher and the message recorded, and is
    otherwise the same; any other entry is untouched. *)
Definition retried (i message : string) (q q' : SyncQueueItem.t) : Prop :=
  if entry_has_id i q
  then SyncQueueItem.retry_count q' = SyncQueueItem.retry_count q + 1
       /\ SyncQueueItem.error_message q' = Some message
       /\ SyncQueueItem.id q' = SyncQueueItem.id q
       /\ SyncQueueItem.task_id q' = SyncQueueItem.task_id q
       /\ SyncQueueItem.operation q' = SyncQueueItem.operation q
       /\ SyncQueueItem.data q' = SyncQueueItem.data q
       /\ SyncQueueItem.created_at q' = SyncQueueItem.created_at q
  else q' = q.

(** How many of the submitted [items] carry the id of the queue entry
    [q]. *)
Definition hits (items : list SyncQueueItem.t) (q : SyncQueueItem.t) : nat :=
  List.length (filter (fun it => entry_has_id (SyncQueueItem.id it) q) items).

(** What the [catch] block of [sync] does to a queue entry [q], giving [q']:
    the retry counter grows by the number of submitted items with the id of
    [q], the message is recorded when there is one, and nothing else
    changes. *)
Definition retried_in_batch (items : list SyncQueueItem.t) (message : string)
    (q q' : SyncQueueItem.t) : Prop :=
  SyncQueueItem.id q' = SyncQueueItem.id q
  /\ SyncQueueItem.task_id q' = SyncQueueItem.task_id q
  /\ SyncQueueItem.operation q' = SyncQueueItem.operation q
  /\ SyncQueueItem.data q' = SyncQueueItem.data q
  /\ SyncQueueItem.created_at q' = SyncQueueItem.created_at q
  /\ SyncQueueItem.retry_count q' = SyncQueueItem.retry_count q + hits items q
  /\ (0 < hits items q -> SyncQueueItem.error_message q' = Some message)
  /\ (hits items q = 0 -> SyncQueueItem.error_message q' = SyncQueueItem.error_message q).

(** Whether one of the submitted [items] belongs to the task of row [r]. *)
Definition owns_one_of (items : list SyncQueueItem.t) (r : TaskRow.t) : bool :=
  existsb (fun it => task_has_id (SyncQueueItem.task_id it) r) items.

(** What the [catch] block of [sync] does to a task row. *)
Definition marked_in_batch (items : list SyncQueueItem.t) (r r' : TaskRow.t) : Prop :=
  TaskRow.id r' = TaskRow.id r
  /\ (owns_one_of items r = true -> TaskRow.sync_status r' = SyncStatus.error)
  /\ (owns_one_of items r = false -> r' = r).

(** ** Computations *)

(** [m] returns from every state. *)
Definition total {A} (m : M A) : Prop :=
  forall w, exists a w', m w = (Returned a, w').

(** [keeps R m]: the state [m] leaves, whether it returns or throws, is
    related by [R] to the state it started from. *)
Definition keeps (R : World -> World -> Prop) {A} (m : M A) : Prop :=
  forall w, R w (snd (m w)).

(** The queue of [w'] has only entries whose id is their task's id if the
    queue of [w] has. *)
Definition ids_kept (w w' : World) : Prop :=
  queue_ids_are_task_ids w -> queue_ids_are_task_ids w'.

(** The error records of the [catch] block: one per submitted item, in
    order. *)
Definition records_failure (message : string) (i : SyncQueueItem.t)
    (e : SyncError.t) : Prop :=
  SyncError.task_id e = SyncQueueItem.task_id i
  /\ SyncError.operation e = SyncQueueItem.operation i
  /\ SyncError.error e = or_else message "batch error".

(** ** Example environments *)

Definition demo_clock (n : nat) : Z := (100 + 10 * Z.of_nat n)%Z.
Definition demo_uuid (n : nat) : string :=
  match n with 0 => "A" | 1 => "B" | 2 => "C" | _ => "D" end.

(** The queue [id] is not a key / is a key. *)
Definition env_plain : Env := mkEnv demo_clock demo_uuid None true false.
Definition env_keyed : Env := mkEnv demo_clock demo_uuid None true true.

Definition buy_milk : PartialTask.t :=
  PartialTask.mk None (Some "buy milk") None None None None None None None.
Definition mark_done : PartialTask.t :=
  PartialTask.mk None None None (Some true) None None None None None.

Definition offline : Remote := mkRemote false (fun _ _ => PostReturns []).
Definition unreachable_batch : Remote :=
  mkRemote true (fun _ _ => PostThrows "Network Error").

(** Task B of the spec's conflict scenario: edited locally at 100, and the
    server's version of 150. *)
Definition task_B_local : Task.t :=
  Task.mk "B" "task B" (Some "") false false 50%Z 100%Z SyncStatus.pending None.
Definition task_B_server : Task.t :=
  Task.mk "B" "task B" (Some "") true false 50%Z 150%Z SyncStatus.synced (Some "srv-B").

(** A task created and then edited before any pass of the engine. *)
Definition world_two_edits : World :=
  Eval vm_compute in
    run env_plain [CallCreate buy_milk; CallUpdate "A" mark_done] empty_world.

(** The remote answers every submitted entry with a conflict, resolved to a
    server version of the task stamped 1000 and marked completed. *)
Definition server_ahead : Remote :=
  mkRemote true
    (fun items _ =>
       PostReturns
         (map (fun i =>
                 ProcessedItem.mk (SyncQueueItem.id i) "conflict" (Some "srv-1")
                   (Some (Task.mk (SyncQueueItem.task_id i) "buy milk" (Some "")
                            true false 100%Z 1000%Z SyncStatus.synced (Some "srv-1")))
                   None)
              items)).

(** A task created at 100 whose conflict was resolved to the server's
    version of 1000. *)
Definition world_server_ahead : World :=
  run env_plain [CallCreate buy_milk; CallSync server_ahead] empty_world.

(** One task created and not yet synced, and the verdicts the remote may
    give on its queue entry. *)
Definition world_one_task : World :=
  Eval vm_compute in run env_plain [CallCreate buy_milk] empty_world.
Definition verdict_accepted : ProcessedItem.t :=
  ProcessedItem.mk "A" "success" (Some "srv-1") None None.
Definition verdict_conflict_no_data : ProcessedItem.t :=
  ProcessedItem.mk "A" "conflict" None None None.

(** The remote accepts the first submitted entry and says nothing of the
    others. *)
Definition accept_first : Remote :=
  mkRemote true
    (fun items _ =>
       PostReturns
         (map (fun i =>
                 ProcessedItem.mk (SyncQueueItem.id i) "success" (Some "srv-1")
                   None None)
              (firstn 1 items))).

(** Three tasks created and not yet synced. *)
Definition world_three_tasks : World :=
  run env_plain [CallCreate buy_milk; CallCreate buy_milk; CallCreate buy_milk]
    empty_world.

(** ** TaskService: the listings *)

(** [db.all(SELECT * FROM tasks WHERE p)]: the matching rows, in the order of
    the table. *)
Definition select_tasks (p : TaskRow.t -> bool) : M (list TaskRow.t) :=
  fun w => (Returned (filter p (tasks w)), w).

(** [WHERE is_deleted = 0]. *)
Definition not_deleted (r : TaskRow.t) : bool := negb (TaskRow.is_deleted r).

(** [WHERE sync_status IN ('pending','error')]. *)
Definition needs_sync (r : TaskRow.t) : bool :=
  match TaskRow.sync_status r with
  | SyncStatus.pending => true
  | SyncStatus.error => true
  | SyncStatus.synced => false
  end.

Definition getAllTasks : M (list Task.t) :=
  rows <- select_tasks not_deleted ;;
  ret (map rowToTask rows).

Definition getTasksNeedingSync : M (list Task.t) :=
  rows <- select_tasks needs_sync ;;
  ret (map rowToTask rows).

(** ** Predicates of the further properties *)

(** The entries [sync] reads at the start of a pass: the rows of
    [select_batch] for the configured batch size, as [rawItems.map] builds
    them. *)
Definition batch_of (env : Env) (w : World) : list SyncQueueItem.t :=
  map item_of_row
    (limit (default 50%Z (SYNC_BATCH_SIZE env)) (order_by_created_at (sync_queue w))).

(** The verdict names one of the submitted [items]. *)
Definition matched (items : list SyncQueueItem.t) (v : ProcessedItem.t) : bool :=
  match find_item items v with
  | Some _ => true
  | None => false
  end.

(** The state of [w] after one more reading of the clock. *)
Definition tick (w : World) : World :=
  mkWorld (tasks w) (sync_queue w) (S (clock_reads w)) (uuid_draws w).

(** The server's version of task A, stamped 1000 and completed, given as the
    resolution of a conflict. *)
Definition verdict_conflict_server : ProcessedItem.t :=
  ProcessedItem.mk "A" "conflict" (Some "srv-1")
    (Some (Task.mk "A" "buy milk" (Some "") true false 100%Z 1000%Z
             SyncStatus.synced (Some "srv-1")))
    None.

(** The remote answers with verdicts on entries it was not sent. *)
Definition answers_strangers : Remote :=
  mkRemote true
    (fun _ _ =>
       PostReturns [ProcessedItem.mk "Z" "success" None None None;
                    ProcessedItem.mk "Y" "error" None None (Some "unknown")]).

(** The remote accepts every submitted entry, and the first one twice. *)
Definition accept_all_first_twice : Remote :=
  mkRemote true
    (fun items _ =>
       PostReturns
         (map (fun i =>
                 ProcessedItem.mk (SyncQueueItem.id i) "success" None None None)
              (firstn 1 items ++ items))).

(** Entry [a] was created no later than entry [b]. *)
Definition no_later (a b : SyncQueueItem.t) : Prop :=
  (SyncQueueItem.created_at a <= SyncQueueItem.created_at b)%Z.



(** The row [createTask] inserts for the task it returns. *)
Definition row_of_task (t : Task.t) : TaskRow.t :=
  TaskRow.mk (Task.id t) (Task.title t) (Task.description t) (Task.completed t)
    (Task.is_deleted t) (Task.created_at t) (Task.updated_at t)
    (Task.sync_status t) (Task.server_id t) None.

(** [INSERT INTO sync_queue] accepts an entry with id [i]: the id is not a
    key, or no entry has it. *)
Definition enqueue_accepted (env : Env) (i : string) (w : World) : Prop :=
  queue_id_key env && existsb (entry_has_id i) (sync_queue w) = false.

(** A task that was soft-deleted and not yet synced. *)
Definition world_deleted_task : World :=
  run env_plain [CallCreate buy_milk; CallDelete "A"] empty_world.

(** No task row marked ['synced'] owns an entry of the queue. *)
Definition no_synced_owner (ts : list TaskRow.t) (qs : list SyncQueueItem.t) : Prop :=
  forall q r,
    In q qs -> In r ts ->
    TaskRow.id r = SyncQueueItem.task_id q ->
    TaskRow.sync_status r <> SyncStatus.synced.

(** Every entry carries its task's id as its own, and the task of every
    entry is still pending or in error. *)
Definition settled (w : World) : Prop :=
  queue_ids_are_task_ids w /\ no_synced_owner (tasks w) (sync_queue w).

Definition settled_kept (w w' : World) : Prop := settled w -> settled w'.

(** The id [createTask] is about to draw is not stored yet: the insert
    rejects a stored id, or no row has it. *)
Definition uuid_is_fresh (env : Env) (c : Call) (w : World) : Prop :=
  match c with
  | CallCreate _ =>
      tasks_id_key env = true
      \/ select_first (task_has_id (uuid env (uuid_draws w))) (tasks w) = None
  | _ => True
  end.

Fixpoint uuids_are_fresh (env : Env) (cs : list Call) (w : World) : Prop :=
  match cs with
  | [] => True
  | c :: cs' => uuid_is_fresh env c w /\ uuids_are_fresh env cs' (after env c w)
  end.

(** Row [r'] is row [r] as far as [sync] may not change it. *)
Definition same_identity (r r' : TaskRow.t) : Prop :=
  TaskRow.id r' = TaskRow.id r
  /\ TaskRow.created_at r' = TaskRow.created_at r
  /\ TaskRow.is_deleted r' = TaskRow.is_deleted r.

Definition rows_kept (w w' : World) : Prop :=
  Forall2 same_identity (tasks w) (tasks w').

(** Entry [q'] is entry [q], possibly retried. *)
Definition descends_from (q q' : SyncQueueItem.t) : Prop :=
  SyncQueueItem.id q' = SyncQueueItem.id q
  /\ SyncQueueItem.task_id q' = SyncQueueItem.task_id q
  /\ SyncQueueItem.operation q' = SyncQueueItem.operation q
  /\ SyncQueueItem.data q' = SyncQueueItem.data q
  /\ SyncQueueItem.created_at q' = SyncQueueItem.created_at q
  /\ SyncQueueItem.retry_count q <= SyncQueueItem.retry_count q'.

(** The queue of [w'] holds no more entries than the queue of [w], and each
    of them descends from one of [w]. *)
Definition queue_shrinks (w w' : World) : Prop :=
  List.length (sync_queue w') <= List.length (sync_queue w)
  /\ forall q', In q' (sync_queue w') ->
                exists q, In q (sync_queue w) /\ descends_from q q'.

(** Row [r'] is row [r], unless [r] belongs to task [i]. *)
Definition same_unless (i : string) (r r' : TaskRow.t) : Prop :=
  TaskRow.id r' = TaskRow.id r /\ (TaskRow.id r <> i -> r' = r).

(** ** Passes compared *)

(** A remote that answers the probe and returns the given verdicts to the
    batch request. *)
Definition answering (verdicts : list ProcessedItem.t) : Remote :=
  mkRemote true (fun _ _ => PostReturns verdicts).

(** The result [sync] builds from its loop variables. *)
Definition tally_result (t : Tally) : SyncResult.t :=
  SyncResult.mk (failed t =? 0)%nat (synced t) (failed t) (errors t).

(** ** The queue's id as a key *)

(** No two entries of the queue have the same [id]. *)
Definition distinct_ids (w : World) : Prop :=
  NoDup (map SyncQueueItem.id (sync_queue w)).

Definition distinct_kept (w w' : World) : Prop :=
  distinct_ids w -> distinct_ids w'.

(** Entry [q'] is entry [q] retried once with [message]. *)
Definition retried_once (message : string) (q q' : SyncQueueItem.t) : Prop :=
  SyncQueueItem.retry_count q' = SyncQueueItem.retry_count q + 1
  /\ SyncQueueItem.error_message q' = Some message
  /\ SyncQueueItem.id q' = SyncQueueItem.id q
  /\ SyncQueueItem.task_id q' = SyncQueueItem.task_id q
  /\ SyncQueueItem.operation q' = SyncQueueItem.operation q
  /\ SyncQueueItem.data q' = SyncQueueItem.data q
  /\ SyncQueueItem.created_at q' = SyncQueueItem.created_at q.

(** The stamps whose ISO text has a four-digit year, from
    [0000-01-01T00:00:00.000Z] to [9999-12-31T23:59:59.999Z]. [created_at] is
    stored as the text of [toISOString] and [ORDER BY created_at] compares
    the texts; on these stamps the order of the texts is the order of the
    instants, which [order_by_created_at] follows. *)
Definition four_digit_year (t : Z) : Prop :=
  (-62167219200000 <= t < 253402300800000)%Z.

(** A later reading of the clock is greater than an earlier one. *)
Definition clock_advances (env : Env) : Prop :=
  forall m n, m < n -> (clock env m < clock env n)%Z.

(** Entry [a] was created before entry [b]. *)
Definition earlier (a b : SyncQueueItem.t) : Prop :=
  (SyncQueueItem.created_at a < SyncQueueItem.created_at b)%Z.

(** The queue is in the strict order of its [created_at] stamps, which are
    all before the next reading of the clock. *)
Definition queue_in_strict_order (env : Env) (w : World) : Prop :=
  StronglySorted earlier (sync_queue w)
  /\ Forall (fun q => (SyncQueueItem.created_at q < clock env (clock_reads w))%Z)
       (sync_queue w).

Definition strict_order_kept (env : Env) (w w' : World) : Prop :=
  queue_in_strict_order env w -> queue_in_strict_order env w'.

(** * Properties *)

(** ** Computations that return *)

Create HintDb total.


Lemma total_ret {A} (a : A) : total (ret a).
Proof. intro w. now exists a, w. Qed.

Lemma total_bind {A B} (m : M A) (k : A -> M B) :
  total m -> (forall a, total (k a)) -> total (bind m k).
Proof.
  intros Hm Hk w. destruct (Hm w) as (a & w1 & E).
  destruct (Hk a w1) as (b & w2 & E2).
  exists b, w2. unfold bind. now rewrite E.
Qed.

Lemma total_for_of {A S} (body : S -> A -> M S) (xs : list A) :
  (forall s x, total (body s x)) -> forall s, total (for_of xs body s).
Proof.
  intros Hb. induction xs as [|x xs IH]; intro s; simpl.
  - apply total_ret.
  - apply total_bind; auto.
Qed.

Lemma total_map_M {A B} (f : A -> M B) (xs : list A) :
  (forall x, total (f x)) -> total (map_M f xs).
Proof.
  intros Hf. induction xs as [|x xs IH]; simpl.
  - apply total_ret.
  - apply total_bind; auto. intro y.
    apply total_bind; auto. intro ys. apply total_ret.
Qed.

Lemma map_M_length {A B} (f : A -> M B) (xs : list A) w ys w' :
  map_M f xs w = (Returned ys, w') -> List.length ys = List.length xs.
Proof.
  revert w ys w'. induction xs as [|x xs IH]; simpl; intros w ys w' E.
  - inversion E. reflexivity.
  - unfold bind in E. destruct (f x w) as [[y|e] w1]; [|discriminate].
    destruct (map_M f xs w1) as [[ys'|e] w2] eqn:E2; [|discriminate].
    inversion E; subst. simpl. f_equal. eauto.
Qed.

Section Totality.
Variable env : Env.

Lemma total_new_Date : total (new_Date env).
Proof. intro w. unfold new_Date. eauto. Qed.

Lemma total_update_tasks i f : total (update_tasks i f).
Proof. intro w. unfold update_tasks. eauto. Qed.

Lemma total_update_entries i f : total (update_entries i f).
Proof. intro w. unfold update_entries. eauto. Qed.

Lemma total_delete_entries i : total (delete_entries i).
Proof. intro w. unfold delete_entries. eauto. Qed.

Lemma total_getTask i : total (getTask i).
Proof.
  intro w. unfold getTask, bind, get_task_row.
  destruct (select_first (task_has_id i) (tasks w)) as [r|]; simpl.
  - destruct (TaskRow.is_deleted r); unfold ret; eauto.
  - unfold ret; eauto.
Qed.

Lemma total_updateSyncStatus i st d : total (updateSyncStatus env i st d).
Proof.
  unfold updateSyncStatus. apply total_bind.
  - apply total_new_Date.
  - intro. apply total_update_tasks.
Qed.

Lemma total_handleSyncError item e : total (handleSyncError env item e).
Proof.
  unfold handleSyncError. apply total_bind.
  - apply total_update_entries.
  - intro. apply total_updateSyncStatus.
Qed.

#[local] Hint Resolve total_ret total_new_Date total_update_tasks total_update_entries
  total_delete_entries total_getTask total_updateSyncStatus
  total_handleSyncError : total.

Lemma total_reconcile items acc processed :
  total (reconcile env items acc processed).
Proof.
  unfold reconcile.
  destruct (find_item items processed) as [item|]; auto with total.
  destruct (ProcessedItem.status processed =? "success").
  { repeat (apply total_bind; [auto with total | intro]). auto with total. }
  destruct (ProcessedItem.status processed =? "conflict").
  - apply total_bind; [auto with total | intros [l|]].
    + destruct (ProcessedItem.resolved_data processed).
      * repeat (apply total_bind; [auto with total | intro]). auto with total.
      * repeat (apply total_bind; [auto with total | intro]). auto with total.
    + repeat (apply total_bind; [auto with total | intro]). auto with total.
  - repeat (apply total_bind; [auto with total | intro]). auto with total.
Qed.

Lemma batch_failed_result items err w :
  exists errs w',
    batch_failed env items err w
    = (Returned (SyncResult.mk false 0 (List.length items) errs), w')
    /\ List.length errs = List.length items.
Proof.
  unfold batch_failed.
  destruct (total_for_of (fun (_ : unit) item => handleSyncError env item err) items
              (fun _ x => total_handleSyncError x err) tt w) as (u & w1 & E1).
  set (f := fun i : SyncQueueItem.t =>
              ts <- new_Date env ;;
              ret (SyncError.mk (SyncQueueItem.task_id i)
                     (SyncQueueItem.operation i) (or_else err "batch error") ts)).
  assert (Hf : forall x, total (f x)).
  { intro x. unfold f. apply total_bind; auto with total. }
  destruct (total_map_M f items Hf w1) as (errs & w2 & E2).
  exists errs, w2. split.
  - unfold bind. rewrite E1. fold f. rewrite E2. reflexivity.
  - eapply map_M_length; eauto.
Qed.

End Totality.

(** ** Conflict resolution *)

(** C1: given a local snapshot with [updated_at = T1] and a server snapshot
    with [updated_at = T2], [resolveConflict] returns the server snapshot,
    whole, when [T2 > T1], and the local snapshot, whole, otherwise (equal
    timestamps included); it returns the server snapshot only when
    [T2 > T1], unless the two snapshots are the same; the result is never a
    mixture of the two. *)
Theorem resolveConflict_last_write_wins (localTask serverTask : Task.t) :
  ((Task.updated_at serverTask > Task.updated_at localTask)%Z ->
   resolveConflict localTask serverTask = serverTask)
  /\ ((Task.updated_at serverTask <= Task.updated_at localTask)%Z ->
      resolveConflict localTask serverTask = localTask)
  /\ (resolveConflict localTask serverTask = serverTask ->
      (Task.updated_at serverTask > Task.updated_at localTask)%Z
      \/ serverTask = localTask)
  /\ (resolveConflict localTask serverTask = serverTask
      \/ resolveConflict localTask serverTask = localTask).
Proof.
  unfold resolveConflict.
  destruct (Z.gtb_spec (Task.updated_at serverTask) (Task.updated_at localTask))
    as [Hgt|Hle].
  - repeat split; auto; intro; lia.
  - repeat split; auto. intro. lia.
Qed.

Lemma resolveConflict_last_write_wins_witness :
  resolveConflict task_B_local task_B_server = task_B_server
  /\ resolveConflict task_B_server task_B_local = task_B_server
  /\ resolveConflict task_B_local task_B_local = task_B_local.
Proof.
  split; [|split].
  - apply (proj1 (resolveConflict_last_write_wins task_B_local task_B_server)).
    reflexivity.
  - apply (proj1 (proj2 (resolveConflict_last_write_wins task_B_server task_B_local))).
    discriminate.
  - apply (proj1 (proj2 (resolveConflict_last_write_wins task_B_local task_B_local))).
    discriminate.
Defined.

(** ** The connectivity probe *)

Lemma sync_offline_noop_eq (env : Env) (net : Remote) (w : World) :
  health net = false ->
  sync env net w = (Returned (SyncResult.mk false 0 0 []), w).
Proof.
  intro H. unfold sync, bind, checkConnectivity, ret. rewrite H. reflexivity.
Qed.

(** C4: when the connectivity probe fails, [sync] returns
    [{success: false, synced_items: 0, failed_items: 0, errors: []}] and the
    state is the one it started from: no queue entry is added, deleted or
    modified and no task row is touched. *)
Theorem sync_offline_is_noop (env : Env) (net : Remote) (w : World) :
  health net = false ->
  sync env net w = (Returned (SyncResult.mk false 0 0 []), w).
Proof.
  intro Hdown. unfold sync, bind. simpl. rewrite Hdown. reflexivity.
Qed.

Lemma sync_offline_is_noop_witness :
  sync env_plain offline world_two_edits
  = (Returned (SyncResult.mk false 0 0 []), world_two_edits).
Proof.
  apply (sync_offline_is_noop env_plain offline world_two_edits). reflexivity.
Defined.

(** ** The result of a pass *)

Lemma sync_online_result (env : Env) (net : Remote) (w : World) r w' :
  health net = true ->
  sync env net w = (Returned r, w') ->
  SyncResult.success r = true <-> SyncResult.failed_items r = 0.
Proof.
  intro H. unfold sync, bind at 1, checkConnectivity, ret. rewrite H. simpl.
  unfold bind at 1, select_batch.
  set (rawItems := limit _ _).
  destruct (List.length rawItems =? 0)%nat eqn:Elen.
  - intro E. inversion E. simpl. tauto.
  - apply Nat.eqb_neq in Elen.
    unfold try_or_return.
    destruct (processBatch env net (map item_of_row rawItems) w)
      as [[[ps|]|msg] w1].
    + destruct (total_for_of (reconcile env (map item_of_row rawItems)) ps
                  (total_reconcile env (map item_of_row rawItems))
                  (mkTally 0 0 []) w1) as (t & w2 & E).
      unfold bind. rewrite E. intro E'. inversion E'. simpl.
      apply Nat.eqb_eq.
    + discriminate.
    + destruct (batch_failed_result env (map item_of_row rawItems) msg w1)
        as (errs & w2 & E & _).
      rewrite E. intro E'. inversion E'. simpl. rewrite length_map.
      split; [discriminate | intro; contradiction].
Qed.

(** C3 (as the code has it): in every result that [sync] returns, when the
    connectivity probe succeeded [success] is true iff [failed_items = 0],
    and when the probe failed [success] is false although
    [failed_items = 0]. *)
Theorem sync_success_iff_no_failure_when_online (env : Env) (net : Remote)
    (w : World) (r : SyncResult.t) (w' : World) :
  sync env net w = (Returned r, w') ->
  (health net = true ->
   (SyncResult.success r = true <-> SyncResult.failed_items r = 0))
  /\ (health net = false ->
      SyncResult.success r = false /\ SyncResult.failed_items r = 0).
Proof.
  intro E. split; intro H.
  - exact (sync_online_result env net w r w' H E).
  - rewrite (sync_offline_noop_eq env net w H) in E. inversion E.
    split; reflexivity.
Qed.

Lemma sync_success_iff_no_failure_when_online_witness :
  exists r w',
    sync env_plain unreachable_batch world_two_edits = (Returned r, w')
    /\ (SyncResult.success r = true <-> SyncResult.failed_items r = 0).
Proof.
  destruct (sync env_plain unreachable_batch world_two_edits) as [[r|e] w'] eqn:E;
    [|vm_compute in E; discriminate].
  exists r, w'. split; [reflexivity|].
  apply (proj1 (sync_success_iff_no_failure_when_online env_plain
                  unreachable_batch world_two_edits r w' E)).
  reflexivity.
Defined.

(** C3, as stated, fails: a pass aborted by the connectivity probe fails no
    item and still reports [success = false]. *)
Lemma sync_offline_not_success :
  exists r w',
    sync env_plain offline world_two_edits = (Returned r, w')
    /\ SyncResult.failed_items r = 0
    /\ SyncResult.success r <> true.
Proof.
  eexists _, _. split; [reflexivity|]. split; [reflexivity | discriminate].
Qed.

(** ** Relations kept by every step of a computation *)


Section Keeps.
Variable R : World -> World -> Prop.
Hypothesis R_refl : forall w, R w w.
Hypothesis R_trans : forall w1 w2 w3, R w1 w2 -> R w2 w3 -> R w1 w3.

Lemma keeps_ret {A} (a : A) : keeps R (ret a).
Proof. intro w. apply R_refl. Qed.

Lemma keeps_bind {A B} (m : M A) (k : A -> M B) :
  keeps R m -> (forall a, keeps R (k a)) -> keeps R (bind m k).
Proof.
  intros Hm Hk w. unfold bind. specialize (Hm w).
  destruct (m w) as [[a|e] w1]; simpl in *; auto.
  eapply R_trans; [exact Hm | apply Hk].
Qed.

Lemma keeps_for_of {A S} (body : S -> A -> M S) (xs : list A) :
  (forall s x, keeps R (body s x)) -> forall s, keeps R (for_of xs body s).
Proof.
  intro Hb. induction xs as [|x xs IH]; intro s; simpl.
  - apply keeps_ret.
  - apply keeps_bind; auto.
Qed.

Lemma keeps_map_M {A B} (f : A -> M B) (xs : list A) :
  (forall x, keeps R (f x)) -> keeps R (map_M f xs).
Proof.
  intro Hf. induction xs as [|x xs IH]; simpl.
  - apply keeps_ret.
  - apply keeps_bind; [apply Hf|]. intro y.
    apply keeps_bind; [exact IH|]. intro ys. apply keeps_ret.
Qed.

Lemma keeps_try_or_return {A B} (m : M A) (h : string -> M B) (k : A -> M B) :
  keeps R m -> (forall e, keeps R (h e)) -> (forall a, keeps R (k a)) ->
  keeps R (try_or_return m h k).
Proof.
  intros Hm Hh Hk w. unfold try_or_return. specialize (Hm w).
  destruct (m w) as [[a|e] w1]; simpl in *.
  - eapply R_trans; [exact Hm | apply Hk].
  - eapply R_trans; [exact Hm | apply Hh].
Qed.

(** What is left to show for the services: that each statement run on the
    database, and each reading of the clock or of the uuid source, keeps
    [R]. *)
Variable env : Env.
Hypothesis R_new_Date : keeps R (new_Date env).
Hypothesis R_uuidv4 : keeps R (uuidv4 env).
Hypothesis R_insert_task : forall r, keeps R (insert_task env r).
Hypothesis R_insert_entry :
  forall i op d now, keeps R (insert_entry env (SyncQueueItem.mk i i op d now 0 None)).
Hypothesis R_write_status :
  forall i st now srv, keeps R (update_tasks i (write_status st now srv)).
Hypothesis R_write_retry :
  forall i e, keeps R (update_entries i (write_retry e)).
Hypothesis R_delete_entries : forall i, keeps R (delete_entries i).

Lemma keeps_addToSyncQueue i op d : keeps R (addToSyncQueue env i op d).
Proof.
  unfold addToSyncQueue. apply keeps_bind; auto.
Qed.

Lemma keeps_createTask taskData : keeps R (createTask env taskData).
Proof.
  unfold createTask.
  apply keeps_bind; [auto|]. intro now.
  apply keeps_bind; [auto|]. intro new_id.
  apply keeps_bind; [auto|]. intros _.
  apply keeps_bind; [apply keeps_addToSyncQueue|]. intros _. apply keeps_ret.
Qed.

Lemma keeps_get_task_row i : keeps R (get_task_row i).
Proof. intro w. apply R_refl. Qed.

Lemma keeps_getTask i : keeps R (getTask i).
Proof.
  unfold getTask. apply keeps_bind; [apply keeps_get_task_row|].
  intros [r|]; [|apply keeps_ret].
  destruct (Task.is_deleted (rowToTask r)); apply keeps_ret.
Qed.

Lemma keeps_updateSyncStatus i st d : keeps R (updateSyncStatus env i st d).
Proof. unfold updateSyncStatus. apply keeps_bind; auto. Qed.

Lemma keeps_handleSyncError item e : keeps R (handleSyncError env item e).
Proof.
  unfold handleSyncError. apply keeps_bind; auto.
  intros _. apply keeps_updateSyncStatus.
Qed.

Lemma keeps_processBatch net items : keeps R (processBatch env net items).
Proof.
  unfold processBatch. apply keeps_bind; [auto|]. intro ts.
  destruct (post_batch net items ts);
    [intro w; apply R_refl | apply keeps_ret | apply keeps_ret].
Qed.

Lemma keeps_batch_failed items err : keeps R (batch_failed env items err).
Proof.
  unfold batch_failed. apply keeps_bind.
  - apply keeps_for_of. intros _ x. apply keeps_handleSyncError.
  - intros _. apply keeps_bind; [|intro; apply keeps_ret].
    apply keeps_map_M. intro x. apply keeps_bind; [auto|]. intro. apply keeps_ret.
Qed.

(** The conflict write-back is the one statement of [sync] whose effect
    depends on the rows read before it; it is taken as a hypothesis on the
    loop body. *)
Hypothesis R_write_back :
  forall i l resolved srv w,
    fst (getTask i w) = Returned (Some l) ->
    R w (snd (update_tasks (Task.id l)
                (write_winner (resolveConflict l resolved) srv) w)).

Lemma keeps_reconcile items acc processed :
  keeps R (reconcile env items acc processed).
Proof.
  unfold reconcile.
  destruct (find_item items processed) as [item|]; [|apply keeps_ret].
  destruct (ProcessedItem.status processed =? "success").
  { apply keeps_bind; [apply keeps_updateSyncStatus|]. intros _.
    apply keeps_bind; [auto|]. intros _. apply keeps_ret. }
  destruct (ProcessedItem.status processed =? "conflict").
  - intro w. unfold bind at 1.
    destruct (getTask (SyncQueueItem.task_id item) w) as [[local|e] w1] eqn:E;
      [|simpl; pose proof (keeps_getTask (SyncQueueItem.task_id item) w) as K;
        rewrite E in K; exact K].
    assert (w1 = w) as ->.
    { unfold getTask, bind, get_task_row, ret in E.
      destruct (select_first _ _) as [r|]; [destruct (Task.is_deleted _)|];
        inversion E; reflexivity. }
    destruct local as [l|].
    + destruct (ProcessedItem.resolved_data processed) as [resolved|].
      * unfold bind at 1.
        pose proof (R_write_back (SyncQueueItem.task_id item) l resolved
                      (ProcessedItem.server_id processed) w) as K.
        rewrite E in K. specialize (K eq_refl).
        destruct (update_tasks _ _ w) as [[u|e] w2]; simpl in K |- *; auto.
        eapply R_trans; [exact K|].
        apply (keeps_bind (delete_entries (SyncQueueItem.id item))
                 (fun _ => ret (count_synced acc)));
          [auto | intros _; apply keeps_ret].
      * apply keeps_bind; [apply keeps_handleSyncError|]. intros _.
        apply keeps_bind; [auto|]. intro. apply keeps_ret.
    + apply keeps_bind; [apply keeps_handleSyncError|]. intros _.
      apply keeps_bind; [auto|]. intro. apply keeps_ret.
  - apply keeps_bind; [apply keeps_handleSyncError|]. intros _.
    apply keeps_bind; [auto|]. intro. apply keeps_ret.
Qed.

Lemma keeps_sync net : keeps R (sync env net).
Proof.
  unfold sync. apply keeps_bind; [intro w; apply R_refl|]. intro online.
  destruct (negb online); [apply keeps_ret|].
  apply keeps_bind; [intro w; apply R_refl|]. intro rawItems.
  destruct (List.length rawItems =? 0)%nat; [apply keeps_ret|].
  apply keeps_try_or_return.
  - apply keeps_processBatch.
  - apply keeps_batch_failed.
  - intros [ps|]; [|intro w; apply R_refl].
    apply keeps_bind; [|intro; apply keeps_ret].
    apply keeps_for_of. intros s x. apply keeps_reconcile.
Qed.

Hypothesis R_write_update :
  forall i updated, keeps R (update_tasks i (write_update updated)).
Hypothesis R_write_delete :
  forall i now, keeps R (update_tasks i (write_delete now)).

Lemma keeps_updateTask i updates : keeps R (updateTask env i updates).
Proof.
  unfold updateTask. apply keeps_bind; [apply keeps_get_task_row|].
  intros [row|]; [|apply keeps_ret].
  apply keeps_bind; [auto|]. intro now.
  apply keeps_bind; [auto|]. intros _.
  apply keeps_bind; [apply keeps_addToSyncQueue|]. intros _. apply keeps_ret.
Qed.

Lemma keeps_deleteTask i : keeps R (deleteTask env i).
Proof.
  unfold deleteTask. apply keeps_bind; [apply keeps_get_task_row|].
  intros [row|]; [|apply keeps_ret].
  apply keeps_bind; [auto|]. intro now.
  apply keeps_bind; [auto|]. intros _.
  apply keeps_bind; [apply keeps_addToSyncQueue|]. intros _. apply keeps_ret.
Qed.

End Keeps.

(** ** Tables *)

Lemma select_first_update_where {R} (q p : R -> bool) (f : R -> R) (l : list R) :
  (forall r, q (f r) = q r) ->
  select_first q (update_where p f l)
  = option_map (fun r => if p r then f r else r) (select_first q l).
Proof.
  intro Hq. unfold select_first, update_where.
  induction l as [|a l IH]; simpl; [reflexivity|].
  destruct (p a) eqn:Pa; [rewrite Hq|]; destruct (q a); simpl; rewrite ?Pa; auto.
Qed.

Lemma select_first_app {R} (q : R -> bool) (l l' : list R) (r : R) :
  select_first q l = Some r -> select_first q (l ++ l') = Some r.
Proof.
  unfold select_first. induction l as [|a l IH]; simpl; [discriminate|].
  destruct (q a); auto.
Qed.

Lemma select_first_has_id i l r :
  select_first (task_has_id i) l = Some r -> TaskRow.id r = i.
Proof.
  intro H. apply find_some in H. destruct H as [_ H].
  now apply String.eqb_eq in H.
Qed.

(** ** The queue entry's id *)

Section QueueIds.
Variable env : Env.


Lemma ids_same_queue {A} (m : M A) :
  (forall w, sync_queue (snd (m w)) = sync_queue w) -> keeps ids_kept m.
Proof. intros H w. unfold ids_kept, queue_ids_are_task_ids. now rewrite H. Qed.

Lemma ids_insert_entry i op d now :
  keeps ids_kept (insert_entry env (SyncQueueItem.mk i i op d now 0 None)).
Proof.
  intros w Hw. unfold insert_entry.
  destruct (_ && _); simpl; [exact Hw|].
  apply Forall_app. split; [exact Hw|]. constructor; [reflexivity | constructor].
Qed.

Lemma ids_write_retry i e : keeps ids_kept (update_entries i (write_retry e)).
Proof.
  intros w Hw. unfold update_entries, queue_ids_are_task_ids, update_where. simpl.
  apply Forall_map. eapply Forall_impl; [|exact Hw].
  intros q Hq. destruct (entry_has_id i q); exact Hq.
Qed.

Lemma ids_delete_entries i : keeps ids_kept (delete_entries i).
Proof.
  intros w Hw. unfold delete_entries, queue_ids_are_task_ids, delete_where. simpl.
  apply Forall_forall. intros q Hq. apply filter_In in Hq.
  unfold queue_ids_are_task_ids in Hw. rewrite Forall_forall in Hw.
  apply Hw, Hq.
Qed.

Lemma ids_after c : forall w, ids_kept w (after env c w).
Proof.
  assert (Hrefl : forall w, ids_kept w w) by (intros w H; exact H).
  assert (Htrans : forall w1 w2 w3, ids_kept w1 w2 -> ids_kept w2 w3 -> ids_kept w1 w3)
    by (unfold ids_kept; auto).
  assert (Hupd : forall i f, keeps ids_kept (update_tasks i f))
    by (intros; apply ids_same_queue; reflexivity).
  assert (Hdate : keeps ids_kept (new_Date env))
    by (apply ids_same_queue; reflexivity).
  assert (Huuid : keeps ids_kept (uuidv4 env))
    by (apply ids_same_queue; reflexivity).
  assert (Hins : forall r, keeps ids_kept (insert_task env r)).
  { intro r. apply ids_same_queue. intro w. unfold insert_task.
    destruct (_ && _); reflexivity. }
  destruct c as [taskData | i updates | i | net]; simpl.
  - apply (keeps_createTask ids_kept Hrefl Htrans env); auto using ids_insert_entry.
  - apply (keeps_updateTask ids_kept Hrefl Htrans env); auto using ids_insert_entry.
  - apply (keeps_deleteTask ids_kept Hrefl Htrans env); auto using ids_insert_entry.
  - apply (keeps_sync ids_kept Hrefl Htrans env);
      auto using ids_write_retry, ids_delete_entries.
    intros. apply Hupd.
Qed.

End QueueIds.

(** C10: every queue entry has its own [id] equal to its [task_id]:
    [addToSyncQueue] appends an entry with the task's id in both columns, and
    no call on the services breaks the equality, so the identity on which
    [sync] matches the verdicts is the identity of the task. *)
Theorem queue_entry_id_is_task_id (env : Env) :
  (forall taskId op d w w',
      addToSyncQueue env taskId op d w = (Returned tt, w') ->
      exists q,
        sync_queue w' = sync_queue w ++ [q]
        /\ SyncQueueItem.id q = taskId /\ SyncQueueItem.task_id q = taskId)
  /\ (forall cs w,
         queue_ids_are_task_ids w -> queue_ids_are_task_ids (run env cs w)).
Proof.
  split.
  - intros taskId op d w w' E.
    unfold addToSyncQueue, bind, new_Date, insert_entry in E. simpl in E.
    destruct (_ && _); [discriminate|].
    inversion E; subst. simpl. eexists. repeat split.
  - intros cs. unfold run. induction cs as [|c cs IH]; simpl; intros w Hw.
    + exact Hw.
    + apply IH. revert Hw. apply ids_after.
Qed.

Lemma queue_entry_id_is_task_id_witness :
  queue_ids_are_task_ids
    (run env_plain
       [CallCreate buy_milk; CallUpdate "A" mark_done; CallSync unreachable_batch;
        CallDelete "A"]
       empty_world).
Proof.
  apply (proj2 (queue_entry_id_is_task_id env_plain)). constructor.
Defined.

(** ** [updated_at] over time *)

Lemma never_earlier_refl w : never_earlier w w.
Proof. intros i r H. exists r. split; [exact H | lia]. Qed.

Lemma never_earlier_trans w1 w2 w3 :
  never_earlier w1 w2 -> never_earlier w2 w3 -> never_earlier w1 w3.
Proof.
  intros H12 H23 i r H.
  destruct (H12 i r H) as (r2 & E2 & L2).
  destruct (H23 i r2 E2) as (r3 & E3 & L3).
  exists r3. split; [exact E3 | lia].
Qed.

Lemma never_earlier_same_tasks w w' : tasks w' = tasks w -> never_earlier w w'.
Proof. intros E i r H. exists r. rewrite E. split; [exact H | lia]. Qed.

Lemma never_earlier_update i f w :
  (forall r, TaskRow.id (f r) = TaskRow.id r) ->
  (forall r, select_first (task_has_id i) (tasks w) = Some r ->
             (TaskRow.updated_at r <= TaskRow.updated_at (f r))%Z) ->
  never_earlier w (set_tasks (update_where (task_has_id i) f (tasks w)) w).
Proof.
  intros Hid Hle j r Hj. simpl.
  rewrite select_first_update_where
    by (intro r0; unfold task_has_id; now rewrite Hid).
  rewrite Hj. simpl. eexists. split; [reflexivity|].
  destruct (task_has_id i r) eqn:E; [|lia].
  apply String.eqb_eq in E. pose proof (select_first_has_id _ _ _ Hj) as Hj'.
  apply Hle. rewrite <- E, Hj'. exact Hj.
Qed.

Lemma resolveConflict_not_earlier l s :
  (Task.updated_at l <= Task.updated_at (resolveConflict l s))%Z.
Proof.
  unfold resolveConflict.
  destruct (Z.gtb_spec (Task.updated_at s) (Task.updated_at l)); lia.
Qed.

Lemma getTask_found i w l :
  fst (getTask i w) = Returned (Some l) ->
  exists r,
    select_first (task_has_id i) (tasks w) = Some r
    /\ TaskRow.is_deleted r = false /\ l = rowToTask r.
Proof.
  unfold getTask, bind, get_task_row, ret. simpl.
  destruct (select_first (task_has_id i) (tasks w)) as [r|]; simpl; [|discriminate].
  destruct (TaskRow.is_deleted r) eqn:D; simpl; [discriminate|].
  intro E. inversion E. eauto.
Qed.

Lemma tasks_after_addToSyncQueue env i op d w :
  tasks (snd (addToSyncQueue env i op d w)) = tasks w.
Proof.
  unfold addToSyncQueue, bind, new_Date, insert_entry. simpl.
  destruct (_ && _); reflexivity.
Qed.

Lemma tasks_after_updateTask env i updates w :
  tasks (snd (updateTask env i updates w))
  = match select_first (task_has_id i) (tasks w) with
    | None => tasks w
    | Some row =>
        update_where (task_has_id i)
          (write_update (spread (rowToTask row) updates (clock env (clock_reads w))))
          (tasks w)
    end.
Proof.
  unfold updateTask, bind at 1, get_task_row. simpl.
  destruct (select_first (task_has_id i) (tasks w)) as [row|]; [|reflexivity].
  unfold bind at 1, new_Date. simpl.
  unfold bind at 1, update_tasks. simpl.
  unfold bind at 1.
  match goal with
  | |- context [addToSyncQueue env i ?op ?d ?w0] =>
      pose proof (tasks_after_addToSyncQueue env i op d w0) as T;
      destruct (addToSyncQueue env i op d w0) as [[u|e] w2]
  end; simpl in *; exact T.
Qed.

Lemma tasks_after_deleteTask env i w :
  tasks (snd (deleteTask env i w))
  = match select_first (task_has_id i) (tasks w) with
    | None => tasks w
    | Some row =>
        update_where (task_has_id i) (write_delete (clock env (clock_reads w)))
          (tasks w)
    end.
Proof.
  unfold deleteTask, bind at 1, get_task_row. simpl.
  destruct (select_first (task_has_id i) (tasks w)) as [row|]; [|reflexivity].
  unfold bind at 1, new_Date. simpl.
  unfold bind at 1, update_tasks. simpl.
  unfold bind at 1.
  match goal with
  | |- context [addToSyncQueue env i ?op ?d ?w0] =>
      pose proof (tasks_after_addToSyncQueue env i op d w0) as T;
      destruct (addToSyncQueue env i op d w0) as [[u|e] w2]
  end; simpl in *; exact T.
Qed.

Section UpdatedAt.
Variable env : Env.

Lemma earlier_same_tasks {A} (m : M A) :
  (forall w, tasks (snd (m w)) = tasks w) -> keeps never_earlier m.
Proof. intros H w. apply never_earlier_same_tasks, H. Qed.

Lemma earlier_insert_task r : keeps never_earlier (insert_task env r).
Proof.
  intros w. unfold insert_task.
  destruct (_ && _); simpl; [apply never_earlier_refl|].
  intros i r0 H. exists r0. split; [|lia]. simpl.
  now apply select_first_app.
Qed.

Lemma earlier_insert_entry q : keeps never_earlier (insert_entry env q).
Proof.
  apply earlier_same_tasks. intro w. unfold insert_entry.
  destruct (_ && _); reflexivity.
Qed.

Lemma earlier_write_status i st now srv :
  keeps never_earlier (update_tasks i (write_status st now srv)).
Proof.
  intro w. unfold update_tasks. simpl.
  apply never_earlier_update; intros; simpl; [reflexivity | lia].
Qed.

Lemma earlier_write_back i l resolved srv w :
  fst (getTask i w) = Returned (Some l) ->
  never_earlier w
    (snd (update_tasks (Task.id l)
            (write_winner (resolveConflict l resolved) srv) w)).
Proof.
  intro H. apply getTask_found in H. destruct H as (r0 & E0 & _ & ->).
  unfold update_tasks. simpl.
  apply never_earlier_update; [reflexivity|].
  intros r Hr. simpl.
  apply select_first_has_id in E0 as Hid. rewrite Hid in Hr.
  rewrite E0 in Hr. inversion Hr; subst r.
  apply (resolveConflict_not_earlier (rowToTask r0) resolved).
Qed.

Lemma earlier_createTask taskData : keeps never_earlier (createTask env taskData).
Proof.
  apply (keeps_createTask never_earlier never_earlier_refl never_earlier_trans env).
  - apply earlier_same_tasks; reflexivity.
  - apply earlier_same_tasks; reflexivity.
  - apply earlier_insert_task.
  - intros. apply earlier_insert_entry.
Qed.

Lemma earlier_sync net : keeps never_earlier (sync env net).
Proof.
  apply (keeps_sync never_earlier never_earlier_refl never_earlier_trans env).
  - apply earlier_same_tasks; reflexivity.
  - apply earlier_write_status.
  - intros. apply earlier_same_tasks; reflexivity.
  - intros. apply earlier_same_tasks; reflexivity.
  - apply earlier_write_back.
Qed.

End UpdatedAt.

(** C9 (as the code has it): the conflict write-back, and every other write
    of [sync], never stores an [updated_at] earlier than the one persisted,
    and [createTask] leaves the rows already stored as they are; [updateTask]
    and [deleteTask] store the reading of the clock without comparing it
    with the stored value, so across them [updated_at] does not decrease
    when the clock is not behind the stored value. *)
Theorem updated_at_never_earlier (env : Env) (c : Call) (w : World) :
  (clock_not_behind env c w -> never_earlier w (after env c w))
  /\ (forall i r,
         rewritten_by c = Some i ->
         select_first (task_has_id i) (tasks w) = Some r ->
         exists r',
           select_first (task_has_id i) (tasks (after env c w)) = Some r'
           /\ TaskRow.updated_at r' = clock env (clock_reads w)).
Proof.
  split.
  - intro Hclock. destruct c as [taskData | i updates | i | net]; simpl.
    + apply earlier_createTask.
    + intros j r Hj. rewrite tasks_after_updateTask.
      destruct (select_first (task_has_id i) (tasks w)) as [row|] eqn:E.
      * apply (never_earlier_update i _ w); auto.
        intros r0 H0. simpl. apply (Hclock i r0 eq_refl H0).
      * exists r. split; [exact Hj | lia].
    + intros j r Hj. rewrite tasks_after_deleteTask.
      destruct (select_first (task_has_id i) (tasks w)) as [row|] eqn:E.
      * apply (never_earlier_update i _ w); auto.
        intros r0 H0. simpl. apply (Hclock i r0 eq_refl H0).
      * exists r. split; [exact Hj | lia].
    + apply earlier_sync.
  - intros i r Hc Hr. destruct c as [taskData | j updates | j | net];
      simpl in Hc; inversion Hc; subst j; simpl.
    + rewrite tasks_after_updateTask, Hr.
      rewrite select_first_update_where by reflexivity.
      rewrite Hr. simpl. eexists. split; [reflexivity|].
      apply select_first_has_id in Hr. unfold task_has_id.
      rewrite Hr, String.eqb_refl. reflexivity.
    + rewrite tasks_after_deleteTask, Hr.
      rewrite select_first_update_where by reflexivity.
      rewrite Hr. simpl. eexists. split; [reflexivity|].
      apply select_first_has_id in Hr. unfold task_has_id.
      rewrite Hr, String.eqb_refl. reflexivity.
Qed.

Lemma updated_at_never_earlier_witness :
  never_earlier world_two_edits
    (after env_plain (CallUpdate "A" buy_milk) world_two_edits).
Proof.
  apply (proj1 (updated_at_never_earlier env_plain (CallUpdate "A" buy_milk)
                  world_two_edits)).
  intros i r Hi Hr. simpl in Hi. inversion Hi; subst i.
  vm_compute in Hr. inversion Hr; subst r. vm_compute. discriminate.
Defined.

(** C9, as stated, fails: once a conflict has been resolved to a server
    version stamped later than the local clock, the next [updateTask] stores
    the clock's reading, which is earlier than the persisted [updated_at]. *)
Lemma updated_at_goes_back :
  exists r r',
    select_first (task_has_id "A") (tasks world_server_ahead) = Some r
    /\ select_first (task_has_id "A")
         (tasks (after env_plain (CallUpdate "A" buy_milk) world_server_ahead))
       = Some r'
    /\ (TaskRow.updated_at r' < TaskRow.updated_at r)%Z.
Proof.
  eexists _, _. split; [vm_compute; reflexivity|].
  split; [vm_compute; reflexivity|]. vm_compute. reflexivity.
Qed.

(** ** Verdicts *)

Lemma Forall2_update_where {R} (P : R -> R -> Prop) (p : R -> bool) (f : R -> R)
    (l : list R) :
  (forall r, P r (if p r then f r else r)) -> Forall2 P l (update_where p f l).
Proof.
  intro H. unfold update_where. induction l; simpl; constructor; auto.
Qed.

Lemma In_delete_where {R} (p : R -> bool) (l : list R) (r : R) :
  In r (delete_where p l) <-> In r l /\ p r = false.
Proof.
  unfold delete_where. rewrite filter_In, negb_true_iff. reflexivity.
Qed.

(** One turn of the verdict loop on a verdict with status ['success'] for a
    submitted entry: [sync]
    marks the owning task [synced], sets [last_synced_at], takes the
    verdict's [server_id] when there is one and otherwise keeps the stored
    one (a stored [server_id] is never replaced by null), deletes the queue
    entry and counts the item as synced. *)
Theorem reconcile_success (env : Env) (items : list SyncQueueItem.t) (acc : Tally)
    (processed : ProcessedItem.t) (item : SyncQueueItem.t) (w : World) :
  find_item items processed = Some item ->
  ProcessedItem.status processed = "success" ->
  exists acc' w',
    reconcile env items acc processed w = (Returned acc', w')
    /\ (forall r,
           select_first (task_has_id (SyncQueueItem.task_id item)) (tasks w) = Some r ->
           exists r',
             select_first (task_has_id (SyncQueueItem.task_id item)) (tasks w') = Some r'
             /\ TaskRow.sync_status r' = SyncStatus.synced
             /\ TaskRow.last_synced_at r' = Some (clock env (clock_reads w))
             /\ (forall s, ProcessedItem.server_id processed = Some s ->
                           TaskRow.server_id r' = Some s)
             /\ (ProcessedItem.server_id processed = None ->
                 TaskRow.server_id r' = TaskRow.server_id r)
             /\ (TaskRow.server_id r <> None -> TaskRow.server_id r' <> None))
    /\ (forall q, In q (sync_queue w') <->
                  In q (sync_queue w) /\ SyncQueueItem.id q <> SyncQueueItem.id item)
    /\ synced acc' = synced acc + 1
    /\ failed acc' = failed acc
    /\ errors acc' = errors acc.
Proof.
  intros Hfind Hst. unfold reconcile. rewrite Hfind, Hst. simpl.
  eexists _, _. split; [reflexivity|]. simpl. repeat split.
  - intros r Hr.
    rewrite select_first_update_where by reflexivity. rewrite Hr. simpl.
    eexists. split; [reflexivity|].
    apply select_first_has_id in Hr. unfold task_has_id.
    rewrite Hr, String.eqb_refl. simpl.
    destruct (ProcessedItem.server_id processed) as [s|]; simpl;
      repeat split; try congruence.
  - apply In_delete_where in H. tauto.
  - apply In_delete_where in H. destruct H as [_ H].
    unfold entry_has_id in H. now apply String.eqb_neq in H.
  - intros [Hin Hne]. apply In_delete_where. split; [exact Hin|].
    unfold entry_has_id. now apply String.eqb_neq.
Qed.

Lemma reconcile_success_witness :
  exists acc' w',
    reconcile env_plain (sync_queue world_one_task) (mkTally 0 0 [])
      verdict_accepted world_one_task = (Returned acc', w')
    /\ synced acc' = 1
    /\ (forall q, In q (sync_queue w') -> SyncQueueItem.id q <> "A").
Proof.
  destruct (reconcile_success env_plain (sync_queue world_one_task) (mkTally 0 0 [])
              verdict_accepted
              (SyncQueueItem.mk "A" "A" Operation.create
                 (snapshot "A" "buy milk" (Some "") false 100 100 false None)
                 110 0 None)
              world_one_task eq_refl eq_refl)
    as (acc' & w' & E & _ & Hq & Hs & _).
  exists acc', w'. split; [exact E|]. split; [exact Hs|].
  intros q Hin. apply Hq in Hin. exact (proj2 Hin).
Defined.

Lemma getTask_none i w :
  no_local_task i w -> getTask i w = (Returned None, w).
Proof.
  unfold getTask, bind, get_task_row, ret.
  intros [H | (r & H & D)]; rewrite H; simpl; [reflexivity|].
  now rewrite D.
Qed.

Lemma getTask_reads i w : exists x, getTask i w = (Returned x, w).
Proof.
  unfold getTask, bind, get_task_row, ret.
  destruct (select_first (task_has_id i) (tasks w)) as [r|]; simpl;
    [destruct (TaskRow.is_deleted r)|]; eexists; reflexivity.
Qed.

Lemma handleSyncError_effect env item message w :
  handleSyncError env item message w
  = (Returned tt,
     mkWorld
       (update_where (task_has_id (SyncQueueItem.task_id item))
          (write_status SyncStatus.error (clock env (clock_reads w)) None) (tasks w))
       (update_where (entry_has_id (SyncQueueItem.id item)) (write_retry message)
          (sync_queue w))
       (S (clock_reads w)) (uuid_draws w)).
Proof. reflexivity. Qed.

Lemma retried_write_retry i message q :
  retried i message q (if entry_has_id i q then write_retry message q else q).
Proof.
  unfold retried. destruct (entry_has_id i q); simpl; [|reflexivity].
  repeat split.
Qed.

(** One turn of the verdict loop on a verdict with status ['conflict'] for
    a submitted entry: when
    the local task is gone (no row, or a soft-deleted one) or the verdict
    carries no resolved snapshot, [sync] treats the item as failed: the
    entry stays in the queue with [retry_count] one higher and
    [error_message] set, the task's [sync_status] becomes ['error'], and the
    pass counts one more failed item and one more error record. *)
Theorem reconcile_conflict_unresolved (env : Env) (items : list SyncQueueItem.t)
    (acc : Tally) (processed : ProcessedItem.t) (item : SyncQueueItem.t) (w : World) :
  find_item items processed = Some item ->
  ProcessedItem.status processed = "conflict" ->
  no_local_task (SyncQueueItem.task_id item) w
  \/ ProcessedItem.resolved_data processed = None ->
  exists acc' w' ts,
    reconcile env items acc processed w = (Returned acc', w')
    /\ Forall2 (retried (SyncQueueItem.id item) "Conflict unresolved")
         (sync_queue w) (sync_queue w')
    /\ (forall r,
           select_first (task_has_id (SyncQueueItem.task_id item)) (tasks w) = Some r ->
           exists r',
             select_first (task_has_id (SyncQueueItem.task_id item)) (tasks w') = Some r'
             /\ TaskRow.sync_status r' = SyncStatus.error)
    /\ synced acc' = synced acc
    /\ failed acc' = failed acc + 1
    /\ errors acc'
       = errors acc ++ [SyncError.mk (SyncQueueItem.task_id item)
                          (SyncQueueItem.operation item) "Conflict unresolved" ts].
Proof.
  intros Hfind Hst Hno.
  assert (E : reconcile env items acc processed w
              = (handleSyncError env item "Conflict unresolved" ;;;
                 ts <- new_Date env ;;
                 ret (count_failed item "Conflict unresolved" ts acc)) w).
  { unfold reconcile. rewrite Hfind, Hst. simpl. unfold bind at 1.
    destruct Hno as [Hno | Hno].
    - rewrite (getTask_none _ _ Hno). reflexivity.
    - rewrite Hno.
      destruct (getTask_reads (SyncQueueItem.task_id item) w) as [[l|] ->];
        reflexivity. }
  rewrite E. unfold bind at 1. rewrite handleSyncError_effect.
  eexists _, _, _. split; [reflexivity|]. simpl. repeat split.
  - apply Forall2_update_where. intro q. apply retried_write_retry.
  - intros r Hr.
    rewrite select_first_update_where by reflexivity. rewrite Hr. simpl.
    eexists. split; [reflexivity|].
    apply select_first_has_id in Hr. unfold task_has_id.
    rewrite Hr, String.eqb_refl. reflexivity.
Qed.

Lemma reconcile_conflict_unresolved_witness :
  exists acc' w',
    reconcile env_plain (sync_queue world_one_task) (mkTally 0 0 [])
      verdict_conflict_no_data world_one_task = (Returned acc', w')
    /\ failed acc' = 1
    /\ Forall2 (retried "A" "Conflict unresolved")
         (sync_queue world_one_task) (sync_queue w').
Proof.
  destruct (reconcile_conflict_unresolved env_plain (sync_queue world_one_task)
              (mkTally 0 0 []) verdict_conflict_no_data
              (SyncQueueItem.mk "A" "A" Operation.create
                 (snapshot "A" "buy milk" (Some "") false 100 100 false None)
                 110 0 None)
              world_one_task eq_refl eq_refl (or_intror eq_refl))
    as (acc' & w' & ts & E & Hq & _ & _ & Hf & _).
  exists acc', w'. split; [exact E|]. split; [exact Hf | exact Hq].
Defined.

(** ** Mutations of the task store *)

Lemma addToSyncQueue_returned env i op d w w' :
  addToSyncQueue env i op d w = (Returned tt, w') ->
  tasks w' = tasks w
  /\ sync_queue w'
     = sync_queue w ++ [SyncQueueItem.mk i i op d (clock env (clock_reads w)) 0 None].
Proof.
  unfold addToSyncQueue, bind, new_Date, insert_entry. simpl.
  destruct (_ && _); [discriminate|]. intro E. inversion E. split; reflexivity.
Qed.

(** C7: every [createTask], [updateTask] and [deleteTask] that succeeds
    persists the new row state, sets the task's [sync_status] to ['pending']
    and appends exactly one queue entry, with [retry_count = 0], describing
    the change; [updateTask] on an id that is not stored returns null and
    [deleteTask] returns false, and neither enqueues anything. *)
Theorem mutations_persist_and_enqueue (env : Env) :
  (forall taskData w task w',
      createTask env taskData w = (Returned task, w') ->
      exists row q,
        tasks w' = tasks w ++ [row]
        /\ rowToTask row = task
        /\ TaskRow.sync_status row = SyncStatus.pending
        /\ sync_queue w' = sync_queue w ++ [q]
        /\ SyncQueueItem.task_id q = Task.id task
        /\ SyncQueueItem.operation q = Operation.create
        /\ SyncQueueItem.retry_count q = 0
        /\ SyncQueueItem.data q
           = snapshot (Task.id task) (Task.title task) (Task.description task)
               (Task.completed task) (Task.updated_at task) (Task.created_at task)
               (Task.is_deleted task) (Task.server_id task))
  /\ (forall i updates w updated w',
         updateTask env i updates w = (Returned (Some updated), w') ->
         exists row q,
           select_first (task_has_id i) (tasks w') = Some row
           /\ TaskRow.title row = Task.title updated
           /\ TaskRow.description row = Task.description updated
           /\ TaskRow.completed row = Task.completed updated
           /\ TaskRow.is_deleted row = Task.is_deleted updated
           /\ TaskRow.updated_at row = Task.updated_at updated
           /\ TaskRow.server_id row = Task.server_id updated
           /\ TaskRow.sync_status row = SyncStatus.pending
           /\ sync_queue w' = sync_queue w ++ [q]
           /\ SyncQueueItem.task_id q = i
           /\ SyncQueueItem.operation q = Operation.update
           /\ SyncQueueItem.retry_count q = 0
           /\ SyncQueueItem.data q
              = snapshot (Task.id updated) (Task.title updated)
                  (Task.description updated) (Task.completed updated)
                  (Task.updated_at updated) (Task.created_at updated)
                  (Task.is_deleted updated) (Task.server_id updated))
  /\ (forall i w w',
         deleteTask env i w = (Returned true, w') ->
         exists row q,
           select_first (task_has_id i) (tasks w') = Some row
           /\ TaskRow.is_deleted row = true
           /\ TaskRow.updated_at row = clock env (clock_reads w)
           /\ TaskRow.sync_status row = SyncStatus.pending
           /\ sync_queue w' = sync_queue w ++ [q]
           /\ SyncQueueItem.task_id q = i
           /\ SyncQueueItem.operation q = Operation.delete
           /\ SyncQueueItem.retry_count q = 0
           /\ PartialTask.is_deleted (SyncQueueItem.data q) = Some true)
  /\ (forall i updates w,
         select_first (task_has_id i) (tasks w) = None ->
         updateTask env i updates w = (Returned None, w))
  /\ (forall i w,
         select_first (task_has_id i) (tasks w) = None ->
         deleteTask env i w = (Returned false, w)).
Proof.
  repeat split.
  - intros taskData w task w'.
    unfold createTask, bind at 1, new_Date. simpl.
    unfold bind at 1, uuidv4. simpl.
    unfold bind at 1, insert_task. simpl.
    destruct (_ && _); [discriminate|]. simpl.
    unfold bind at 1.
    match goal with
    | |- context [addToSyncQueue env ?i ?op ?d ?w0] =>
        destruct (addToSyncQueue env i op d w0) as [[[]|e] w2] eqn:Q
    end; [|discriminate].
    apply addToSyncQueue_returned in Q. destruct Q as [Qt Qq]. simpl in Qt, Qq.
    unfold ret. intro E. inversion E; subst.
    eexists _, _. rewrite Qt, Qq. repeat split.
  - intros i updates w updated w'.
    unfold updateTask, bind at 1, get_task_row. simpl.
    destruct (select_first (task_has_id i) (tasks w)) as [row0|] eqn:F;
      [|discriminate].
    unfold bind at 1, new_Date. simpl.
    unfold bind at 1, update_tasks. simpl.
    unfold bind at 1.
    match goal with
    | |- context [addToSyncQueue env ?i ?op ?d ?w0] =>
        destruct (addToSyncQueue env i op d w0) as [[[]|e] w2] eqn:Q
    end; [|discriminate].
    apply addToSyncQueue_returned in Q. destruct Q as [Qt Qq]. simpl in Qt, Qq.
    unfold ret. intro E. inversion E; subst.
    rewrite Qt, Qq.
    rewrite select_first_update_where by reflexivity. rewrite F. simpl.
    apply select_first_has_id in F. unfold task_has_id.
    rewrite F, String.eqb_refl.
    eexists _, _. repeat split.
  - intros i w w'.
    unfold deleteTask, bind at 1, get_task_row. simpl.
    destruct (select_first (task_has_id i) (tasks w)) as [row0|] eqn:F;
      [|discriminate].
    unfold bind at 1, new_Date. simpl.
    unfold bind at 1, update_tasks. simpl.
    unfold bind at 1.
    match goal with
    | |- context [addToSyncQueue env ?i ?op ?d ?w0] =>
        destruct (addToSyncQueue env i op d w0) as [[[]|e] w2] eqn:Q
    end; [|discriminate].
    apply addToSyncQueue_returned in Q. destruct Q as [Qt Qq]. simpl in Qt, Qq.
    unfold ret. intro E. inversion E; subst.
    rewrite Qt, Qq.
    rewrite select_first_update_where by reflexivity. rewrite F. simpl.
    apply select_first_has_id in F. unfold task_has_id.
    rewrite F, String.eqb_refl.
    eexists _, _. repeat split.
  - intros i updates w F.
    unfold updateTask, bind, get_task_row. simpl. now rewrite F.
  - intros i w F.
    unfold deleteTask, bind, get_task_row. simpl. now rewrite F.
Qed.

Lemma mutations_persist_and_enqueue_witness :
  (exists row q,
      select_first (task_has_id "A")
        (tasks (snd (updateTask env_plain "A" mark_done world_one_task))) = Some row
      /\ TaskRow.completed row = true
      /\ TaskRow.sync_status row = SyncStatus.pending
      /\ sync_queue (snd (updateTask env_plain "A" mark_done world_one_task))
         = sync_queue world_one_task ++ [q]
      /\ SyncQueueItem.operation q = Operation.update
      /\ SyncQueueItem.retry_count q = 0)
  /\ updateTask env_plain "Z" mark_done world_one_task
     = (Returned None, world_one_task).
Proof.
  split.
  - destruct (updateTask env_plain "A" mark_done world_one_task)
      as [[[updated|]|e] w'] eqn:E;
      [|vm_compute in E; discriminate|vm_compute in E; discriminate].
    destruct (proj1 (proj2 (mutations_persist_and_enqueue env_plain))
                "A" mark_done world_one_task updated w' E)
      as (row & q & Hrow & _ & _ & Hc & _ & _ & _ & Hp & Hq & _ & Ho & Hr & _).
    exists row, q. simpl. split; [exact Hrow|].
    split.
    { rewrite Hc. vm_compute in E. inversion E. reflexivity. }
    split; [exact Hp|]. split; [exact Hq|]. split; [exact Ho | exact Hr].
  - apply (proj1 (proj2 (proj2 (proj2 (mutations_persist_and_enqueue env_plain))))).
    reflexivity.
Defined.

(** ** Entries that share an id *)

(** C2, evaluated: a task is created and then edited before any pass. Where
    the queue's [id] is not a key, the two entries coexist under one id, and
    the single ['success'] verdict given on the first deletes both: the
    edit is never resolved on its own. Where it is a key, the second
    [addToSyncQueue] throws after the task row was rewritten, and the queue
    holds one entry. *)
Theorem shared_entry_id_not_independent :
  (map SyncQueueItem.id (sync_queue world_two_edits) = ["A"; "A"]
   /\ map SyncQueueItem.operation (sync_queue world_two_edits)
      = [Operation.create; Operation.update]
   /\ exists r w',
        sync env_plain accept_first world_two_edits = (Returned r, w')
        /\ SyncResult.synced_items r = 1
        /\ SyncResult.failed_items r = 0
        /\ sync_queue w' = [])
  /\ exists e w',
       updateTask env_keyed "A" mark_done
         (run env_keyed [CallCreate buy_milk] empty_world) = (Thrown e, w')
       /\ map SyncQueueItem.operation (sync_queue w') = [Operation.create]
       /\ map TaskRow.completed (tasks w') = [true].
Proof.
  split; [split; [reflexivity | split; [reflexivity|]]|].
  - eexists _, _. split; [vm_compute; reflexivity|]. repeat split.
  - eexists _, _. split; [vm_compute; reflexivity|]. split; reflexivity.
Qed.

(** Without a key on the queue's id, evaluated: the queue holds the two
    entries of one task, under one id, and the batch request throws. [sync]
    returns [{success: false, synced_items: 0, failed_items: 2}] with two
    error records, no entry is deleted, the task is marked ['error'], and
    each of the two entries has its [retry_count] raised from 0 to 2:
    [handleSyncError] runs once per submitted item and each run updates
    every entry with that id. *)
Theorem batch_failure_shared_id_counts_twice :
  map SyncQueueItem.retry_count (sync_queue world_two_edits) = [0; 0]
  /\ exists r w',
       sync env_plain unreachable_batch world_two_edits = (Returned r, w')
       /\ SyncResult.success r = false
       /\ SyncResult.synced_items r = 0
       /\ SyncResult.failed_items r = 2
       /\ List.length (SyncResult.errors r) = 2
       /\ map SyncQueueItem.retry_count (sync_queue w') = [2; 2]
       /\ map SyncQueueItem.error_message (sync_queue w')
          = [Some "Network Error"; Some "Network Error"]
       /\ map TaskRow.sync_status (tasks w') = [SyncStatus.error].
Proof.
  split; [reflexivity|].
  eexists _, _. split; [vm_compute; reflexivity|]. repeat split.
Qed.


(** ** A batch that fails as a whole *)

Lemma Forall2_compose {A} (P Q S : A -> A -> Prop) (l1 l2 l3 : list A) :
  (forall a b c, P a b -> Q b c -> S a c) ->
  Forall2 P l1 l2 -> Forall2 Q l2 l3 -> Forall2 S l1 l3.
Proof.
  intros H H12. revert l3. induction H12; intros l3 H23; inversion H23; subst.
  - constructor.
  - constructor; eauto.
Qed.

Lemma Forall2_same {A} (P : A -> A -> Prop) (l : list A) :
  (forall a, P a a) -> Forall2 P l l.
Proof. intro H. induction l; constructor; auto. Qed.

Lemma hits_cons x xs q :
  hits (x :: xs) q
  = (if entry_has_id (SyncQueueItem.id x) q then 1 else 0) + hits xs q.
Proof. unfold hits. simpl. destruct (entry_has_id _ q); reflexivity. Qed.

Lemma hits_same_id xs q q' :
  SyncQueueItem.id q' = SyncQueueItem.id q -> hits xs q' = hits xs q.
Proof. intro H. unfold hits, entry_has_id. now rewrite H. Qed.

Lemma owns_one_of_same_id xs r r' :
  TaskRow.id r' = TaskRow.id r -> owns_one_of xs r' = owns_one_of xs r.
Proof. intro H. unfold owns_one_of, task_has_id. now rewrite H. Qed.

Lemma retried_in_batch_step x xs message q q1 q' :
  retried (SyncQueueItem.id x) message q q1 ->
  retried_in_batch xs message q1 q' ->
  retried_in_batch (x :: xs) message q q'.
Proof.
  unfold retried, retried_in_batch. rewrite hits_cons.
  destruct (entry_has_id (SyncQueueItem.id x) q).
  - intros (Hr & Hm & Hi & Ht & Ho & Hd & Hc)
           (Hi' & Ht' & Ho' & Hd' & Hc' & Hr' & Hp & Hz).
    rewrite (hits_same_id xs q q1 Hi) in *.
    repeat split; try congruence; try lia.
    intros _. destruct (hits xs q) eqn:E; [|apply Hp; lia].
    rewrite (Hz eq_refl). exact Hm.
  - intros -> H. exact H.
Qed.

Lemma marked_in_batch_step x xs now r r' :
  marked_in_batch xs
    (if task_has_id (SyncQueueItem.task_id x) r
     then write_status SyncStatus.error now None r else r) r' ->
  marked_in_batch (x :: xs) r r'.
Proof.
  unfold marked_in_batch.
  assert (Hc : owns_one_of (x :: xs) r
               = task_has_id (SyncQueueItem.task_id x) r || owns_one_of xs r)
    by reflexivity.
  rewrite Hc.
  destruct (task_has_id (SyncQueueItem.task_id x) r) eqn:E; [|simpl; tauto].
  cbv iota. rewrite orb_true_l.
  rewrite (owns_one_of_same_id xs r (write_status SyncStatus.error now None r) eq_refl).
  intros (Hi & Hy & Hn). repeat split; [exact Hi | | discriminate].
  intros _. destruct (owns_one_of xs r); [auto|]. now rewrite (Hn eq_refl).
Qed.

Lemma handleSyncError_loop env message items w :
  exists w',
    for_of items (fun (_ : unit) item => handleSyncError env item message) tt w
    = (Returned tt, w')
    /\ Forall2 (retried_in_batch items message) (sync_queue w) (sync_queue w')
    /\ Forall2 (marked_in_batch items) (tasks w) (tasks w').
Proof.
  revert w. induction items as [|x xs IH]; intro w; simpl.
  - exists w. split; [reflexivity|]. split; apply Forall2_same.
    + intro q. unfold retried_in_batch, hits. simpl. repeat split; try lia.
    + intro r. unfold marked_in_batch, owns_one_of. simpl.
      repeat split. discriminate.
  - unfold bind. rewrite handleSyncError_effect.
    match goal with |- context [for_of xs _ tt ?w1] =>
      destruct (IH w1) as (w' & E & Hq & Ht) end.
    exists w'. split; [exact E|]. simpl in Hq, Ht. split.
    + eapply Forall2_compose; [|apply Forall2_update_where|exact Hq].
      * intros a b c. apply retried_in_batch_step.
      * intro q. apply retried_write_retry.
    + eapply (Forall2_compose
                (fun a b =>
                   b = if task_has_id (SyncQueueItem.task_id x) a
                       then write_status SyncStatus.error (clock env (clock_reads w))
                              None a
                       else a));
        [|apply Forall2_update_where|exact Ht].
      * intros a b c Hab Hbc. subst b.
        eapply marked_in_batch_step. exact Hbc.
      * intro r. reflexivity.
Qed.

Lemma hits_absent items q :
  ~ In (SyncQueueItem.id q) (map SyncQueueItem.id items) -> hits items q = 0.
Proof.
  induction items as [|x xs IH]; simpl; intro H; [reflexivity|].
  rewrite hits_cons. unfold entry_has_id at 1.
  destruct (String.eqb_spec (SyncQueueItem.id q) (SyncQueueItem.id x)) as [E|E].
  - exfalso. apply H. left. now symmetry.
  - apply IH. intro Hin. apply H. now right.
Qed.

Lemma hits_distinct items q :
  NoDup (map SyncQueueItem.id items) ->
  In (SyncQueueItem.id q) (map SyncQueueItem.id items) ->
  hits items q = 1.
Proof.
  induction items as [|x xs IH]; simpl; [contradiction|].
  intros Hnd Hin. inversion Hnd as [|? ? Hx Hxs]; subst.
  rewrite hits_cons. unfold entry_has_id at 1.
  destruct (String.eqb_spec (SyncQueueItem.id q) (SyncQueueItem.id x)) as [E|E].
  - rewrite hits_absent; [reflexivity|]. now rewrite E.
  - destruct Hin as [Hin|Hin]; [now symmetry in Hin|]. now apply IH.
Qed.


Lemma error_records env message items w :
  exists errs w',
    map_M (fun i =>
             ts <- new_Date env ;;
             ret (SyncError.mk (SyncQueueItem.task_id i)
                    (SyncQueueItem.operation i) (or_else message "batch error") ts))
      items w = (Returned errs, w')
    /\ Forall2 (records_failure message) items errs
    /\ tasks w' = tasks w /\ sync_queue w' = sync_queue w.
Proof.
  revert w. induction items as [|x xs IH]; intro w; simpl.
  - exists [], w. repeat split. constructor.
  - unfold bind at 1. unfold bind at 1. unfold new_Date at 1. simpl.
    unfold bind at 1.
    match goal with |- context [map_M _ xs ?w1] =>
      destruct (IH w1) as (errs & w' & E & Hr & Ht & Hq) end.
    rewrite E. eexists _, _. split; [reflexivity|].
    split; [constructor; [repeat split | exact Hr]|].
    split; [exact Ht | exact Hq].
Qed.

(** What [sync] does when the batch request throws, whatever ids the
    submitted entries carry. *)
Lemma sync_batch_failure (env : Env) (net : Remote) (w : World) (message : string) :
  let items :=
    map item_of_row
      (limit (default 50%Z (SYNC_BATCH_SIZE env)) (order_by_created_at (sync_queue w))) in
  health net = true ->
  items <> [] ->
  post_batch net items (clock env (clock_reads w)) = PostThrows message ->
  exists r w',
    sync env net w = (Returned r, w')
    /\ SyncResult.success r = false
    /\ SyncResult.synced_items r = 0
    /\ SyncResult.failed_items r = List.length items
    /\ Forall2 (records_failure message) items (SyncResult.errors r)
    /\ Forall2 (retried_in_batch items message) (sync_queue w) (sync_queue w')
    /\ Forall2 (marked_in_batch items) (tasks w) (tasks w').
Proof.
  intros items Hh Hne Hpost.
  unfold sync, bind at 1, checkConnectivity, ret. rewrite Hh. simpl.
  unfold bind at 1, select_batch. fold items.
  destruct (List.length (limit (default 50%Z (SYNC_BATCH_SIZE env))
                           (order_by_created_at (sync_queue w))) =? 0)%nat eqn:L.
  { exfalso. apply Hne. apply Nat.eqb_eq in L. apply length_zero_iff_nil in L.
    unfold items. now rewrite L. }
  unfold try_or_return, processBatch, bind at 1, new_Date. simpl.
  rewrite Hpost. unfold batch_failed, bind at 1.
  match goal with |- context [for_of items _ tt ?w0] =>
    destruct (handleSyncError_loop env message items w0) as (w1 & E1 & Hq & Ht) end.
  rewrite E1. unfold bind at 1.
  destruct (error_records env message items w1) as (errs & w2 & E2 & Hr & Ht2 & Hq2).
  rewrite E2. eexists _, _. split; [reflexivity|]. simpl.
  rewrite Ht2, Hq2. repeat split; assumption.
Qed.

(** When the submitted entries have pairwise distinct ids, each of them is
    retried exactly once. *)
Lemma sync_batch_failure_distinct_ids (env : Env) (net : Remote) (w : World)
    (message : string) :
  let items :=
    map item_of_row
      (limit (default 50%Z (SYNC_BATCH_SIZE env)) (order_by_created_at (sync_queue w))) in
  health net = true ->
  items <> [] ->
  post_batch net items (clock env (clock_reads w)) = PostThrows message ->
  NoDup (map SyncQueueItem.id items) ->
  exists r w',
    sync env net w = (Returned r, w')
    /\ SyncResult.failed_items r = List.length items
    /\ Forall2
         (fun q q' =>
            In (SyncQueueItem.id q) (map SyncQueueItem.id items) ->
            SyncQueueItem.retry_count q' = SyncQueueItem.retry_count q + 1
            /\ SyncQueueItem.error_message q' = Some message)
         (sync_queue w) (sync_queue w').
Proof.
  intros items Hh Hne Hpost Hnd.
  destruct (sync_batch_failure env net w message Hh Hne Hpost)
    as (r & w' & E & _ & _ & Hf & _ & Hq & _).
  exists r, w'. split; [exact E|]. split; [exact Hf|].
  eapply Forall2_impl; [|exact Hq].
  intros q q' (_ & _ & _ & _ & _ & Hc & Hm & _) Hin.
  fold items in Hc, Hm. rewrite (hits_distinct items q Hnd Hin) in Hc, Hm.
  split; [exact Hc | apply Hm; lia].
Qed.


(** ** The pass as a whole *)

(** With the probe answering and the batch request returning, [sync] runs
    [reconcile] on the verdicts in the order of the response. *)
Lemma sync_runs_reconcile (env : Env) (net : Remote) (w : World)
    (verdicts : list ProcessedItem.t) :
  let items :=
    map item_of_row
      (limit (default 50%Z (SYNC_BATCH_SIZE env)) (order_by_created_at (sync_queue w))) in
  health net = true ->
  items <> [] ->
  post_batch net items (clock env (clock_reads w)) = PostReturns verdicts ->
  sync env net w
  = (t <- for_of verdicts (reconcile env items) (mkTally 0 0 []) ;;
     ret (SyncResult.mk (failed t =? 0)%nat (synced t) (failed t) (errors t)))
      (mkWorld (tasks w) (sync_queue w) (S (clock_reads w)) (uuid_draws w)).
Proof.
  intros items Hh Hne Hpost.
  unfold sync, bind at 1, checkConnectivity, ret. rewrite Hh. simpl.
  unfold bind at 1, select_batch. fold items.
  destruct (List.length (limit (default 50%Z (SYNC_BATCH_SIZE env))
                           (order_by_created_at (sync_queue w))) =? 0)%nat eqn:L.
  { exfalso. apply Hne. apply Nat.eqb_eq in L. apply length_zero_iff_nil in L.
    unfold items. now rewrite L. }
  unfold try_or_return, processBatch, bind at 1, new_Date. simpl.
  rewrite Hpost. reflexivity.
Qed.

(** Where the queue's [id] is a key, a task that still has an entry in the
    queue cannot get a second one: [addToSyncQueue] throws and the queue is
    as it was. *)
Lemma keyed_queue_rejects_second_entry (env : Env) i op d w :
  queue_id_key env = true ->
  existsb (entry_has_id i) (sync_queue w) = true ->
  exists e w',
    addToSyncQueue env i op d w = (Thrown e, w')
    /\ sync_queue w' = sync_queue w /\ tasks w' = tasks w.
Proof.
  intros Hk Hin. unfold addToSyncQueue, bind, new_Date, insert_entry. simpl.
  rewrite Hk, Hin. simpl. eexists _, _. repeat split.
Qed.

(** The end-to-end scenarios of the spec. *)

Example scenario_accepted :
  exists r w',
    sync env_plain accept_first world_one_task = (Returned r, w')
    /\ r = SyncResult.mk true 1 0 []
    /\ map TaskRow.sync_status (tasks w') = [SyncStatus.synced]
    /\ map TaskRow.server_id (tasks w') = [Some "srv-1"]
    /\ sync_queue w' = [].
Proof. eexists _, _. split; [vm_compute; reflexivity|]. repeat split. Qed.

Example scenario_conflict :
  map TaskRow.completed (tasks world_one_task) = [false]
  /\ map TaskRow.updated_at (tasks world_one_task) = [100%Z]
  /\ map TaskRow.completed (tasks world_server_ahead) = [true]
  /\ map TaskRow.updated_at (tasks world_server_ahead) = [1000%Z]
  /\ map TaskRow.sync_status (tasks world_server_ahead) = [SyncStatus.synced]
  /\ sync_queue world_server_ahead = [].
Proof. repeat split. Qed.

Example scenario_network_error :
  map SyncQueueItem.id (sync_queue world_three_tasks) = ["A"; "B"; "C"]
  /\ exists r w',
       sync env_plain unreachable_batch world_three_tasks = (Returned r, w')
       /\ SyncResult.success r = false
       /\ SyncResult.synced_items r = 0
       /\ SyncResult.failed_items r = 3
       /\ map SyncQueueItem.retry_count (sync_queue w') = [1; 1; 1].
Proof.
  split; [reflexivity|].
  eexists _, _. split; [vm_compute; reflexivity|]. repeat split.
Qed.

(** * Further properties of the two services *)

(** ** A pass that has nothing to reconcile *)

Lemma batch_of_nil_length env w :
  batch_of env w = [] ->
  List.length (limit (default 50%Z (SYNC_BATCH_SIZE env))
                 (order_by_created_at (sync_queue w))) = 0.
Proof.
  unfold batch_of. intro H. apply (f_equal (@List.length _)) in H.
  now rewrite length_map in H.
Qed.

(** X1: with the probe answering, a pass that selects no entry (the queue is
    empty, or the batch size is 0) returns
    [{success: true, synced_items: 0, failed_items: 0, errors: []}], sends no
    batch and leaves the state as it was. *)
Theorem sync_nothing_selected (env : Env) (net : Remote) (w : World) :
  health net = true ->
  sync_queue w = [] \/ SYNC_BATCH_SIZE env = Some 0%Z ->
  sync env net w = (Returned (SyncResult.mk true 0 0 []), w).
Proof.
  intros Hup Hnone.
  assert (E : limit (default 50%Z (SYNC_BATCH_SIZE env))
                (order_by_created_at (sync_queue w)) = []).
  { destruct Hnone as [-> | ->]; [|reflexivity].
    simpl. unfold limit. destruct (_ <? 0)%Z; [reflexivity | apply firstn_nil]. }
  unfold sync, bind, checkConnectivity, select_batch, ret. rewrite Hup. simpl.
  rewrite E. reflexivity.
Qed.

Lemma sync_nothing_selected_witness :
  sync (mkEnv demo_clock demo_uuid (Some 0%Z) true false) unreachable_batch
    world_two_edits
  = (Returned (SyncResult.mk true 0 0 []), world_two_edits).
Proof.
  apply (sync_nothing_selected (mkEnv demo_clock demo_uuid (Some 0%Z) true false)
           unreachable_batch world_two_edits); [reflexivity | right; reflexivity].
Defined.

(** ** The other verdicts *)

Lemma verdict_error_cases (processed : ProcessedItem.t) :
  (ProcessedItem.error processed = None \/ ProcessedItem.error processed = Some "" ->
   verdict_error processed = "sync error")
  /\ (forall e, ProcessedItem.error processed = Some e -> e <> "" ->
                verdict_error processed = e).
Proof.
  unfold verdict_error, or_else. split.
  - intros [-> | ->]; reflexivity.
  - intros e -> Hne. apply String.eqb_neq in Hne. now rewrite Hne.
Qed.

(** One turn of the verdict loop on a verdict for a submitted entry whose
    status is neither
    ['success'] nor ['conflict'], [sync] keeps every queue entry in place,
    raises by one the [retry_count] of the entries with the item's id and
    records on them the verdict's [error] text (['sync error'] when the text
    is absent or empty), marks the task ['error'] and stamps its
    [last_synced_at] while leaving its [server_id] and [updated_at] alone,
    and counts one more failed item with one more error record. *)
Theorem reconcile_rejected (env : Env) (items : list SyncQueueItem.t) (acc : Tally)
    (processed : ProcessedItem.t) (item : SyncQueueItem.t) (w : World) :
  find_item items processed = Some item ->
  ProcessedItem.status processed <> "success" ->
  ProcessedItem.status processed <> "conflict" ->
  exists acc' w' message ts,
    reconcile env items acc processed w = (Returned acc', w')
    /\ (ProcessedItem.error processed = None
        \/ ProcessedItem.error processed = Some "" -> message = "sync error")
    /\ (forall e, ProcessedItem.error processed = Some e -> e <> "" -> message = e)
    /\ Forall2 (retried (SyncQueueItem.id item) message)
         (sync_queue w) (sync_queue w')
    /\ (forall r,
           select_first (task_has_id (SyncQueueItem.task_id item)) (tasks w) = Some r ->
           exists r',
             select_first (task_has_id (SyncQueueItem.task_id item)) (tasks w') = Some r'
             /\ TaskRow.sync_status r' = SyncStatus.error
             /\ TaskRow.last_synced_at r' = Some (clock env (clock_reads w))
             /\ TaskRow.server_id r' = TaskRow.server_id r
             /\ TaskRow.updated_at r' = TaskRow.updated_at r)
    /\ synced acc' = synced acc
    /\ failed acc' = failed acc + 1
    /\ errors acc'
       = errors acc ++ [SyncError.mk (SyncQueueItem.task_id item)
                          (SyncQueueItem.operation item) message ts].
Proof.
  intros Hfind Hs Hc.
  apply String.eqb_neq in Hs. apply String.eqb_neq in Hc.
  unfold reconcile. rewrite Hfind, Hs, Hc.
  unfold bind at 1. rewrite handleSyncError_effect.
  destruct (verdict_error_cases processed) as [Hdef Hgiven].
  exists (count_failed item (verdict_error processed)
            (clock env (S (clock_reads w))) acc).
  eexists _, (verdict_error processed), _.
  split; [reflexivity|]. split; [exact Hdef|]. split; [exact Hgiven|].
  simpl. repeat split.
  - apply Forall2_update_where. intro q. apply retried_write_retry.
  - intros r Hr.
    rewrite select_first_update_where by reflexivity. rewrite Hr. simpl.
    eexists. split; [reflexivity|].
    apply select_first_has_id in Hr. unfold task_has_id.
    rewrite Hr, String.eqb_refl. repeat split.
Qed.

Lemma reconcile_rejected_witness :
  exists acc' w',
    reconcile env_plain (sync_queue world_one_task) (mkTally 0 0 [])
      (ProcessedItem.mk "A" "error" None None (Some "title too long"))
      world_one_task = (Returned acc', w')
    /\ failed acc' = 1
    /\ Forall2 (retried "A" "title too long")
         (sync_queue world_one_task) (sync_queue w').
Proof.
  destruct (reconcile_rejected env_plain (sync_queue world_one_task)
              (mkTally 0 0 [])
              (ProcessedItem.mk "A" "error" None None (Some "title too long"))
              (SyncQueueItem.mk "A" "A" Operation.create
                 (snapshot "A" "buy milk" (Some "") false 100 100 false None)
                 110 0 None)
              world_one_task eq_refl)
    as (acc' & w' & message & ts & E & _ & Hm & Hq & _ & _ & Hf & _).
  - discriminate.
  - discriminate.
  - exists acc', w'. split; [exact E|]. split; [exact Hf|].
    rewrite <- (Hm "title too long" eq_refl); [exact Hq | discriminate].
Defined.

Lemma getTask_some i w r :
  select_first (task_has_id i) (tasks w) = Some r ->
  TaskRow.is_deleted r = false ->
  getTask i w = (Returned (Some (rowToTask r)), w).
Proof.
  intros Hr Hd. unfold getTask, bind, get_task_row, ret. rewrite Hr. simpl.
  now rewrite Hd.
Qed.

Lemma resolveConflict_server (l s : Task.t) :
  (Task.updated_at s > Task.updated_at l)%Z -> resolveConflict l s = s.
Proof.
  intro H. unfold resolveConflict.
  destruct (Z.gtb_spec (Task.updated_at s) (Task.updated_at l)); [reflexivity | lia].
Qed.

Lemma resolveConflict_local (l s : Task.t) :
  (Task.updated_at s <= Task.updated_at l)%Z -> resolveConflict l s = l.
Proof.
  intro H. unfold resolveConflict.
  destruct (Z.gtb_spec (Task.updated_at s) (Task.updated_at l)); [lia | reflexivity].
Qed.

(** One turn of the verdict loop on a verdict with status ['conflict'] for
    a submitted entry: when
    the local task is stored and not soft-deleted and the verdict carries a
    resolved snapshot, [sync] writes the winner onto the task row: the
    server's [title], [description], [completed] and [updated_at] when the
    server's [updated_at] is strictly later, the stored ones otherwise. The
    row becomes ['synced'], its [server_id] becomes the verdict's (null when
    the verdict has none), its [id], [created_at], [is_deleted] and
    [last_synced_at] stay; the entries with the item's id are deleted and the
    item is counted as synced. The clock is not read. *)
Theorem reconcile_conflict_resolved (env : Env) (items : list SyncQueueItem.t)
    (acc : Tally) (processed : ProcessedItem.t) (item : SyncQueueItem.t)
    (w : World) (r : TaskRow.t) (resolved : Task.t) :
  find_item items processed = Some item ->
  ProcessedItem.status processed = "conflict" ->
  select_first (task_has_id (SyncQueueItem.task_id item)) (tasks w) = Some r ->
  TaskRow.is_deleted r = false ->
  ProcessedItem.resolved_data processed = Some resolved ->
  exists acc' w' r',
    reconcile env items acc processed w = (Returned acc', w')
    /\ select_first (task_has_id (SyncQueueItem.task_id item)) (tasks w') = Some r'
    /\ ((Task.updated_at resolved > TaskRow.updated_at r)%Z ->
        TaskRow.title r' = Task.title resolved
        /\ TaskRow.description r' = Task.description resolved
        /\ TaskRow.completed r' = Task.completed resolved
        /\ TaskRow.updated_at r' = Task.updated_at resolved)
    /\ ((Task.updated_at resolved <= TaskRow.updated_at r)%Z ->
        TaskRow.title r' = TaskRow.title r
        /\ TaskRow.description r' = TaskRow.description r
        /\ TaskRow.completed r' = TaskRow.completed r
        /\ TaskRow.updated_at r' = TaskRow.updated_at r)
    /\ TaskRow.sync_status r' = SyncStatus.synced
    /\ TaskRow.server_id r' = ProcessedItem.server_id processed
    /\ TaskRow.id r' = TaskRow.id r
    /\ TaskRow.created_at r' = TaskRow.created_at r
    /\ TaskRow.is_deleted r' = TaskRow.is_deleted r
    /\ TaskRow.last_synced_at r' = TaskRow.last_synced_at r
    /\ (forall q, In q (sync_queue w') <->
                  In q (sync_queue w) /\ SyncQueueItem.id q <> SyncQueueItem.id item)
    /\ synced acc' = synced acc + 1
    /\ failed acc' = failed acc
    /\ errors acc' = errors acc
    /\ clock_reads w' = clock_reads w.
Proof.
  intros Hfind Hst Hr Hd Hres.
  unfold reconcile. rewrite Hfind, Hst. simpl.
  unfold bind at 1. rewrite (getTask_some _ _ _ Hr Hd), Hres.
  eexists _, _, _. split; [reflexivity|]. simpl.
  rewrite select_first_update_where by reflexivity.
  pose proof (select_first_has_id _ _ _ Hr) as Hid.
  rewrite Hid, Hr. simpl. unfold task_has_id at 1. rewrite Hid, String.eqb_refl.
  split; [reflexivity|]. simpl.
  split.
  { intro H. rewrite (resolveConflict_server (rowToTask r) resolved H). repeat split. }
  split.
  { intro H. rewrite (resolveConflict_local (rowToTask r) resolved H). repeat split. }
  repeat split.
  - exact Hid.
  - apply In_delete_where in H. tauto.
  - apply In_delete_where in H. destruct H as [_ H].
    unfold entry_has_id in H. now apply String.eqb_neq in H.
  - intros [Hin Hne]. apply In_delete_where. split; [exact Hin|].
    unfold entry_has_id. now apply String.eqb_neq.
Qed.

Lemma reconcile_conflict_resolved_witness :
  exists acc' w' r',
    reconcile env_plain (sync_queue world_one_task) (mkTally 0 0 [])
      verdict_conflict_server world_one_task = (Returned acc', w')
    /\ select_first (task_has_id "A") (tasks w') = Some r'
    /\ TaskRow.completed r' = true
    /\ TaskRow.updated_at r' = 1000%Z
    /\ synced acc' = 1.
Proof.
  destruct (reconcile_conflict_resolved env_plain (sync_queue world_one_task)
              (mkTally 0 0 []) verdict_conflict_server
              (SyncQueueItem.mk "A" "A" Operation.create
                 (snapshot "A" "buy milk" (Some "") false 100 100 false None)
                 110 0 None)
              world_one_task
              (TaskRow.mk "A" "buy milk" (Some "") false false 100 100
                 SyncStatus.pending None None)
              (Task.mk "A" "buy milk" (Some "") true false 100%Z 1000%Z
                 SyncStatus.synced (Some "srv-1"))
              eq_refl eq_refl eq_refl eq_refl eq_refl)
    as (acc' & w' & r' & E & Hr' & Hsrv & _ & _ & _ & _ & _ & _ & _ & _ & Hs & _).
  exists acc', w', r'. split; [exact E|]. split; [exact Hr'|].
  destruct (Hsrv eq_refl) as (_ & _ & Hc & Hu).
  split; [exact Hc|]. split; [exact Hu | exact Hs].
Defined.

(** ** What a pass counts *)

(** One turn of the verdict loop: it returns, and either the verdict names
    no submitted entry and nothing changes, or it names one and exactly one
    of [synced] and [failed] grows by one, [errors] growing with
    [failed]. *)
Lemma reconcile_step (env : Env) (items : list SyncQueueItem.t) (acc : Tally)
    (v : ProcessedItem.t) (w : World) :
  exists acc' w',
    reconcile env items acc v w = (Returned acc', w')
    /\ ((matched items v = false /\ acc' = acc /\ w' = w)
        \/ (matched items v = true
            /\ ((synced acc' = synced acc + 1 /\ failed acc' = failed acc
                 /\ errors acc' = errors acc)
                \/ (synced acc' = synced acc /\ failed acc' = failed acc + 1
                    /\ exists e, errors acc' = errors acc ++ [e])))).
Proof.
  unfold reconcile, matched.
  destruct (find_item items v) as [item|]; [|eexists _, _; split; [reflexivity|]; auto].
  destruct (ProcessedItem.status v =? "success").
  { eexists _, _. split; [reflexivity|]. right. split; [reflexivity|]. left.
    repeat split. }
  destruct (ProcessedItem.status v =? "conflict").
  - unfold bind at 1.
    destruct (getTask_reads (SyncQueueItem.task_id item) w) as [[l|] ->].
    + destruct (ProcessedItem.resolved_data v) as [resolved|].
      * eexists _, _. split; [reflexivity|]. right. split; [reflexivity|]. left.
        repeat split.
      * eexists _, _. split; [reflexivity|]. right. split; [reflexivity|]. right.
        repeat split. eexists. reflexivity.
    + eexists _, _. split; [reflexivity|]. right. split; [reflexivity|]. right.
      repeat split. eexists. reflexivity.
  - eexists _, _. split; [reflexivity|]. right. split; [reflexivity|]. right.
    repeat split. eexists. reflexivity.
Qed.

Lemma reconcile_loop_counts (env : Env) (items : list SyncQueueItem.t)
    (verdicts : list ProcessedItem.t) :
  forall acc w,
  exists acc' w',
    for_of verdicts (reconcile env items) acc w = (Returned acc', w')
    /\ synced acc' + failed acc'
       = synced acc + failed acc + List.length (filter (matched items) verdicts)
    /\ List.length (errors acc') + failed acc
       = List.length (errors acc) + failed acc'
    /\ (Forall (fun v => matched items v = false) verdicts ->
        acc' = acc /\ w' = w).
Proof.
  induction verdicts as [|v vs IH]; intros acc w; simpl.
  - exists acc, w. split; [reflexivity|]. split; [lia|]. split; [lia | auto].
  - destruct (reconcile_step env items acc v w) as (acc1 & w1 & E1 & Hstep).
    destruct (IH acc1 w1) as (acc' & w' & E & Hsum & Herr & Hnone).
    exists acc', w'. unfold bind. rewrite E1. split; [exact E|].
    destruct Hstep as [(Hm & -> & ->) | (Hm & Hcount)]; rewrite Hm; simpl.
    + split; [lia|]. split; [lia|].
      intro Hall. inversion Hall; subst. auto.
    + split; [|split].
      * destruct Hcount as [(Hs & Hf & _) | (Hs & Hf & _)]; lia.
      * destruct Hcount as [(Hs & Hf & He) | (Hs & Hf & e & He)];
          rewrite He in Herr; [|rewrite length_app in Herr; simpl in Herr]; lia.
      * intro Hall. inversion Hall; subst. congruence.
Qed.

(** A 2xx body without an iterable [processed_items] makes [sync] throw,
    after the clock was read for the client timestamp and before any row is
    written. *)
Lemma sync_no_verdicts (env : Env) (net : Remote) (w : World) :
  health net = true ->
  batch_of env w <> [] ->
  post_batch net (batch_of env w) (clock env (clock_reads w)) = PostReturnsNoVerdicts ->
  sync env net w
  = (Thrown "TypeError: response.processed_items is not iterable", tick w).
Proof.
  intros Hup Hne Hpost.
  unfold sync, bind at 1, checkConnectivity, ret. rewrite Hup. simpl.
  unfold bind at 1, select_batch. fold (batch_of env w).
  destruct (List.length (limit (default 50%Z (SYNC_BATCH_SIZE env))
                           (order_by_created_at (sync_queue w))) =? 0)%nat eqn:L.
  { exfalso. apply Hne. apply Nat.eqb_eq in L. apply length_zero_iff_nil in L.
    unfold batch_of. now rewrite L. }
  unfold try_or_return, processBatch, bind at 1, new_Date. simpl.
  rewrite Hpost. reflexivity.
Qed.

(** X4: when the probe answers and the response to a non-empty batch names
    none of the submitted entries (an empty [processed_items] included),
    [sync] reports [{success: true, synced_items: 0, failed_items: 0}]
    although nothing was synced: no task row is touched and every entry
    stays in the queue with its [retry_count] and [error_message]. Only the
    clock was read, once, for the client timestamp. *)
Theorem sync_unmatched_verdicts (env : Env) (net : Remote) (w : World)
    (verdicts : list ProcessedItem.t) :
  health net = true ->
  batch_of env w <> [] ->
  post_batch net (batch_of env w) (clock env (clock_reads w)) = PostReturns verdicts ->
  Forall (fun v => matched (batch_of env w) v = false) verdicts ->
  sync env net w = (Returned (SyncResult.mk true 0 0 []), tick w).
Proof.
  intros Hup Hne Hpost Hall.
  rewrite (sync_runs_reconcile env net w verdicts Hup Hne Hpost).
  fold (batch_of env w). fold (tick w).
  destruct (reconcile_loop_counts env (batch_of env w) verdicts (mkTally 0 0 [])
              (tick w)) as (acc' & w' & E & _ & _ & Hnone).
  destruct (Hnone Hall) as [-> ->].
  unfold bind. rewrite E. reflexivity.
Qed.

Lemma sync_unmatched_verdicts_witness :
  sync env_plain answers_strangers world_two_edits
  = (Returned (SyncResult.mk true 0 0 []), tick world_two_edits).
Proof.
  apply (sync_unmatched_verdicts env_plain answers_strangers world_two_edits
           [ProcessedItem.mk "Z" "success" None None None;
            ProcessedItem.mk "Y" "error" None None (Some "unknown")]).
  - reflexivity.
  - discriminate.
  - reflexivity.
  - repeat constructor.
Defined.

(** X5: in every result that [sync] returns, [errors] holds exactly
    [failed_items] records, on every path that returns (probe failed, nothing
    selected, batch request thrown, verdicts reconciled). *)
Theorem sync_errors_match_failed_items (env : Env) (net : Remote) (w : World)
    (r : SyncResult.t) (w' : World) :
  sync env net w = (Returned r, w') ->
  List.length (SyncResult.errors r) = SyncResult.failed_items r.
Proof.
  intro Hsync.
  destruct (health net) eqn:Hup.
  2:{ rewrite (sync_offline_noop_eq env net w Hup) in Hsync.
      inversion Hsync. reflexivity. }
  destruct (batch_of env w) as [|x xs] eqn:Hb.
  { apply batch_of_nil_length in Hb.
    unfold sync, bind, checkConnectivity, select_batch, ret in Hsync.
    rewrite Hup in Hsync. simpl in Hsync. rewrite Hb in Hsync. simpl in Hsync.
    inversion Hsync. reflexivity. }
  assert (Hne : batch_of env w <> []) by (rewrite Hb; discriminate).
  destruct (post_batch net (batch_of env w) (clock env (clock_reads w)))
    as [message | verdicts |] eqn:Hpost.
  - destruct (sync_batch_failure env net w message Hup Hne Hpost)
      as (r0 & w0 & E & _ & _ & Hf & Hrec & _).
    rewrite E in Hsync. inversion Hsync; subst r0 w0. rewrite Hf.
    symmetry. eapply Forall2_length. exact Hrec.
  - rewrite (sync_runs_reconcile env net w verdicts Hup Hne Hpost) in Hsync.
    fold (batch_of env w) in Hsync. fold (tick w) in Hsync.
    destruct (reconcile_loop_counts env (batch_of env w) verdicts (mkTally 0 0 [])
                (tick w)) as (acc' & w1 & E & _ & Herr & _).
    unfold bind in Hsync. rewrite E in Hsync. inversion Hsync.
    simpl in *. lia.
  - exfalso. rewrite (sync_no_verdicts env net w Hup Hne Hpost) in Hsync.
    discriminate.
Qed.

Lemma sync_errors_match_failed_items_witness :
  exists r w',
    sync env_plain unreachable_batch world_three_tasks = (Returned r, w')
    /\ List.length (SyncResult.errors r) = 3.
Proof.
  destruct (sync env_plain unreachable_batch world_three_tasks)
    as [[r|e] w'] eqn:E; [|vm_compute in E; discriminate].
  exists r, w'. split; [reflexivity|].
  rewrite (sync_errors_match_failed_items env_plain unreachable_batch
             world_three_tasks r w' E).
  vm_compute in E. inversion E. reflexivity.
Defined.

(** X6: when the batch request returns, [synced_items + failed_items] is
    the number of verdicts that name a submitted entry: verdicts are
    counted, not entries, so a verdict given twice is counted twice and a
    verdict on an unknown id is not counted. *)
Theorem sync_counts_matched_verdicts (env : Env) (net : Remote) (w : World)
    (verdicts : list ProcessedItem.t) :
  health net = true ->
  batch_of env w <> [] ->
  post_batch net (batch_of env w) (clock env (clock_reads w)) = PostReturns verdicts ->
  exists r w',
    sync env net w = (Returned r, w')
    /\ SyncResult.synced_items r + SyncResult.failed_items r
       = List.length (filter (matched (batch_of env w)) verdicts).
Proof.
  intros Hup Hne Hpost.
  rewrite (sync_runs_reconcile env net w verdicts Hup Hne Hpost).
  fold (batch_of env w). fold (tick w).
  destruct (reconcile_loop_counts env (batch_of env w) verdicts (mkTally 0 0 [])
              (tick w)) as (acc' & w' & E & Hsum & _).
  unfold bind. rewrite E. eexists _, _. split; [reflexivity|].
  simpl in *. lia.
Qed.

Lemma sync_counts_matched_verdicts_witness :
  exists r w',
    sync env_plain accept_all_first_twice world_three_tasks = (Returned r, w')
    /\ SyncResult.synced_items r + SyncResult.failed_items r = 4.
Proof.
  destruct (sync_counts_matched_verdicts env_plain accept_all_first_twice
              world_three_tasks
              (map (fun i =>
                      ProcessedItem.mk (SyncQueueItem.id i) "success" None None None)
                 (firstn 1 (batch_of env_plain world_three_tasks)
                  ++ batch_of env_plain world_three_tasks)))
    as (r & w' & E & Hsum).
  - reflexivity.
  - discriminate.
  - reflexivity.
  - exists r, w'. split; [exact E | exact Hsum].
Defined.

(** ** The batch request that throws *)

(** X7: when the probe answers and the request for a non-empty batch throws,
    [sync] returns [success = false], [synced_items = 0] and
    [failed_items] equal to the batch size, with one error record per
    submitted item, in order, carrying the error's message (['batch error']
    when it is empty). No queue entry is added or removed; the
    [retry_count] of an entry grows by the number of submitted items that
    carry its id and the message is recorded on it; every task that owns a
    submitted item is marked ['error'] and the other task rows are
    untouched. *)
Theorem sync_batch_failure_effect (env : Env) (net : Remote) (w : World)
    (message : string) :
  health net = true ->
  batch_of env w <> [] ->
  post_batch net (batch_of env w) (clock env (clock_reads w)) = PostThrows message ->
  exists r w',
    sync env net w = (Returned r, w')
    /\ SyncResult.success r = false
    /\ SyncResult.synced_items r = 0
    /\ SyncResult.failed_items r = List.length (batch_of env w)
    /\ Forall2 (records_failure message) (batch_of env w) (SyncResult.errors r)
    /\ Forall2 (retried_in_batch (batch_of env w) message)
         (sync_queue w) (sync_queue w')
    /\ Forall2 (marked_in_batch (batch_of env w)) (tasks w) (tasks w').
Proof.
  intros Hup Hne Hpost.
  exact (sync_batch_failure env net w message Hup Hne Hpost).
Qed.

Lemma sync_batch_failure_effect_witness :
  exists r w',
    sync env_plain unreachable_batch world_three_tasks = (Returned r, w')
    /\ SyncResult.failed_items r = 3
    /\ Forall2 (retried_in_batch (batch_of env_plain world_three_tasks)
                  "Network Error")
         (sync_queue world_three_tasks) (sync_queue w').
Proof.
  destruct (sync_batch_failure_effect env_plain unreachable_batch world_three_tasks
              "Network Error")
    as (r & w' & E & _ & _ & Hf & _ & Hq & _).
  - reflexivity.
  - discriminate.
  - reflexivity.
  - exists r, w'. split; [exact E|]. split; [exact Hf | exact Hq].
Defined.

(** ** The selection of the batch *)

Lemma item_of_row_id (r : SyncQueueItem.t) : item_of_row r = r.
Proof. destruct r. reflexivity. Qed.

Lemma map_item_of_row (l : list SyncQueueItem.t) : map item_of_row l = l.
Proof.
  induction l as [|a l IH]; simpl; [reflexivity|].
  now rewrite item_of_row_id, IH.
Qed.

Lemma insert_by_created_at_perm x l :
  Permutation (insert_by_created_at x l) (x :: l).
Proof.
  induction l as [|y l IH]; simpl; [reflexivity|].
  destruct (_ <=? _)%Z; [reflexivity|].
  rewrite IH. apply perm_swap.
Qed.

Lemma order_by_created_at_perm l : Permutation (order_by_created_at l) l.
Proof.
  unfold order_by_created_at. induction l as [|x l IH]; simpl; [reflexivity|].
  rewrite insert_by_created_at_perm. now constructor.
Qed.

Lemma insert_by_created_at_sorted x l :
  StronglySorted no_later l -> StronglySorted no_later (insert_by_created_at x l).
Proof.
  induction l as [|y l IH]; simpl; intro Hs.
  - constructor; constructor.
  - inversion Hs as [|? ? Hl Hy]; subst.
    destruct (Z.leb_spec (SyncQueueItem.created_at x) (SyncQueueItem.created_at y))
      as [Hle|Hgt].
    + constructor; [exact Hs|]. constructor; [exact Hle|].
      eapply Forall_impl; [|exact Hy]. unfold no_later. intros; lia.
    + constructor; [auto|].
      eapply Permutation_Forall;
        [symmetry; apply insert_by_created_at_perm|].
      constructor; [unfold no_later; lia | exact Hy].
Qed.

Lemma order_by_created_at_sorted l :
  StronglySorted no_later (order_by_created_at l).
Proof.
  unfold order_by_created_at. induction l as [|x l IH]; simpl.
  - constructor.
  - now apply insert_by_created_at_sorted.
Qed.

Lemma StronglySorted_app_inv {A} (R : A -> A -> Prop) (l1 l2 : list A) :
  StronglySorted R (l1 ++ l2) ->
  StronglySorted R l1 /\ forall a b, In a l1 -> In b l2 -> R a b.
Proof.
  induction l1 as [|x l1 IH]; simpl; intro Hs.
  - split; [constructor | contradiction].
  - inversion Hs as [|? ? Hl Hx]; subst.
    destruct (IH Hl) as [Hs1 Hcross]. split.
    + constructor; [exact Hs1|].
      apply Forall_app in Hx. tauto.
    + intros a b [<- | Ha] Hb; [|auto].
      rewrite Forall_forall in Hx. apply Hx. apply in_or_app. now right.
Qed.

Lemma limit_prefix {R} (n : Z) (l : list R) :
  exists rest,
    l = limit n l ++ rest
    /\ List.length (limit n l)
       = if (n <? 0)%Z then List.length l else Nat.min (Z.to_nat n) (List.length l).
Proof.
  unfold limit. destruct (n <? 0)%Z.
  - exists []. split; [now rewrite app_nil_r | reflexivity].
  - exists (skipn (Z.to_nat n) l). split.
    + symmetry. apply firstn_skipn.
    + apply length_firstn.
Qed.



(** ** The order of submission *)

Lemma order_by_created_at_sorted_id l :
  StronglySorted no_later l -> order_by_created_at l = l.
Proof.
  unfold order_by_created_at. induction l as [|x l IH]; simpl; intro Hs.
  - reflexivity.
  - inversion Hs as [|? ? Hl Hx]; subst. rewrite (IH Hl).
    destruct l as [|y l]; simpl; [reflexivity|].
    inversion Hx as [|? ? Hxy _]; subst. unfold no_later in Hxy.
    apply Z.leb_le in Hxy. now rewrite Hxy.
Qed.

Lemma StronglySorted_delete_where {A} (R : A -> A -> Prop) p (l : list A) :
  StronglySorted R l -> StronglySorted R (delete_where p l).
Proof.
  unfold delete_where. induction 1 as [|x l Hl IH Hx]; simpl; [constructor|].
  destruct (negb (p x)); [|exact IH].
  constructor; [exact IH|].
  apply Forall_forall. intros y Hy. apply filter_In in Hy.
  rewrite Forall_forall in Hx. apply Hx, Hy.
Qed.

Lemma StronglySorted_earlier_update_where p message l :
  StronglySorted earlier l ->
  StronglySorted earlier (update_where p (write_retry message) l).
Proof.
  unfold update_where. induction 1 as [|x l Hl IH Hx]; simpl; constructor.
  - exact IH.
  - apply Forall_map. eapply Forall_impl; [|exact Hx].
    intros y Hy. unfold earlier in *. destruct (p x), (p y); exact Hy.
Qed.

Lemma StronglySorted_earlier_no_later l :
  StronglySorted earlier l -> StronglySorted no_later l.
Proof.
  induction 1 as [|x l Hl IH Hx]; constructor; [exact IH|].
  eapply Forall_impl; [|exact Hx]. unfold earlier, no_later. intros; lia.
Qed.

Section StrictOrder.
Variable env : Env.
Hypothesis clock_ok : clock_advances env.

Lemma strict_order_refl w : strict_order_kept env w w.
Proof. intros H. exact H. Qed.

Lemma strict_order_trans w1 w2 w3 :
  strict_order_kept env w1 w2 -> strict_order_kept env w2 w3 ->
  strict_order_kept env w1 w3.
Proof. unfold strict_order_kept. auto. Qed.

Lemma strict_order_same {A} (m : M A) :
  (forall w, sync_queue (snd (m w)) = sync_queue w
             /\ clock_reads (snd (m w)) = clock_reads w) ->
  keeps (strict_order_kept env) m.
Proof.
  intros H w. destruct (H w) as [Hq Hc].
  unfold strict_order_kept, queue_in_strict_order. now rewrite Hq, Hc.
Qed.

Lemma before_next_reading w :
  Forall (fun q => (SyncQueueItem.created_at q < clock env (clock_reads w))%Z)
    (sync_queue w) ->
  Forall (fun q => (SyncQueueItem.created_at q < clock env (S (clock_reads w)))%Z)
    (sync_queue w).
Proof.
  intro Hb. eapply Forall_impl; [|exact Hb]. intros q Hq. simpl in Hq.
  pose proof (clock_ok (clock_reads w) (S (clock_reads w))). lia.
Qed.

Lemma strict_order_new_Date : keeps (strict_order_kept env) (new_Date env).
Proof.
  intros w (Hs & Hb). split; [exact Hs|].
  simpl. now apply before_next_reading.
Qed.

Lemma strict_order_update_tasks i f :
  keeps (strict_order_kept env) (update_tasks i f).
Proof. apply strict_order_same. intro w. split; reflexivity. Qed.

Lemma strict_order_insert_task r : keeps (strict_order_kept env) (insert_task env r).
Proof.
  apply strict_order_same. intro w. unfold insert_task.
  destruct (_ && _); split; reflexivity.
Qed.

Lemma strict_order_write_retry i e :
  keeps (strict_order_kept env) (update_entries i (write_retry e)).
Proof.
  intros w (Hs & Hb). split; simpl.
  - now apply StronglySorted_earlier_update_where.
  - unfold update_where. apply Forall_map. eapply Forall_impl; [|exact Hb].
    intros q Hq. destruct (entry_has_id i q); exact Hq.
Qed.

Lemma Forall_delete_where {A} (P : A -> Prop) p (l : list A) :
  Forall P l -> Forall P (delete_where p l).
Proof.
  intro H. unfold delete_where. apply Forall_forall. intros q Hq.
  apply filter_In in Hq. rewrite Forall_forall in H. apply H, Hq.
Qed.

Lemma strict_order_delete_entries i :
  keeps (strict_order_kept env) (delete_entries i).
Proof.
  intros w (Hs & Hb). split; simpl.
  - now apply StronglySorted_delete_where.
  - now apply Forall_delete_where.
Qed.

Lemma strict_order_addToSyncQueue i op d :
  keeps (strict_order_kept env) (addToSyncQueue env i op d).
Proof.
  intros w (Hs & Hb).
  pose proof (before_next_reading w Hb) as Hnext.
  unfold addToSyncQueue, bind, new_Date, insert_entry. simpl.
  destruct (_ && _); simpl; split; simpl; auto.
  - clear Hnext. induction Hs as [|x l Hl IH Hx]; simpl.
    + constructor; constructor.
    + inversion Hb; subst. constructor; [auto|].
      apply Forall_app. split; [exact Hx|].
      constructor; [assumption | constructor].
  - apply Forall_app. split; [exact Hnext|].
    constructor; [|constructor]. simpl.
    pose proof (clock_ok (clock_reads w) (S (clock_reads w))). lia.
Qed.

Lemma strict_order_after c w : strict_order_kept env w (after env c w).
Proof.
  pose proof strict_order_refl as Hrefl.
  pose proof strict_order_trans as Htrans.
  assert (Huuid : keeps (strict_order_kept env) (uuidv4 env))
    by (apply strict_order_same; intro; split; reflexivity).
  assert (Hget : forall i, keeps (strict_order_kept env) (get_task_row i))
    by (intro; apply strict_order_same; intro; split; reflexivity).
  assert (Htail : forall i op d A (a : A),
             keeps (strict_order_kept env)
               (addToSyncQueue env i op d ;;; ret a)).
  { intros. apply keeps_bind; [exact Htrans | apply strict_order_addToSyncQueue|].
    intros _. apply keeps_ret. exact Hrefl. }
  destruct c as [taskData | i updates | i | net]; simpl.
  - unfold createTask.
    apply keeps_bind; [exact Htrans | apply strict_order_new_Date | intro now].
    apply keeps_bind; [exact Htrans | exact Huuid | intro new_id].
    apply keeps_bind; [exact Htrans | apply strict_order_insert_task | intros _].
    apply Htail.
  - unfold updateTask.
    apply keeps_bind; [exact Htrans | apply Hget |].
    intros [row|]; [|apply keeps_ret; exact Hrefl].
    apply keeps_bind; [exact Htrans | apply strict_order_new_Date | intro now].
    apply keeps_bind; [exact Htrans | apply strict_order_update_tasks | intros _].
    apply Htail.
  - unfold deleteTask.
    apply keeps_bind; [exact Htrans | apply Hget |].
    intros [row|]; [|apply keeps_ret; exact Hrefl].
    apply keeps_bind; [exact Htrans | apply strict_order_new_Date | intro now].
    apply keeps_bind; [exact Htrans | apply strict_order_update_tasks | intros _].
    apply Htail.
  - apply (keeps_sync (strict_order_kept env) Hrefl Htrans env).
    + apply strict_order_new_Date.
    + intros. apply strict_order_update_tasks.
    + apply strict_order_write_retry.
    + apply strict_order_delete_entries.
    + intros. apply strict_order_update_tasks.
Qed.

Lemma strict_order_run cs :
  forall w, queue_in_strict_order env w -> queue_in_strict_order env (run env cs w).
Proof.
  unfold run. induction cs as [|c cs IH]; simpl; intros w Hw; [exact Hw|].
  apply IH. revert Hw. apply strict_order_after.
Qed.

End StrictOrder.



(** ** The task store read back *)

Lemma select_first_none_existsb {R} (p : R -> bool) (l : list R) :
  existsb p l = false -> select_first p l = None.
Proof.
  unfold select_first. induction l as [|a l IH]; simpl; [reflexivity|].
  destruct (p a); simpl; [discriminate | exact IH].
Qed.

Lemma select_first_app_none {R} (p : R -> bool) (l : list R) (r : R) :
  select_first p l = None ->
  select_first p (l ++ [r]) = if p r then Some r else None.
Proof.
  unfold select_first. induction l as [|a l IH]; simpl; [reflexivity|].
  destruct (p a); [discriminate | exact IH].
Qed.

Lemma In_update_where {R} (p : R -> bool) (f : R -> R) (l : list R) (r' : R) :
  In r' (update_where p f l) ->
  exists r, In r l /\ r' = if p r then f r else r.
Proof.
  unfold update_where. intro H. apply in_map_iff in H.
  destruct H as (r & <- & Hin). eauto.
Qed.

Lemma addToSyncQueue_accepted env i op d w :
  enqueue_accepted env i w ->
  addToSyncQueue env i op d w
  = (Returned tt,
     mkWorld (tasks w)
       (sync_queue w
        ++ [SyncQueueItem.mk i i op d (clock env (clock_reads w)) 0 None])
       (S (clock_reads w)) (uuid_draws w)).
Proof.
  unfold enqueue_accepted, addToSyncQueue, bind, new_Date, insert_entry. simpl.
  intros ->. reflexivity.
Qed.

Lemma addToSyncQueue_thrown env i op d w e w' :
  addToSyncQueue env i op d w = (Thrown e, w') ->
  tasks w' = tasks w /\ sync_queue w' = sync_queue w.
Proof.
  unfold addToSyncQueue, bind, new_Date, insert_entry. simpl.
  destruct (_ && _); [|discriminate]. intro E. inversion E. split; reflexivity.
Qed.

Lemma createTask_returned env taskData w task w' :
  createTask env taskData w = (Returned task, w') ->
  task = Task.mk (uuid env (uuid_draws w))
           (default "" (PartialTask.title taskData))
           (Some (default "" (PartialTask.description taskData)))
           (default false (PartialTask.completed taskData))
           false (clock env (clock_reads w)) (clock env (clock_reads w))
           SyncStatus.pending (PartialTask.server_id taskData)
  /\ tasks w' = tasks w ++ [row_of_task task]
  /\ (tasks_id_key env = true ->
      existsb (task_has_id (Task.id task)) (tasks w) = false).
Proof.
  unfold createTask, bind at 1, new_Date. simpl.
  unfold bind at 1, uuidv4. simpl.
  unfold bind at 1, insert_task. simpl.
  destruct (tasks_id_key env && _) eqn:K; [discriminate|]. simpl.
  unfold bind at 1.
  match goal with
  | |- context [addToSyncQueue env ?i ?op ?d ?w0] =>
      destruct (addToSyncQueue env i op d w0) as [[[]|e] w2] eqn:Q
  end; [|discriminate].
  apply addToSyncQueue_returned in Q. destruct Q as [Qt _]. simpl in Qt.
  unfold ret. intro E. inversion E; subst. simpl.
  split; [reflexivity|]. split; [exact Qt|].
  intro Hk. rewrite Hk in K. exact K.
Qed.

(** X10: a task that [createTask] returned can be read back: provided its
    id was not stored before (which the insert itself guarantees when the
    id is a key), [getTask] on its id returns the same task and
    [getAllTasks] and [getTasksNeedingSync] list it. Its id is the uuid
    drawn, and it is pending and not deleted whatever the request says. *)
Theorem createTask_then_getTask (env : Env) (taskData : PartialTask.t)
    (w : World) (task : Task.t) (w' : World) :
  createTask env taskData w = (Returned task, w') ->
  tasks_id_key env = true
  \/ select_first (task_has_id (uuid env (uuid_draws w))) (tasks w) = None ->
  getTask (Task.id task) w' = (Returned (Some task), w')
  /\ (exists ts, getAllTasks w' = (Returned ts, w') /\ In task ts)
  /\ (exists ts, getTasksNeedingSync w' = (Returned ts, w') /\ In task ts)
  /\ Task.id task = uuid env (uuid_draws w)
  /\ Task.sync_status task = SyncStatus.pending
  /\ Task.is_deleted task = false.
Proof.
  intros E Hfresh.
  destruct (createTask_returned env taskData w task w' E) as (Ht & Hrows & Hkey).
  assert (Hid : Task.id task = uuid env (uuid_draws w)) by (rewrite Ht; reflexivity).
  assert (Hnone : select_first (task_has_id (Task.id task)) (tasks w) = None).
  { destruct Hfresh as [Hk | Hf]; [|now rewrite Hid].
    apply select_first_none_existsb. auto. }
  assert (Hrow : rowToTask (row_of_task task) = task) by (destruct task; reflexivity).
  assert (Hin : In (row_of_task task) (tasks w'))
    by (rewrite Hrows; apply in_or_app; right; left; reflexivity).
  split; [|split; [|split]].
  - unfold getTask, bind, get_task_row, ret. rewrite Hrows.
    rewrite (select_first_app_none _ _ (row_of_task task) Hnone).
    unfold task_has_id at 1. simpl. rewrite String.eqb_refl. simpl.
    rewrite Ht. reflexivity.
  - eexists. split; [reflexivity|]. rewrite <- Hrow. apply in_map.
    apply filter_In. split; [exact Hin|]. rewrite Ht. reflexivity.
  - eexists. split; [reflexivity|]. rewrite <- Hrow. apply in_map.
    apply filter_In. split; [exact Hin|]. rewrite Ht. reflexivity.
  - rewrite Ht. repeat split.
Qed.

Lemma createTask_then_getTask_witness :
  exists task w',
    createTask env_keyed buy_milk world_one_task = (Returned task, w')
    /\ getTask "B" w' = (Returned (Some task), w').
Proof.
  destruct (createTask env_keyed buy_milk world_one_task) as [[task|e] w'] eqn:E;
    [|vm_compute in E; discriminate].
  destruct (createTask_then_getTask env_keyed buy_milk world_one_task task w' E
              (or_introl eq_refl)) as (Hget & _ & _ & Hid & _).
  exists task, w'. split; [reflexivity|].
  simpl in Hid. rewrite <- Hid. exact Hget.
Defined.

Lemma deleteTask_returned env i w w' :
  deleteTask env i w = (Returned true, w') ->
  exists row,
    select_first (task_has_id i) (tasks w) = Some row
    /\ tasks w'
       = update_where (task_has_id i) (write_delete (clock env (clock_reads w)))
           (tasks w).
Proof.
  intro E. pose proof (tasks_after_deleteTask env i w) as T.
  rewrite E in T. simpl in T.
  unfold deleteTask, bind at 1, get_task_row in E. simpl in E.
  destruct (select_first (task_has_id i) (tasks w)) as [row|]; [eauto|].
  discriminate.
Qed.

(** X11: after a [deleteTask] that returned true the task is a tombstone:
    [getTask] on its id returns null and [getAllTasks] lists no task with
    that id, while the row is still stored, flagged deleted and pending, and
    [getTasksNeedingSync] lists it. *)
Theorem deleteTask_leaves_tombstone (env : Env) (i : string) (w w' : World) :
  deleteTask env i w = (Returned true, w') ->
  getTask i w' = (Returned None, w')
  /\ (exists ts,
         getAllTasks w' = (Returned ts, w')
         /\ forall t, In t ts -> Task.id t <> i)
  /\ (exists row,
         select_first (task_has_id i) (tasks w') = Some row
         /\ TaskRow.is_deleted row = true
         /\ TaskRow.sync_status row = SyncStatus.pending)
  /\ (exists ts t,
         getTasksNeedingSync w' = (Returned ts, w')
         /\ In t ts /\ Task.id t = i /\ Task.is_deleted t = true).
Proof.
  intro E. destruct (deleteTask_returned env i w w' E) as (row & Hrow & Hrows).
  pose proof (select_first_has_id _ _ _ Hrow) as Hid.
  assert (Hrow' : select_first (task_has_id i) (tasks w')
                  = Some (write_delete (clock env (clock_reads w)) row)).
  { rewrite Hrows, select_first_update_where by reflexivity.
    rewrite Hrow. simpl. unfold task_has_id. now rewrite Hid, String.eqb_refl. }
  split; [|split; [|split]].
  - apply getTask_none. right. eexists. split; [exact Hrow' | reflexivity].
  - eexists. split; [reflexivity|]. intros t Ht Hti.
    apply in_map_iff in Ht. destruct Ht as (r' & <- & Hr').
    apply filter_In in Hr'. destruct Hr' as [Hin Hlive].
    rewrite Hrows in Hin. apply In_update_where in Hin.
    destruct Hin as (r & _ & ->). simpl in Hti.
    unfold not_deleted in Hlive.
    destruct (task_has_id i r) eqn:P; simpl in *; [discriminate|].
    unfold task_has_id in P. apply String.eqb_neq in P. contradiction.
  - eexists. split; [exact Hrow'|]. split; reflexivity.
  - eexists _, (rowToTask (write_delete (clock env (clock_reads w)) row)).
    split; [reflexivity|]. split; [|split; [exact Hid | reflexivity]].
    apply in_map. apply filter_In. split; [|reflexivity].
    apply find_some in Hrow'. tauto.
Qed.

Lemma deleteTask_leaves_tombstone_witness :
  getTask "A" (snd (deleteTask env_plain "A" world_one_task))
  = (Returned None, snd (deleteTask env_plain "A" world_one_task)).
Proof.
  apply (deleteTask_leaves_tombstone env_plain "A" world_one_task
           (snd (deleteTask env_plain "A" world_one_task))).
  reflexivity.
Defined.

Lemma updateTask_returned env i updates w updated w' :
  updateTask env i updates w = (Returned (Some updated), w') ->
  exists row,
    select_first (task_has_id i) (tasks w) = Some row
    /\ updated = spread (rowToTask row) updates (clock env (clock_reads w))
    /\ tasks w' = update_where (task_has_id i) (write_update updated) (tasks w).
Proof.
  intro E. pose proof (tasks_after_updateTask env i updates w) as T.
  rewrite E in T. simpl in T.
  unfold updateTask, bind at 1, get_task_row in E. simpl in E.
  destruct (select_first (task_has_id i) (tasks w)) as [row|]; [|discriminate].
  exists row. split; [reflexivity|].
  unfold bind at 1, new_Date in E. simpl in E.
  unfold bind at 1, update_tasks in E. simpl in E.
  unfold bind at 1 in E.
  match type of E with
  | context [addToSyncQueue env i ?op ?d ?w0] =>
      destruct (addToSyncQueue env i op d w0) as [[[]|e] w2]
  end; [|discriminate].
  unfold ret in E. inversion E; subst. split; [reflexivity | exact T].
Qed.

(** X12: what [updateTask] stores can be read back. After an [updateTask]
    that returned a task, the stored row has kept its [id], [created_at] and
    [last_synced_at]; the returned task has the clock's reading as
    [updated_at] and ['pending'] as [sync_status], whatever the request
    holds. When the returned task is not deleted, [getTask] on the id
    returns a task with that id, the stored [created_at], the clock's
    reading as [updated_at] and ['pending'] as [sync_status], whose [title]
    and [completed] are the values the request gave, where it gave a value.
    When the returned task is deleted, [getTask] returns null. *)
Theorem updateTask_then_getTask (env : Env) (i : string) (updates : PartialTask.t)
    (w : World) (updated : Task.t) (w' : World) (row : TaskRow.t) :
  updateTask env i updates w = (Returned (Some updated), w') ->
  select_first (task_has_id i) (tasks w) = Some row ->
  (exists row',
      select_first (task_has_id i) (tasks w') = Some row'
      /\ TaskRow.id row' = i
      /\ TaskRow.created_at row' = TaskRow.created_at row
      /\ TaskRow.last_synced_at row' = TaskRow.last_synced_at row)
  /\ Task.updated_at updated = clock env (clock_reads w)
  /\ Task.sync_status updated = SyncStatus.pending
  /\ (Task.is_deleted updated = false ->
      exists t,
        getTask i w' = (Returned (Some t), w')
        /\ Task.id t = i
        /\ Task.created_at t = TaskRow.created_at row
        /\ Task.is_deleted t = false
        /\ Task.updated_at t = clock env (clock_reads w)
        /\ Task.sync_status t = SyncStatus.pending
        /\ (forall ttl, PartialTask.title updates = Some ttl -> Task.title t = ttl)
        /\ (forall done,
               PartialTask.completed updates = Some done -> Task.completed t = done))
  /\ (Task.is_deleted updated = true -> getTask i w' = (Returned None, w')).
Proof.
  intros E Hrow.
  destruct (updateTask_returned env i updates w updated w' E)
    as (row0 & Hrow0 & Hupd & Hrows).
  rewrite Hrow in Hrow0. inversion Hrow0; subst row0. clear Hrow0.
  pose proof (select_first_has_id _ _ _ Hrow) as Hid.
  assert (Hrow' : select_first (task_has_id i) (tasks w')
                  = Some (write_update updated row)).
  { rewrite Hrows, select_first_update_where by reflexivity.
    rewrite Hrow. simpl. unfold task_has_id. now rewrite Hid, String.eqb_refl. }
  split; [eexists; split; [exact Hrow'|]; repeat split; exact Hid|].
  split; [rewrite Hupd; reflexivity|].
  split; [rewrite Hupd; reflexivity|].
  split.
  - intro Hd.
    rewrite (getTask_some i w' (write_update updated row) Hrow' Hd).
    eexists. split; [reflexivity|]. simpl.
    split; [exact Hid|]. split; [reflexivity|]. split; [exact Hd|].
    split; [rewrite Hupd; reflexivity|].
    split; [rewrite Hupd; reflexivity|].
    split; intros v Hv; rewrite Hupd; simpl; rewrite Hv; reflexivity.
  - intro Hd. apply getTask_none. right. eexists. split; [exact Hrow' | exact Hd].
Qed.

Lemma updateTask_then_getTask_witness :
  exists updated w' t,
    updateTask env_plain "A" mark_done world_one_task = (Returned (Some updated), w')
    /\ getTask "A" w' = (Returned (Some t), w')
    /\ Task.completed t = true.
Proof.
  destruct (updateTask env_plain "A" mark_done world_one_task)
    as [[[updated|]|e] w'] eqn:E;
    [|vm_compute in E; discriminate|vm_compute in E; discriminate].
  destruct (updateTask_then_getTask env_plain "A" mark_done world_one_task
              updated w'
              (TaskRow.mk "A" "buy milk" (Some "") false false 100 100
                 SyncStatus.pending None None)
              E eq_refl) as (_ & _ & _ & Hget & _).
  vm_compute in E. inversion E; subst.
  destruct (Hget eq_refl) as (t & Ht & _ & _ & _ & _ & _ & _ & Hc).
  eexists _, _, t. split; [reflexivity|]. split; [exact Ht|].
  apply Hc. reflexivity.
Defined.

Lemma updateTask_accepted env i updates w row :
  select_first (task_has_id i) (tasks w) = Some row ->
  enqueue_accepted env i w ->
  exists updated w',
    updateTask env i updates w = (Returned (Some updated), w')
    /\ updated = spread (rowToTask row) updates (clock env (clock_reads w))
    /\ sync_queue w'
       = sync_queue w
         ++ [SyncQueueItem.mk i i Operation.update
               (snapshot (Task.id updated) (Task.title updated)
                  (Task.description updated) (Task.completed updated)
                  (Task.updated_at updated) (Task.created_at updated)
                  (Task.is_deleted updated) (Task.server_id updated))
               (clock env (S (clock_reads w))) 0 None].
Proof.
  intros Hrow Hok.
  unfold updateTask, bind at 1, get_task_row. simpl. rewrite Hrow.
  unfold bind at 1, new_Date. simpl.
  unfold bind at 1, update_tasks. simpl.
  unfold bind at 1. rewrite addToSyncQueue_accepted by exact Hok.
  eexists _, _. split; [reflexivity|]. split; reflexivity.
Qed.

Lemma deleteTask_accepted env i w row :
  select_first (task_has_id i) (tasks w) = Some row ->
  enqueue_accepted env i w ->
  exists w' q,
    deleteTask env i w = (Returned true, w')
    /\ sync_queue w' = sync_queue w ++ [q]
    /\ SyncQueueItem.task_id q = i
    /\ SyncQueueItem.operation q = Operation.delete.
Proof.
  intros Hrow Hok.
  unfold deleteTask, bind at 1, get_task_row. simpl. rewrite Hrow.
  unfold bind at 1, new_Date. simpl.
  unfold bind at 1, update_tasks. simpl.
  unfold bind at 1. rewrite addToSyncQueue_accepted by exact Hok.
  eexists _, _. split; [reflexivity|]. repeat split.
Qed.

(** X13: [updateTask] and [deleteTask] look the row up without regard to
    [is_deleted]. On a soft-deleted task, which [getTask] reports as null,
    [updateTask] still returns a task, not null, and [deleteTask] returns
    true once more, each appending one queue entry, provided the queue
    accepts an entry with the task's id. *)
Theorem mutations_reach_soft_deleted (env : Env) (i : string)
    (updates : PartialTask.t) (w : World) (row : TaskRow.t) :
  select_first (task_has_id i) (tasks w) = Some row ->
  TaskRow.is_deleted row = true ->
  enqueue_accepted env i w ->
  getTask i w = (Returned None, w)
  /\ (exists updated w' q,
         updateTask env i updates w = (Returned (Some updated), w')
         /\ sync_queue w' = sync_queue w ++ [q]
         /\ SyncQueueItem.task_id q = i
         /\ SyncQueueItem.operation q = Operation.update)
  /\ (exists w' q,
         deleteTask env i w = (Returned true, w')
         /\ sync_queue w' = sync_queue w ++ [q]
         /\ SyncQueueItem.task_id q = i
         /\ SyncQueueItem.operation q = Operation.delete).
Proof.
  intros Hrow Hdel Hok. split; [|split].
  - apply getTask_none. right. eauto.
  - destruct (updateTask_accepted env i updates w row Hrow Hok)
      as (updated & w' & E & Hupd & Hq).
    exists updated, w'. eexists. split; [exact E|]. split; [exact Hq|].
    split; reflexivity.
  - exact (deleteTask_accepted env i w row Hrow Hok).
Qed.

Lemma mutations_reach_soft_deleted_witness :
  getTask "A" world_deleted_task = (Returned None, world_deleted_task)
  /\ exists w' q,
       deleteTask env_plain "A" world_deleted_task = (Returned true, w')
       /\ sync_queue w' = sync_queue world_deleted_task ++ [q]
       /\ SyncQueueItem.task_id q = "A"
       /\ SyncQueueItem.operation q = Operation.delete.
Proof.
  destruct (mutations_reach_soft_deleted env_plain "A" mark_done world_deleted_task
              (TaskRow.mk "A" "buy milk" (Some "") false true 100 120
                 SyncStatus.pending None None)
              eq_refl eq_refl eq_refl) as (Hget & _ & Hdel).
  split; [exact Hget | exact Hdel].
Defined.

(** ** Mutations that throw *)

(** X14: the row write of a mutation is not undone when its enqueue is
    refused. When the [INSERT] into [sync_queue] throws (the id is a key and
    an entry already has the task's id), [updateTask] and [deleteTask] on a
    stored task throw after the task row was rewritten: the row is pending,
    stamped with the clock's reading (and flagged deleted by [deleteTask]),
    and the queue is as it was. *)
Theorem mutation_throw_not_rolled_back (env : Env) (i : string) (w : World)
    (row : TaskRow.t) :
  select_first (task_has_id i) (tasks w) = Some row ->
  ~ enqueue_accepted env i w ->
  (forall updates,
      exists e w' row',
        updateTask env i updates w = (Thrown e, w')
        /\ sync_queue w' = sync_queue w
        /\ select_first (task_has_id i) (tasks w') = Some row'
        /\ TaskRow.sync_status row' = SyncStatus.pending
        /\ TaskRow.updated_at row' = clock env (clock_reads w))
  /\ (exists e w' row',
         deleteTask env i w = (Thrown e, w')
         /\ sync_queue w' = sync_queue w
         /\ select_first (task_has_id i) (tasks w') = Some row'
         /\ TaskRow.is_deleted row' = true
         /\ TaskRow.sync_status row' = SyncStatus.pending
         /\ TaskRow.updated_at row' = clock env (clock_reads w)).
Proof.
  intros Hrow Hno.
  assert (Hrefused : forall op d w0,
             sync_queue w0 = sync_queue w ->
             exists e,
               addToSyncQueue env i op d w0
               = (Thrown e,
                  mkWorld (tasks w0) (sync_queue w0) (S (clock_reads w0))
                    (uuid_draws w0))).
  { intros op d w0 Hq.
    unfold enqueue_accepted in Hno. apply not_false_is_true in Hno.
    unfold addToSyncQueue, bind, new_Date, insert_entry. simpl.
    rewrite Hq, Hno. eexists. reflexivity. }
  pose proof (select_first_has_id _ _ _ Hrow) as Hid.
  split.
  - intro updates.
    unfold updateTask, bind at 1, get_task_row. simpl. rewrite Hrow.
    unfold bind at 1, new_Date. simpl.
    unfold bind at 1, update_tasks. simpl.
    unfold bind at 1.
    match goal with
    | |- context [addToSyncQueue env i ?op ?d ?w0] =>
        destruct (Hrefused op d w0 eq_refl) as (e & ->)
    end.
    eexists _, _, _. split; [reflexivity|]. simpl. split; [reflexivity|].
    rewrite select_first_update_where by reflexivity. rewrite Hrow. simpl.
    unfold task_has_id. rewrite Hid, String.eqb_refl. repeat split.
  - unfold deleteTask, bind at 1, get_task_row. simpl. rewrite Hrow.
    unfold bind at 1, new_Date. simpl.
    unfold bind at 1, update_tasks. simpl.
    unfold bind at 1.
    match goal with
    | |- context [addToSyncQueue env i ?op ?d ?w0] =>
        destruct (Hrefused op d w0 eq_refl) as (e & ->)
    end.
    eexists _, _, _. split; [reflexivity|]. simpl. split; [reflexivity|].
    rewrite select_first_update_where by reflexivity. rewrite Hrow. simpl.
    unfold task_has_id. rewrite Hid, String.eqb_refl. repeat split.
Qed.

Lemma mutation_throw_not_rolled_back_witness :
  exists e w' row',
    updateTask env_keyed "A" mark_done
      (run env_keyed [CallCreate buy_milk] empty_world) = (Thrown e, w')
    /\ sync_queue w' = sync_queue (run env_keyed [CallCreate buy_milk] empty_world)
    /\ select_first (task_has_id "A") (tasks w') = Some row'
    /\ TaskRow.sync_status row' = SyncStatus.pending
    /\ TaskRow.updated_at row' = 120%Z.
Proof.
  destruct (mutation_throw_not_rolled_back env_keyed "A"
              (run env_keyed [CallCreate buy_milk] empty_world)
              (TaskRow.mk "A" "buy milk" (Some "") false false 100 100
                 SyncStatus.pending None None))
    as (Hupd & _).
  - reflexivity.
  - vm_compute. discriminate.
  - destruct (Hupd mark_done) as (e & w' & row' & E & Hq & Hrow' & Hp & Ht).
    exists e, w', row'. split; [exact E|]. split; [exact Hq|].
    split; [exact Hrow'|]. split; [exact Hp | exact Ht].
Defined.

(** ** Synced tasks and the queue *)

Lemma owner_add_row ts qs row :
  TaskRow.sync_status row <> SyncStatus.synced ->
  no_synced_owner ts qs -> no_synced_owner (ts ++ [row]) qs.
Proof.
  intros Hrow H q r Hq Hr Hid. apply in_app_or in Hr.
  destruct Hr as [Hr | [<- | []]]; [eapply H; eauto | exact Hrow].
Qed.

Lemma owner_add_entry ts qs q0 :
  (forall r, In r ts -> TaskRow.id r = SyncQueueItem.task_id q0 ->
             TaskRow.sync_status r <> SyncStatus.synced) ->
  no_synced_owner ts qs -> no_synced_owner ts (qs ++ [q0]).
Proof.
  intros H0 H q r Hq Hr Hid. apply in_app_or in Hq.
  destruct Hq as [Hq | [<- | []]]; [eapply H; eauto | eapply H0; eauto].
Qed.

Lemma owner_update_rows ts qs p f :
  (forall r, TaskRow.id (f r) = TaskRow.id r) ->
  (forall r, TaskRow.sync_status (f r) <> SyncStatus.synced) ->
  no_synced_owner ts qs -> no_synced_owner (update_where p f ts) qs.
Proof.
  intros Hid Hst H q r' Hq Hr' Hown.
  apply In_update_where in Hr'. destruct Hr' as (r & Hr & ->).
  destruct (p r); [apply Hst|]. eapply H; eauto.
Qed.

Lemma owner_retry ts qs p message :
  no_synced_owner ts qs -> no_synced_owner ts (update_where p (write_retry message) qs).
Proof.
  intros H q' r Hq' Hr Hown.
  apply In_update_where in Hq'. destruct Hq' as (q & Hq & ->).
  apply (H q r Hq Hr). destruct (p q); exact Hown.
Qed.

Lemma owner_delete ts qs p :
  no_synced_owner ts qs -> no_synced_owner ts (delete_where p qs).
Proof.
  intros H q r Hq Hr Hown. apply In_delete_where in Hq.
  eapply H; eauto. tauto.
Qed.

(** The step that makes a task ['synced'] deletes every entry it owns. *)
Lemma owner_resolved ts qs item f :
  Forall entry_id_is_task_id qs ->
  entry_id_is_task_id item ->
  (forall r, TaskRow.id (f r) = TaskRow.id r) ->
  no_synced_owner ts qs ->
  no_synced_owner
    (update_where (task_has_id (SyncQueueItem.task_id item)) f ts)
    (delete_where (entry_has_id (SyncQueueItem.id item)) qs).
Proof.
  intros Hids Hitem Hid H q r' Hq Hr' Hown.
  apply In_delete_where in Hq. destruct Hq as [Hq Hne].
  apply In_update_where in Hr'. destruct Hr' as (r & Hr & ->).
  destruct (task_has_id (SyncQueueItem.task_id item) r) eqn:P.
  - exfalso. unfold task_has_id in P. apply String.eqb_eq in P.
    rewrite Hid in Hown.
    rewrite Forall_forall in Hids. specialize (Hids q Hq).
    unfold entry_id_is_task_id in Hids, Hitem.
    unfold entry_has_id in Hne. apply String.eqb_neq in Hne.
    apply Hne. congruence.
  - eapply H; eauto.
Qed.

Lemma In_batch_of env w x : In x (batch_of env w) -> In x (sync_queue w).
Proof.
  unfold batch_of. rewrite map_item_of_row. intro H.
  destruct (limit_prefix (default 50%Z (SYNC_BATCH_SIZE env))
              (order_by_created_at (sync_queue w))) as (rest & Hsplit & _).
  apply (Permutation_in x (order_by_created_at_perm (sync_queue w))).
  rewrite Hsplit. apply in_or_app. now left.
Qed.

Section Settled.
Variable env : Env.

Lemma settled_refl w : settled_kept w w.
Proof. intro H. exact H. Qed.

Lemma settled_trans w1 w2 w3 :
  settled_kept w1 w2 -> settled_kept w2 w3 -> settled_kept w1 w3.
Proof. unfold settled_kept. auto. Qed.

Lemma settled_same {A} (m : M A) :
  (forall w, tasks (snd (m w)) = tasks w
             /\ sync_queue (snd (m w)) = sync_queue w) ->
  keeps settled_kept m.
Proof.
  intros H w. destruct (H w) as [Ht Hq].
  unfold settled_kept, settled, queue_ids_are_task_ids. now rewrite Ht, Hq.
Qed.

Lemma settled_new_Date : keeps settled_kept (new_Date env).
Proof. apply settled_same. intro. split; reflexivity. Qed.

Lemma settled_mark_error i now srv :
  keeps settled_kept (update_tasks i (write_status SyncStatus.error now srv)).
Proof.
  intros w [Hids Hown]. split; [exact Hids|]. simpl.
  apply owner_update_rows; [reflexivity | discriminate | exact Hown].
Qed.

Lemma settled_write_retry i e :
  keeps settled_kept (update_entries i (write_retry e)).
Proof.
  intros w [Hids Hown]. split.
  - now apply (ids_write_retry i e w).
  - simpl. now apply owner_retry.
Qed.

Lemma settled_handleSyncError item e :
  keeps settled_kept (handleSyncError env item e).
Proof.
  unfold handleSyncError.
  apply keeps_bind; [exact settled_trans | apply settled_write_retry | intros _].
  unfold updateSyncStatus.
  apply keeps_bind; [exact settled_trans | apply settled_new_Date | intro now].
  apply settled_mark_error.
Qed.

Lemma settled_failed item e (t : Z -> Tally) :
  keeps settled_kept
    (handleSyncError env item e ;;; ts <- new_Date env ;; ret (t ts)).
Proof.
  apply keeps_bind; [exact settled_trans | apply settled_handleSyncError | intros _].
  apply keeps_bind; [exact settled_trans | apply settled_new_Date | intro ts].
  apply keeps_ret. exact settled_refl.
Qed.

Lemma settled_reconcile items acc v :
  Forall entry_id_is_task_id items ->
  keeps settled_kept (reconcile env items acc v).
Proof.
  intro Hitems. unfold reconcile, find_item.
  destruct (find _ items) as [item|] eqn:F;
    [|apply keeps_ret; exact settled_refl].
  assert (Hitem : entry_id_is_task_id item).
  { apply find_some in F. rewrite Forall_forall in Hitems. apply Hitems, F. }
  destruct (ProcessedItem.status v =? "success").
  { intros w [Hids Hown]. simpl. split.
    - now apply (ids_delete_entries (SyncQueueItem.id item)
                   (tick (set_tasks _ w))).
    - simpl. apply owner_resolved; auto. }
  destruct (ProcessedItem.status v =? "conflict"); [|apply settled_failed].
  intro w. unfold bind at 1.
  destruct (getTask (SyncQueueItem.task_id item) w) as [x w1] eqn:G.
  destruct (getTask_reads (SyncQueueItem.task_id item) w) as [y Gy].
  rewrite Gy in G. inversion G; subst x w1. clear G.
  destruct y as [l|]; [|apply settled_failed].
  destruct (ProcessedItem.resolved_data v) as [resolved|]; [|apply settled_failed].
  assert (Hl : fst (getTask (SyncQueueItem.task_id item) w) = Returned (Some l))
    by (now rewrite Gy).
  apply getTask_found in Hl. destruct Hl as (r & Hr & _ & ->).
  apply select_first_has_id in Hr.
  intros [Hids Hown]. simpl. rewrite Hr. split.
  - now apply (ids_delete_entries (SyncQueueItem.id item) (set_tasks _ w)).
  - simpl. apply owner_resolved; auto.
Qed.

Lemma settled_pass net items :
  Forall entry_id_is_task_id items ->
  keeps settled_kept
    (try_or_return (processBatch env net items) (batch_failed env items)
       (fun response =>
          match response with
          | None =>
              fun w =>
                (Thrown "TypeError: response.processed_items is not iterable", w)
          | Some processed_items =>
              t <- for_of processed_items (reconcile env items) (mkTally 0 0 []) ;;
              ret (SyncResult.mk (failed t =? 0)%nat (synced t) (failed t)
                     (errors t))
          end)).
Proof.
  intro Hitems.
  apply keeps_try_or_return; [exact settled_trans | | |].
  - unfold processBatch.
    apply keeps_bind; [exact settled_trans | apply settled_new_Date | intro ts].
    destruct (post_batch net items ts);
      [intro w; apply settled_refl | apply keeps_ret; exact settled_refl
      | apply keeps_ret; exact settled_refl].
  - intro e. unfold batch_failed.
    apply keeps_bind; [exact settled_trans | | intros _].
    + apply keeps_for_of; [exact settled_refl | exact settled_trans |].
      intros _ x. apply settled_handleSyncError.
    + apply keeps_bind; [exact settled_trans | | intro; apply keeps_ret; exact settled_refl].
      apply keeps_map_M; [exact settled_refl | exact settled_trans |].
      intro x.
      apply keeps_bind; [exact settled_trans | apply settled_new_Date | intro].
      apply keeps_ret. exact settled_refl.
  - intros [ps|]; [|intro w; apply settled_refl].
    apply keeps_bind; [exact settled_trans | | intro; apply keeps_ret; exact settled_refl].
    apply keeps_for_of; [exact settled_refl | exact settled_trans |].
    intros s x. now apply settled_reconcile.
Qed.

Lemma settled_sync net : keeps settled_kept (sync env net).
Proof.
  intros w Hs. unfold sync, bind at 1, checkConnectivity, ret.
  destruct (negb (health net)); [exact Hs|].
  unfold bind at 1, select_batch. fold (batch_of env w).
  destruct (List.length _ =? 0)%nat; [exact Hs|].
  apply (settled_pass net (batch_of env w)); [|exact Hs].
  apply Forall_forall. intros x Hx. apply In_batch_of in Hx.
  destruct Hs as [Hids _]. unfold queue_ids_are_task_ids in Hids.
  rewrite Forall_forall in Hids. auto.
Qed.

(** A mutation's row write followed by its enqueue. *)
Lemma settled_rewrite_and_enqueue {A} i f op d (a : A) :
  (forall r, TaskRow.id (f r) = TaskRow.id r) ->
  (forall r, TaskRow.sync_status (f r) = SyncStatus.pending) ->
  keeps settled_kept
    (update_tasks i f ;;; addToSyncQueue env i op d ;;; ret a).
Proof.
  intros Hid Hst w [Hids Hown].
  assert (Hown1 : no_synced_owner (update_where (task_has_id i) f (tasks w))
                    (sync_queue w)).
  { apply owner_update_rows; auto. intro r. rewrite Hst. discriminate. }
  unfold bind at 1, update_tasks. simpl. unfold bind at 1.
  match goal with
  | |- context [addToSyncQueue env i op d ?w0] =>
      destruct (addToSyncQueue env i op d w0) as [[[]|e] w2] eqn:Q
  end; simpl.
  - apply addToSyncQueue_returned in Q. destruct Q as [Qt Qq]. simpl in Qt, Qq.
    unfold settled, queue_ids_are_task_ids. rewrite Qt, Qq. split.
    + apply Forall_app. split; [exact Hids|].
      constructor; [reflexivity | constructor].
    + apply owner_add_entry; [|exact Hown1].
      simpl. intros r' Hr' Hi.
      apply In_update_where in Hr'. destruct Hr' as (r & _ & ->).
      destruct (task_has_id i r) eqn:P; [rewrite Hst; discriminate|].
      unfold task_has_id in P. apply String.eqb_neq in P. contradiction.
  - apply addToSyncQueue_thrown in Q. destruct Q as [Qt Qq]. simpl in Qt, Qq.
    unfold settled, queue_ids_are_task_ids. rewrite Qt, Qq. split; assumption.
Qed.

Lemma settled_after c w :
  uuid_is_fresh env c w -> settled_kept w (after env c w).
Proof.
  intro Hfresh. destruct c as [taskData | i updates | i | net]; simpl.
  - intros [Hids Hown]. simpl in Hfresh.
    unfold createTask, bind at 1, new_Date. simpl.
    unfold bind at 1, uuidv4. simpl.
    unfold bind at 1, insert_task. simpl.
    destruct (tasks_id_key env && _) eqn:K; simpl; [split; assumption|].
    assert (Hnone : forall r, In r (tasks w) ->
                      TaskRow.id r <> uuid env (uuid_draws w)).
    { intros r Hr Hi.
      assert (Hf : select_first (task_has_id (uuid env (uuid_draws w))) (tasks w)
                   = None).
      { destruct Hfresh as [Hk | Hf]; [|exact Hf].
        rewrite Hk in K. simpl in K. now apply select_first_none_existsb. }
      apply (find_none _ _ Hf r) in Hr. unfold task_has_id in Hr.
      apply String.eqb_neq in Hr. contradiction. }
    unfold bind at 1.
    match goal with
    | |- context [addToSyncQueue env ?i ?op ?d ?w0] =>
        destruct (addToSyncQueue env i op d w0) as [[[]|e] w2] eqn:Q
    end; simpl.
    + apply addToSyncQueue_returned in Q. destruct Q as [Qt Qq]. simpl in Qt, Qq.
      unfold settled, queue_ids_are_task_ids. rewrite Qt, Qq. split.
      * apply Forall_app. split; [exact Hids|].
        constructor; [reflexivity | constructor].
      * apply owner_add_entry; [|apply owner_add_row; [discriminate | exact Hown]].
        simpl. intros r Hr Hi. apply in_app_or in Hr.
        destruct Hr as [Hr | [<- | []]]; [|discriminate].
        exfalso. exact (Hnone r Hr Hi).
    + apply addToSyncQueue_thrown in Q. destruct Q as [Qt Qq]. simpl in Qt, Qq.
      unfold settled, queue_ids_are_task_ids. rewrite Qt, Qq. split; [exact Hids|].
      apply owner_add_row; [discriminate | exact Hown].
  - unfold updateTask.
    apply keeps_bind; [exact settled_trans | | ].
    { apply settled_same. intro. split; reflexivity. }
    intros [row|]; [|apply keeps_ret; exact settled_refl].
    apply keeps_bind; [exact settled_trans | apply settled_new_Date | intro now].
    apply settled_rewrite_and_enqueue; reflexivity.
  - unfold deleteTask.
    apply keeps_bind; [exact settled_trans | | ].
    { apply settled_same. intro. split; reflexivity. }
    intros [row|]; [|apply keeps_ret; exact settled_refl].
    apply keeps_bind; [exact settled_trans | apply settled_new_Date | intro now].
    apply settled_rewrite_and_enqueue; reflexivity.
  - apply settled_sync.
Qed.

End Settled.

(** X15: a task marked ['synced'] has nothing left in the queue. Starting
    from a state where every entry carries its task's id and no synced task
    owns an entry (the empty state, for instance), and as long as
    [createTask] never draws an id that is already stored, after any calls
    on the two services no queue entry belongs to a task row whose
    [sync_status] is ['synced']: the two steps of [sync] that mark a task
    synced delete every entry with the item's id, which is the task's. *)
Theorem synced_task_has_no_entry (env : Env) (cs : list Call) (w : World) :
  settled w ->
  uuids_are_fresh env cs w ->
  settled (run env cs w)
  /\ forall r q,
       In r (tasks (run env cs w)) ->
       TaskRow.sync_status r = SyncStatus.synced ->
       In q (sync_queue (run env cs w)) ->
       SyncQueueItem.task_id q <> TaskRow.id r.
Proof.
  intros Hw Hfresh.
  assert (Hrun : settled (run env cs w)).
  { revert w Hw Hfresh. unfold run.
    induction cs as [|c cs IH]; simpl; intros w Hw Hfresh; [exact Hw|].
    destruct Hfresh as [Hc Hcs]. apply IH; [|exact Hcs].
    exact (settled_after env c w Hc Hw). }
  split; [exact Hrun|].
  intros r q Hr Hs Hq Hown. destruct Hrun as [_ Hno].
  apply (Hno q r Hq Hr); [now symmetry | exact Hs].
Qed.

Lemma synced_task_has_no_entry_witness :
  settled
    (run env_plain
       [CallCreate buy_milk; CallUpdate "A" mark_done; CallCreate buy_milk;
        CallSync accept_first; CallDelete "B"]
       empty_world).
Proof.
  apply (synced_task_has_no_entry env_plain
           [CallCreate buy_milk; CallUpdate "A" mark_done; CallCreate buy_milk;
            CallSync accept_first; CallDelete "B"]
           empty_world).
  - split; [constructor | intros q r []].
  - simpl. repeat split; left; reflexivity.
Defined.

(** ** What a pass leaves alone *)

Lemma same_identity_refl r : same_identity r r.
Proof. repeat split. Qed.

Lemma rows_kept_refl w : rows_kept w w.
Proof. apply Forall2_same, same_identity_refl. Qed.

Lemma rows_kept_trans w1 w2 w3 : rows_kept w1 w2 -> rows_kept w2 w3 -> rows_kept w1 w3.
Proof.
  unfold rows_kept. apply Forall2_compose.
  intros a b c (H1 & H2 & H3) (H4 & H5 & H6). repeat split; congruence.
Qed.

Lemma rows_kept_same {A} (m : M A) :
  (forall w, tasks (snd (m w)) = tasks w) -> keeps rows_kept m.
Proof. intros H w. unfold rows_kept. rewrite H. apply rows_kept_refl. Qed.

Lemma rows_kept_update i f :
  (forall r, same_identity r (f r)) -> keeps rows_kept (update_tasks i f).
Proof.
  intros Hf w. unfold rows_kept. simpl. apply Forall2_update_where.
  intro r. destruct (task_has_id i r); [apply Hf | apply same_identity_refl].
Qed.

(** X16: a pass of [sync] neither adds nor removes a task row, and changes
    no row's [id], [created_at] or [is_deleted]: whatever the remote
    answers, the rows after the pass are the rows before it, in order, with
    those three columns as they were. *)
Theorem sync_keeps_task_rows (env : Env) (net : Remote) (w : World) :
  Forall2 same_identity (tasks w) (tasks (snd (sync env net w))).
Proof.
  apply (keeps_sync rows_kept rows_kept_refl rows_kept_trans env).
  - apply rows_kept_same. reflexivity.
  - intros. apply rows_kept_update. intro r. repeat split.
  - intros. apply rows_kept_same. reflexivity.
  - intros. apply rows_kept_same. reflexivity.
  - intros. apply (rows_kept_update (Task.id l)). intro r. repeat split.
Qed.

Lemma descends_refl q : descends_from q q.
Proof. repeat split. lia. Qed.

Lemma queue_shrinks_refl w : queue_shrinks w w.
Proof. split; [lia|]. intros q Hq. exists q. split; [exact Hq | apply descends_refl]. Qed.

Lemma queue_shrinks_trans w1 w2 w3 :
  queue_shrinks w1 w2 -> queue_shrinks w2 w3 -> queue_shrinks w1 w3.
Proof.
  intros [L12 H12] [L23 H23]. split; [lia|].
  intros q3 H3. destruct (H23 q3 H3) as (q2 & H2 & D23).
  destruct (H12 q2 H2) as (q1 & H1 & D12).
  exists q1. split; [exact H1|].
  destruct D12 as (? & ? & ? & ? & ? & ?), D23 as (? & ? & ? & ? & ? & ?).
  repeat split; try congruence. lia.
Qed.

Lemma queue_shrinks_same {A} (m : M A) :
  (forall w, sync_queue (snd (m w)) = sync_queue w) -> keeps queue_shrinks m.
Proof.
  intros H w. unfold queue_shrinks. rewrite H. apply queue_shrinks_refl.
Qed.

Lemma queue_shrinks_write_retry i e :
  keeps queue_shrinks (update_entries i (write_retry e)).
Proof.
  intro w. split; simpl.
  - unfold update_where. rewrite length_map. lia.
  - intros q' Hq'. apply In_update_where in Hq'. destruct Hq' as (q & Hq & ->).
    exists q. split; [exact Hq|].
    destruct (entry_has_id i q); [|apply descends_refl].
    repeat split. simpl. lia.
Qed.

Lemma queue_shrinks_delete_entries i : keeps queue_shrinks (delete_entries i).
Proof.
  intro w. split; simpl.
  - unfold delete_where. apply filter_length_le.
  - intros q Hq. apply In_delete_where in Hq. exists q.
    split; [tauto | apply descends_refl].
Qed.

Lemma queue_shrinks_sync env net : keeps queue_shrinks (sync env net).
Proof.
  apply (keeps_sync queue_shrinks queue_shrinks_refl queue_shrinks_trans env).
  - apply queue_shrinks_same. reflexivity.
  - intros. apply queue_shrinks_same. reflexivity.
  - apply queue_shrinks_write_retry.
  - apply queue_shrinks_delete_entries.
  - intros. apply (queue_shrinks_same (update_tasks (Task.id l) _)). reflexivity.
Qed.

(** X17: passes of [sync] never add a queue entry. After any number of
    passes, whatever the remote answers in each, the queue holds no more
    entries than before, and every entry left (so every entry a later pass
    submits) is an entry of the initial queue with its [id], [task_id],
    [operation], [data] and [created_at] unchanged and a [retry_count] that
    did not decrease. An id that has left the queue comes back only through
    a new mutation. *)
Theorem sync_never_adds_entries (env : Env) (nets : list Remote) (w : World) :
  let w' := run env (map CallSync nets) w in
  List.length (sync_queue w') <= List.length (sync_queue w)
  /\ (forall q', In q' (sync_queue w') ->
                 exists q, In q (sync_queue w) /\ descends_from q q')
  /\ (forall x, In x (batch_of env w') ->
                exists q, In q (sync_queue w) /\ descends_from q x).
Proof.
  assert (H : queue_shrinks w (run env (map CallSync nets) w)).
  { revert w. unfold run. induction nets as [|net nets IH]; intro w; simpl.
    - apply queue_shrinks_refl.
    - eapply queue_shrinks_trans; [apply (queue_shrinks_sync env net w) | apply IH]. }
  destruct H as [Hlen Hin]. split; [exact Hlen|]. split; [exact Hin|].
  intros x Hx. apply Hin. now apply (In_batch_of env).
Qed.

(** ** What a mutation leaves alone *)

Lemma queue_after_addToSyncQueue env i op d w :
  exists entries,
    sync_queue (snd (addToSyncQueue env i op d w)) = sync_queue w ++ entries
    /\ List.length entries <= 1.
Proof.
  unfold addToSyncQueue, bind, new_Date, insert_entry. simpl.
  destruct (_ && _); simpl.
  - exists []. split; [now rewrite app_nil_r | simpl; lia].
  - eexists. split; [reflexivity | simpl; lia].
Qed.

Lemma same_unless_update i f l :
  (forall r, TaskRow.id (f r) = TaskRow.id r) ->
  Forall2 (same_unless i) l (update_where (task_has_id i) f l).
Proof.
  intro Hid. apply Forall2_update_where. intro r. unfold same_unless.
  destruct (task_has_id i r) eqn:P; [|split; reflexivity].
  split; [apply Hid|]. intro Hne. exfalso. apply Hne.
  unfold task_has_id in P. now apply String.eqb_eq in P.
Qed.

(** X18: a mutation touches one task and only appends to the queue, whether
    it returns or throws. [createTask] leaves every stored row as it is and
    adds at most one row; [updateTask] and [deleteTask] on id [i] keep the
    rows in place and leave every row of another id untouched; each of the
    three leaves the existing queue entries as they are and appends at most
    one. *)
Theorem mutations_touch_one_task (env : Env) (w : World) :
  (forall taskData,
      exists rows entries,
        tasks (after env (CallCreate taskData) w) = tasks w ++ rows
        /\ List.length rows <= 1
        /\ sync_queue (after env (CallCreate taskData) w) = sync_queue w ++ entries
        /\ List.length entries <= List.length rows)
  /\ (forall i updates,
         Forall2 (same_unless i) (tasks w) (tasks (after env (CallUpdate i updates) w))
         /\ exists entries,
              sync_queue (after env (CallUpdate i updates) w)
              = sync_queue w ++ entries
              /\ List.length entries <= 1)
  /\ (forall i,
         Forall2 (same_unless i) (tasks w) (tasks (after env (CallDelete i) w))
         /\ exists entries,
              sync_queue (after env (CallDelete i) w) = sync_queue w ++ entries
              /\ List.length entries <= 1).
Proof.
  split; [|split].
  - intro taskData. simpl.
    remember (createTask env taskData w) as res eqn:E.
    unfold createTask, bind at 1, new_Date in E. simpl in E.
    unfold bind at 1, uuidv4 in E. simpl in E.
    unfold bind at 1, insert_task in E. simpl in E.
    destruct (tasks_id_key env && _).
    + subst res. exists [], []. rewrite !app_nil_r. simpl. repeat split; lia.
    + simpl in E. unfold bind at 1 in E.
      match type of E with
      | context [addToSyncQueue env ?i ?op ?d ?w0] =>
          pose proof (tasks_after_addToSyncQueue env i op d w0) as T;
          destruct (queue_after_addToSyncQueue env i op d w0) as (entries & Q & L);
          destruct (addToSyncQueue env i op d w0) as [[[]|e] w2]
      end; subst res; simpl in *; eexists _, entries; rewrite T, Q;
        (split; [reflexivity|]); simpl; (split; [lia|]); split; auto.
  - intros i updates. simpl. split.
    + rewrite tasks_after_updateTask.
      destruct (select_first (task_has_id i) (tasks w)).
      * apply same_unless_update. reflexivity.
      * apply Forall2_same. intro r. split; reflexivity.
    + unfold updateTask, bind at 1, get_task_row. simpl.
      destruct (select_first (task_has_id i) (tasks w)) as [row|]; simpl;
        [|exists []; split; [now rewrite app_nil_r | simpl; lia]].
      unfold bind at 1, new_Date. simpl.
      unfold bind at 1, update_tasks. simpl.
      unfold bind at 1.
      match goal with
      | |- context [addToSyncQueue env i ?op ?d ?w0] =>
          destruct (queue_after_addToSyncQueue env i op d w0) as (entries & Q & L);
          destruct (addToSyncQueue env i op d w0) as [[[]|e] w2]
      end; simpl in *; exists entries; split; auto.
  - intros i. simpl. split.
    + rewrite tasks_after_deleteTask.
      destruct (select_first (task_has_id i) (tasks w)).
      * apply same_unless_update. reflexivity.
      * apply Forall2_same. intro r. split; reflexivity.
    + unfold deleteTask, bind at 1, get_task_row. simpl.
      destruct (select_first (task_has_id i) (tasks w)) as [row|]; simpl;
        [|exists []; split; [now rewrite app_nil_r | simpl; lia]].
      unfold bind at 1, new_Date. simpl.
      unfold bind at 1, update_tasks. simpl.
      unfold bind at 1.
      match goal with
      | |- context [addToSyncQueue env i ?op ?d ?w0] =>
          destruct (queue_after_addToSyncQueue env i op d w0) as (entries & Q & L);
          destruct (addToSyncQueue env i op d w0) as [[[]|e] w2]
      end; simpl in *; exists entries; split; auto.
Qed.

(** * Verdicts within a pass *)

(** The effect of a verdict is stated on [sync] by comparing two passes from
    the same state: the pass answered by the verdicts that come before it in
    the response, which leaves the state the loop is in when it reaches the
    verdict, and the pass answered by those verdicts and the verdict
    itself. *)

Lemma for_of_app {A S} (body : S -> A -> M S) (xs ys : list A) :
  forall acc w,
    for_of (xs ++ ys) body acc w
    = match for_of xs body acc w with
      | (Returned a, w1) => for_of ys body a w1
      | (Thrown e, w1) => (Thrown e, w1)
      end.
Proof.
  induction xs as [|x xs IH]; intros acc w; simpl; [reflexivity|].
  unfold bind. destruct (body acc x w) as [[a|e] w1]; [apply IH | reflexivity].
Qed.

Lemma pass_answered (env : Env) (net : Remote) (w : World)
    (verdicts : list ProcessedItem.t) :
  health net = true ->
  batch_of env w <> [] ->
  post_batch net (batch_of env w) (clock env (clock_reads w)) = PostReturns verdicts ->
  exists t w',
    for_of verdicts (reconcile env (batch_of env w)) (mkTally 0 0 []) (tick w)
    = (Returned t, w')
    /\ sync env net w = (Returned (tally_result t), w').
Proof.
  intros Hup Hne Hpost.
  rewrite (sync_runs_reconcile env net w verdicts Hup Hne Hpost).
  fold (batch_of env w). fold (tick w).
  destruct (reconcile_loop_counts env (batch_of env w) verdicts (mkTally 0 0 [])
              (tick w)) as (t & w' & E & _).
  exists t, w'. split; [exact E|]. unfold bind. rewrite E. reflexivity.
Qed.

Lemma pass_one_more (env : Env) (net : Remote) (w : World)
    (before : list ProcessedItem.t) (v : ProcessedItem.t) :
  health net = true ->
  batch_of env w <> [] ->
  post_batch net (batch_of env w) (clock env (clock_reads w))
  = PostReturns (before ++ [v]) ->
  exists t1 w1 t2 w2,
    sync env (answering before) w = (Returned (tally_result t1), w1)
    /\ reconcile env (batch_of env w) t1 v w1 = (Returned t2, w2)
    /\ sync env net w = (Returned (tally_result t2), w2).
Proof.
  intros Hup Hne Hpost.
  destruct (pass_answered env (answering before) w before eq_refl Hne eq_refl)
    as (t1 & w1 & E1 & S1).
  destruct (pass_answered env net w (before ++ [v]) Hup Hne Hpost)
    as (t2 & w2 & E2 & S2).
  exists t1, w1, t2, w2. split; [exact S1|]. split; [|exact S2].
  rewrite for_of_app, E1 in E2. simpl in E2. unfold bind, ret in E2.
  destruct (reconcile env (batch_of env w) t1 v w1) as [[a|e] w3];
    [|discriminate].
  inversion E2. reflexivity.
Qed.

(** C6: for every verdict with status ['success'] that names a submitted
    entry, wherever it stands in the response: compared with the pass
    answered by the verdicts before it, the pass of [sync] answered by
    those verdicts and this one has marked the owning task [synced], set
    its [last_synced_at], taken the verdict's [server_id] when there is one
    and otherwise kept the stored one (a stored [server_id] is never
    replaced by null), deleted the queue entry, and returns a result with
    one more synced item, the same failed items and the same errors. *)
Theorem sync_success_verdict (env : Env) (net : Remote) (w : World)
    (before : list ProcessedItem.t) (v : ProcessedItem.t) (item : SyncQueueItem.t) :
  health net = true ->
  batch_of env w <> [] ->
  post_batch net (batch_of env w) (clock env (clock_reads w))
  = PostReturns (before ++ [v]) ->
  find_item (batch_of env w) v = Some item ->
  ProcessedItem.status v = "success" ->
  exists r1 w1 r2 w2,
    sync env (answering before) w = (Returned r1, w1)
    /\ sync env net w = (Returned r2, w2)
    /\ (forall r,
           select_first (task_has_id (SyncQueueItem.task_id item)) (tasks w1) = Some r ->
           exists r',
             select_first (task_has_id (SyncQueueItem.task_id item)) (tasks w2) = Some r'
             /\ TaskRow.sync_status r' = SyncStatus.synced
             /\ TaskRow.last_synced_at r' = Some (clock env (clock_reads w1))
             /\ (forall s, ProcessedItem.server_id v = Some s ->
                           TaskRow.server_id r' = Some s)
             /\ (ProcessedItem.server_id v = None ->
                 TaskRow.server_id r' = TaskRow.server_id r)
             /\ (TaskRow.server_id r <> None -> TaskRow.server_id r' <> None))
    /\ (forall q, In q (sync_queue w2) <->
                  In q (sync_queue w1) /\ SyncQueueItem.id q <> SyncQueueItem.id item)
    /\ SyncResult.synced_items r2 = SyncResult.synced_items r1 + 1
    /\ SyncResult.failed_items r2 = SyncResult.failed_items r1
    /\ SyncResult.errors r2 = SyncResult.errors r1.
Proof.
  intros Hup Hne Hpost Hfind Hst.
  destruct (pass_one_more env net w before v Hup Hne Hpost)
    as (t1 & w1 & t2 & w2 & S1 & Hstep & S2).
  destruct (reconcile_success env (batch_of env w) t1 v item w1 Hfind Hst)
    as (t2' & w2' & E & Htask & Hq & Hs & Hf & He).
  rewrite Hstep in E. inversion E; subst t2' w2'.
  exists (tally_result t1), w1, (tally_result t2), w2.
  split; [exact S1|]. split; [exact S2|]. split; [exact Htask|].
  split; [exact Hq|]. simpl. repeat split; assumption.
Qed.

Lemma sync_success_verdict_witness :
  exists r2 w2,
    sync env_plain accept_first world_one_task = (Returned r2, w2)
    /\ SyncResult.synced_items r2 = 1
    /\ (forall q, In q (sync_queue w2) -> SyncQueueItem.id q <> "A")
    /\ exists r',
         select_first (task_has_id "A") (tasks w2) = Some r'
         /\ TaskRow.sync_status r' = SyncStatus.synced
         /\ TaskRow.server_id r' = Some "srv-1".
Proof.
  destruct (sync_success_verdict env_plain accept_first world_one_task []
              verdict_accepted
              (SyncQueueItem.mk "A" "A" Operation.create
                 (snapshot "A" "buy milk" (Some "") false 100 100 false None)
                 110 0 None))
    as (r1 & w1 & r2 & w2 & S1 & S2 & Htask & Hq & Hs & _).
  - reflexivity.
  - discriminate.
  - reflexivity.
  - reflexivity.
  - reflexivity.
  - vm_compute in S1. inversion S1; subst r1 w1. clear S1.
    exists r2, w2. split; [exact S2|]. split; [exact Hs|].
    split; [intros q Hin; apply Hq in Hin; exact (proj2 Hin)|].
    destruct (Htask _ eq_refl) as (r' & Hr' & Hsync & _ & Hsrv & _).
    exists r'. split; [exact Hr'|]. split; [exact Hsync|].
    exact (Hsrv "srv-1" eq_refl).
Defined.

(** C8: for every verdict with status ['conflict'] that names a submitted
    entry, wherever it stands in the response, when at that point the local
    task is gone (no row, or a soft-deleted one) or the verdict carries no
    resolved snapshot: compared with the pass answered by the verdicts
    before it, the pass of [sync] answered by those verdicts and this one
    has kept every queue entry in place, raised by exactly one the
    [retry_count] of the entry and set its [error_message], marked the task
    ['error'], and returns a result with one more failed item, one more
    error record and [success = false]. *)
Theorem sync_conflict_unresolved_verdict (env : Env) (net : Remote) (w : World)
    (before : list ProcessedItem.t) (v : ProcessedItem.t) (item : SyncQueueItem.t) :
  health net = true ->
  batch_of env w <> [] ->
  post_batch net (batch_of env w) (clock env (clock_reads w))
  = PostReturns (before ++ [v]) ->
  find_item (batch_of env w) v = Some item ->
  ProcessedItem.status v = "conflict" ->
  no_local_task (SyncQueueItem.task_id item) (snd (sync env (answering before) w))
  \/ ProcessedItem.resolved_data v = None ->
  exists r1 w1 r2 w2 ts,
    sync env (answering before) w = (Returned r1, w1)
    /\ sync env net w = (Returned r2, w2)
    /\ Forall2 (retried (SyncQueueItem.id item) "Conflict unresolved")
         (sync_queue w1) (sync_queue w2)
    /\ (forall r,
           select_first (task_has_id (SyncQueueItem.task_id item)) (tasks w1) = Some r ->
           exists r',
             select_first (task_has_id (SyncQueueItem.task_id item)) (tasks w2) = Some r'
             /\ TaskRow.sync_status r' = SyncStatus.error)
    /\ SyncResult.synced_items r2 = SyncResult.synced_items r1
    /\ SyncResult.failed_items r2 = SyncResult.failed_items r1 + 1
    /\ SyncResult.errors r2
       = SyncResult.errors r1
         ++ [SyncError.mk (SyncQueueItem.task_id item)
               (SyncQueueItem.operation item) "Conflict unresolved" ts]
    /\ SyncResult.success r2 = false.
Proof.
  intros Hup Hne Hpost Hfind Hst Hno.
  destruct (pass_one_more env net w before v Hup Hne Hpost)
    as (t1 & w1 & t2 & w2 & S1 & Hstep & S2).
  rewrite S1 in Hno. simpl in Hno.
  destruct (reconcile_conflict_unresolved env (batch_of env w) t1 v item w1
              Hfind Hst Hno)
    as (t2' & w2' & ts & E & Hq & Htask & Hs & Hf & He).
  rewrite Hstep in E. inversion E; subst t2' w2'.
  exists (tally_result t1), w1, (tally_result t2), w2, ts.
  split; [exact S1|]. split; [exact S2|]. split; [exact Hq|].
  split; [exact Htask|]. simpl. rewrite Hf.
  repeat split; try assumption.
  apply Nat.eqb_neq. lia.
Qed.

Lemma sync_conflict_unresolved_verdict_witness :
  exists r2 w2,
    sync env_plain (answering [verdict_conflict_no_data]) world_one_task
    = (Returned r2, w2)
    /\ SyncResult.failed_items r2 = 1
    /\ SyncResult.success r2 = false
    /\ Forall2 (retried "A" "Conflict unresolved")
         (sync_queue world_one_task) (sync_queue w2).
Proof.
  destruct (sync_conflict_unresolved_verdict env_plain
              (answering [verdict_conflict_no_data]) world_one_task []
              verdict_conflict_no_data
              (SyncQueueItem.mk "A" "A" Operation.create
                 (snapshot "A" "buy milk" (Some "") false 100 100 false None)
                 110 0 None))
    as (r1 & w1 & r2 & w2 & ts & S1 & S2 & Hq & _ & _ & Hf & _ & Hsucc).
  - reflexivity.
  - discriminate.
  - reflexivity.
  - reflexivity.
  - reflexivity.
  - right. reflexivity.
  - vm_compute in S1. inversion S1; subst r1 w1. clear S1.
    exists r2, w2. split; [exact S2|]. split; [exact Hf|].
    split; [exact Hsucc | exact Hq].
Defined.

(** X2: for every verdict that names a submitted entry and whose status is
    neither ['success'] nor ['conflict'], wherever it stands in the
    response: compared with the pass answered by the verdicts before it,
    the pass of [sync] answered by those verdicts and this one has kept
    every queue entry in place, raised by one the [retry_count] of the
    entries with the item's id and recorded on them the verdict's [error]
    text (['sync error'] when the text is absent or empty), marked the task
    ['error'] and stamped its [last_synced_at] while leaving its
    [server_id] and [updated_at] alone, and returns a result with one more
    failed item, one more error record and [success = false]. *)
Theorem sync_rejected_verdict (env : Env) (net : Remote) (w : World)
    (before : list ProcessedItem.t) (v : ProcessedItem.t) (item : SyncQueueItem.t) :
  health net = true ->
  batch_of env w <> [] ->
  post_batch net (batch_of env w) (clock env (clock_reads w))
  = PostReturns (before ++ [v]) ->
  find_item (batch_of env w) v = Some item ->
  ProcessedItem.status v <> "success" ->
  ProcessedItem.status v <> "conflict" ->
  exists r1 w1 r2 w2 message ts,
    sync env (answering before) w = (Returned r1, w1)
    /\ sync env net w = (Returned r2, w2)
    /\ (ProcessedItem.error v = None \/ ProcessedItem.error v = Some "" ->
        message = "sync error")
    /\ (forall e, ProcessedItem.error v = Some e -> e <> "" -> message = e)
    /\ Forall2 (retried (SyncQueueItem.id item) message)
         (sync_queue w1) (sync_queue w2)
    /\ (forall r,
           select_first (task_has_id (SyncQueueItem.task_id item)) (tasks w1) = Some r ->
           exists r',
             select_first (task_has_id (SyncQueueItem.task_id item)) (tasks w2) = Some r'
             /\ TaskRow.sync_status r' = SyncStatus.error
             /\ TaskRow.last_synced_at r' = Some (clock env (clock_reads w1))
             /\ TaskRow.server_id r' = TaskRow.server_id r
             /\ TaskRow.updated_at r' = TaskRow.updated_at r)
    /\ SyncResult.synced_items r2 = SyncResult.synced_items r1
    /\ SyncResult.failed_items r2 = SyncResult.failed_items r1 + 1
    /\ SyncResult.errors r2
       = SyncResult.errors r1
         ++ [SyncError.mk (SyncQueueItem.task_id item)
               (SyncQueueItem.operation item) message ts]
    /\ SyncResult.success r2 = false.
Proof.
  intros Hup Hne Hpost Hfind Hs Hc.
  destruct (pass_one_more env net w before v Hup Hne Hpost)
    as (t1 & w1 & t2 & w2 & S1 & Hstep & S2).
  destruct (reconcile_rejected env (batch_of env w) t1 v item w1 Hfind Hs Hc)
    as (t2' & w2' & message & ts & E & Hdef & Hgiven & Hq & Htask & Hsy & Hf & He).
  rewrite Hstep in E. inversion E; subst t2' w2'.
  exists (tally_result t1), w1, (tally_result t2), w2, message, ts.
  split; [exact S1|]. split; [exact S2|]. split; [exact Hdef|].
  split; [exact Hgiven|]. split; [exact Hq|]. split; [exact Htask|].
  simpl. rewrite Hf. repeat split; try assumption.
  apply Nat.eqb_neq. lia.
Qed.

Lemma sync_rejected_verdict_witness :
  exists r2 w2,
    sync env_plain
      (answering [ProcessedItem.mk "A" "error" None None (Some "title too long")])
      world_one_task = (Returned r2, w2)
    /\ SyncResult.failed_items r2 = 1
    /\ Forall2 (retried "A" "title too long")
         (sync_queue world_one_task) (sync_queue w2).
Proof.
  destruct (sync_rejected_verdict env_plain
              (answering [ProcessedItem.mk "A" "error" None None
                            (Some "title too long")])
              world_one_task []
              (ProcessedItem.mk "A" "error" None None (Some "title too long"))
              (SyncQueueItem.mk "A" "A" Operation.create
                 (snapshot "A" "buy milk" (Some "") false 100 100 false None)
                 110 0 None))
    as (r1 & w1 & r2 & w2 & message & ts & S1 & S2 & _ & Hm & Hq & _ & _ & Hf & _).
  - reflexivity.
  - discriminate.
  - reflexivity.
  - reflexivity.
  - discriminate.
  - discriminate.
  - vm_compute in S1. inversion S1; subst r1 w1. clear S1.
    exists r2, w2. split; [exact S2|]. split; [exact Hf|].
    rewrite <- (Hm "title too long" eq_refl); [exact Hq | discriminate].
Defined.

(** X3: for every verdict with status ['conflict'] that names a submitted
    entry and carries a complete resolved task, wherever it stands in the
    response, when at that point the local task is stored and not
    soft-deleted: compared with the pass answered by the verdicts before
    it, the pass of [sync] answered by those verdicts and this one has
    written the winner onto the task row (the server's [title],
    [description], [completed] and [updated_at] when the server's
    [updated_at] is strictly later, the stored ones otherwise), made the row
    ['synced'] with the verdict's [server_id] (null when the verdict has
    none), kept its [id], [created_at], [is_deleted] and [last_synced_at],
    deleted the entries with the item's id without reading the clock, and
    returns a result with one more synced item. *)
Theorem sync_conflict_resolved_verdict (env : Env) (net : Remote) (w : World)
    (before : list ProcessedItem.t) (v : ProcessedItem.t) (item : SyncQueueItem.t)
    (r : TaskRow.t) (resolved : Task.t) :
  health net = true ->
  batch_of env w <> [] ->
  post_batch net (batch_of env w) (clock env (clock_reads w))
  = PostReturns (before ++ [v]) ->
  find_item (batch_of env w) v = Some item ->
  ProcessedItem.status v = "conflict" ->
  select_first (task_has_id (SyncQueueItem.task_id item))
    (tasks (snd (sync env (answering before) w))) = Some r ->
  TaskRow.is_deleted r = false ->
  ProcessedItem.resolved_data v = Some resolved ->
  exists r1 w1 r2 w2 r',
    sync env (answering before) w = (Returned r1, w1)
    /\ sync env net w = (Returned r2, w2)
    /\ select_first (task_has_id (SyncQueueItem.task_id item)) (tasks w2) = Some r'
    /\ ((Task.updated_at resolved > TaskRow.updated_at r)%Z ->
        TaskRow.title r' = Task.title resolved
        /\ TaskRow.description r' = Task.description resolved
        /\ TaskRow.completed r' = Task.completed resolved
        /\ TaskRow.updated_at r' = Task.updated_at resolved)
    /\ ((Task.updated_at resolved <= TaskRow.updated_at r)%Z ->
        TaskRow.title r' = TaskRow.title r
        /\ TaskRow.description r' = TaskRow.description r
        /\ TaskRow.completed r' = TaskRow.completed r
        /\ TaskRow.updated_at r' = TaskRow.updated_at r)
    /\ TaskRow.sync_status r' = SyncStatus.synced
    /\ TaskRow.server_id r' = ProcessedItem.server_id v
    /\ TaskRow.id r' = TaskRow.id r
    /\ TaskRow.created_at r' = TaskRow.created_at r
    /\ TaskRow.is_deleted r' = TaskRow.is_deleted r
    /\ TaskRow.last_synced_at r' = TaskRow.last_synced_at r
    /\ (forall q, In q (sync_queue w2) <->
                  In q (sync_queue w1) /\ SyncQueueItem.id q <> SyncQueueItem.id item)
    /\ SyncResult.synced_items r2 = SyncResult.synced_items r1 + 1
    /\ SyncResult.failed_items r2 = SyncResult.failed_items r1
    /\ SyncResult.errors r2 = SyncResult.errors r1
    /\ clock_reads w2 = clock_reads w1.
Proof.
  intros Hup Hne Hpost Hfind Hst Hr Hd Hres.
  destruct (pass_one_more env net w before v Hup Hne Hpost)
    as (t1 & w1 & t2 & w2 & S1 & Hstep & S2).
  rewrite S1 in Hr. simpl in Hr.
  destruct (reconcile_conflict_resolved env (batch_of env w) t1 v item w1 r
              resolved Hfind Hst Hr Hd Hres)
    as (t2' & w2' & r' & E & Hr' & Hsrv & Hloc & H1 & H2 & H3 & H4 & H5 & H6
        & Hq & Hs & Hf & He & Hc).
  rewrite Hstep in E. inversion E; subst t2' w2'.
  exists (tally_result t1), w1, (tally_result t2), w2, r'.
  split; [exact S1|]. split; [exact S2|]. split; [exact Hr'|].
  split; [exact Hsrv|]. split; [exact Hloc|]. simpl.
  repeat (split; [assumption|]). assumption.
Qed.

Lemma sync_conflict_resolved_verdict_witness :
  exists r2 w2 r',
    sync env_plain server_ahead world_one_task = (Returned r2, w2)
    /\ select_first (task_has_id "A") (tasks w2) = Some r'
    /\ TaskRow.completed r' = true
    /\ TaskRow.updated_at r' = 1000%Z
    /\ SyncResult.synced_items r2 = 1.
Proof.
  destruct (sync_conflict_resolved_verdict env_plain server_ahead world_one_task []
              verdict_conflict_server
              (SyncQueueItem.mk "A" "A" Operation.create
                 (snapshot "A" "buy milk" (Some "") false 100 100 false None)
                 110 0 None)
              (TaskRow.mk "A" "buy milk" (Some "") false false 100 100
                 SyncStatus.pending None None)
              (Task.mk "A" "buy milk" (Some "") true false 100%Z 1000%Z
                 SyncStatus.synced (Some "srv-1")))
    as (r1 & w1 & r2 & w2 & r' & S1 & S2 & Hr' & Hsrv & _ & _ & _ & _ & _ & _
        & _ & _ & Hs & _).
  - reflexivity.
  - discriminate.
  - reflexivity.
  - reflexivity.
  - reflexivity.
  - reflexivity.
  - reflexivity.
  - reflexivity.
  - vm_compute in S1. inversion S1; subst r1 w1. clear S1.
    exists r2, w2, r'. split; [exact S2|]. split; [exact Hr'|].
    destruct (Hsrv eq_refl) as (_ & _ & Hc & Hu).
    split; [exact Hc|]. split; [exact Hu | exact Hs].
Defined.

(** * The batch that fails, under a key on the queue's id *)

Lemma map_id_update_where p message l :
  map SyncQueueItem.id (update_where p (write_retry message) l)
  = map SyncQueueItem.id l.
Proof.
  unfold update_where. rewrite map_map. apply map_ext.
  intro q. destruct (p q); reflexivity.
Qed.

Lemma NoDup_map_delete_where {A B} (f : A -> B) p (l : list A) :
  NoDup (map f l) -> NoDup (map f (delete_where p l)).
Proof.
  unfold delete_where. induction l as [|a l IH]; simpl; intro H; [constructor|].
  inversion H as [|? ? Hnot Hl]; subst.
  destruct (negb (p a)); simpl; [|auto].
  constructor; [|auto]. intro Hin. apply Hnot.
  apply in_map_iff in Hin. destruct Hin as (x & Hx & Hin).
  apply filter_In in Hin. apply in_map_iff. exists x. tauto.
Qed.

Lemma not_in_ids i l :
  existsb (entry_has_id i) l = false -> ~ In i (map SyncQueueItem.id l).
Proof.
  intros H Hin. apply in_map_iff in Hin. destruct Hin as (q & Hq & Hin).
  assert (existsb (entry_has_id i) l = true); [|congruence].
  apply existsb_exists. exists q. split; [exact Hin|].
  unfold entry_has_id. rewrite Hq. apply String.eqb_refl.
Qed.

Lemma NoDup_map_inj {A B} (f : A -> B) (l : list A) x y :
  NoDup (map f l) -> In x l -> In y l -> f x = f y -> x = y.
Proof.
  induction l as [|a l IH]; simpl; intros H Hx Hy E; [contradiction|].
  inversion H as [|? ? Hnot Hl]; subst.
  destruct Hx as [<- | Hx], Hy as [<- | Hy]; auto.
  - exfalso. apply Hnot. rewrite E. now apply in_map.
  - exfalso. apply Hnot. rewrite <- E. now apply in_map.
Qed.

Lemma Forall2_impl_In {A} (P Q : A -> A -> Prop) (l l' : list A) :
  (forall a b, In a l -> P a b -> Q a b) -> Forall2 P l l' -> Forall2 Q l l'.
Proof.
  intros H F. induction F as [|a b l l' Hab F IH]; constructor.
  - apply H; [now left | exact Hab].
  - apply IH. intros x y Hx. apply H. now right.
Qed.

Section KeyedQueue.
Variable env : Env.
Hypothesis keyed : queue_id_key env = true.

Lemma distinct_same {A} (m : M A) :
  (forall w, sync_queue (snd (m w)) = sync_queue w) -> keeps distinct_kept m.
Proof. intros H w. unfold distinct_kept, distinct_ids. now rewrite H. Qed.

Lemma distinct_insert_entry q : keeps distinct_kept (insert_entry env q).
Proof.
  intros w Hw. unfold insert_entry. rewrite keyed. simpl.
  destruct (existsb _ _) eqn:E; simpl; [exact Hw|].
  unfold distinct_ids. simpl. rewrite map_app. simpl.
  apply NoDup_app; [exact Hw | constructor; [intros [] | constructor] |].
  intros i Hi [<- | []]. revert Hi. now apply not_in_ids.
Qed.

Lemma distinct_write_retry i e : keeps distinct_kept (update_entries i (write_retry e)).
Proof.
  intros w Hw. unfold distinct_ids. simpl. now rewrite map_id_update_where.
Qed.

Lemma distinct_delete_entries i : keeps distinct_kept (delete_entries i).
Proof.
  intros w Hw. unfold distinct_ids. simpl. now apply NoDup_map_delete_where.
Qed.

Lemma distinct_after c w : distinct_kept w (after env c w).
Proof.
  assert (Hrefl : forall w, distinct_kept w w) by (intros ? H; exact H).
  assert (Htrans : forall w1 w2 w3,
             distinct_kept w1 w2 -> distinct_kept w2 w3 -> distinct_kept w1 w3)
    by (unfold distinct_kept; auto).
  assert (Hupd : forall i f, keeps distinct_kept (update_tasks i f))
    by (intros; apply distinct_same; reflexivity).
  assert (Hdate : keeps distinct_kept (new_Date env))
    by (apply distinct_same; reflexivity).
  assert (Huuid : keeps distinct_kept (uuidv4 env))
    by (apply distinct_same; reflexivity).
  assert (Hins : forall r, keeps distinct_kept (insert_task env r)).
  { intro r. apply distinct_same. intro w0. unfold insert_task.
    destruct (_ && _); reflexivity. }
  destruct c as [taskData | i updates | i | net]; simpl.
  - apply (keeps_createTask distinct_kept Hrefl Htrans env); auto.
    intros. apply distinct_insert_entry.
  - apply (keeps_updateTask distinct_kept Hrefl Htrans env); auto.
    intros. apply distinct_insert_entry.
  - apply (keeps_deleteTask distinct_kept Hrefl Htrans env); auto.
    intros. apply distinct_insert_entry.
  - apply (keeps_sync distinct_kept Hrefl Htrans env); auto.
    + apply distinct_write_retry.
    + apply distinct_delete_entries.
    + intros. apply Hupd.
Qed.

(** With a key on the queue's id, no state reached from the empty store has
    two entries with one id. *)
Lemma keyed_queue_ids_distinct cs : distinct_ids (run env cs empty_world).
Proof.
  assert (H : forall w, distinct_ids w -> distinct_ids (run env cs w)).
  { unfold run. induction cs as [|c cs IH]; simpl; intros w Hw; [exact Hw|].
    apply IH. revert Hw. apply distinct_after. }
  apply H. constructor.
Qed.

End KeyedQueue.

Lemma batch_ids_distinct env w :
  distinct_ids w -> NoDup (map SyncQueueItem.id (batch_of env w)).
Proof.
  unfold distinct_ids, batch_of. rewrite map_item_of_row. intro H.
  destruct (limit_prefix (default 50%Z (SYNC_BATCH_SIZE env))
              (order_by_created_at (sync_queue w))) as (rest & Hsplit & _).
  assert (Hp : NoDup (map SyncQueueItem.id (order_by_created_at (sync_queue w)))).
  { eapply Permutation_NoDup; [|exact H].
    apply Permutation_map. symmetry. apply order_by_created_at_perm. }
  rewrite Hsplit, map_app in Hp. now apply NoDup_app_remove_r in Hp.
Qed.

Lemma retried_in_batch_once env w message q q' :
  distinct_ids w ->
  In q (sync_queue w) ->
  retried_in_batch (batch_of env w) message q q' ->
  (In q (batch_of env w) -> retried_once message q q')
  /\ (~ In q (batch_of env w) -> q' = q).
Proof.
  intros Hd Hq (Hi & Ht & Ho & Hda & Hc & Hr & Hm & Hz). split.
  - intro Hin.
    assert (Hh : hits (batch_of env w) q = 1).
    { apply hits_distinct; [now apply batch_ids_distinct | now apply in_map]. }
    rewrite Hh in Hr, Hm. unfold retried_once.
    repeat (split; [assumption || (apply Hm; lia)|]). assumption.
  - intro Hout.
    assert (Hh : hits (batch_of env w) q = 0).
    { apply hits_absent. intro Hin. apply in_map_iff in Hin.
      destruct Hin as (x & Hx & Hin). apply Hout.
      assert (x = q); [|now subst].
      apply (NoDup_map_inj SyncQueueItem.id (sync_queue w)); auto.
      now apply (In_batch_of env). }
    rewrite Hh in Hr. specialize (Hz Hh).
    destruct q, q'. simpl in *. subst. f_equal. lia.
Qed.

Lemma select_first_marked items ts ts' i r0 :
  Forall2 (marked_in_batch items) ts ts' ->
  select_first (task_has_id i) ts = Some r0 ->
  exists r',
    select_first (task_has_id i) ts' = Some r' /\ marked_in_batch items r0 r'.
Proof.
  unfold select_first. induction 1 as [|a b l l' Hab F IH]; simpl; [discriminate|].
  assert (Hid : task_has_id i b = task_has_id i a).
  { unfold task_has_id. destruct Hab as (-> & _). reflexivity. }
  rewrite Hid. destruct (task_has_id i a).
  - intro E. inversion E; subst. eauto.
  - exact IH.
Qed.


